(** * ClawdBody / jarvis-sdk: the permission module

    A shallow embedding of
      packages/jarvis-sdk/src/permission/PolicyEngine.ts
      packages/jarvis-sdk/src/permission/PermissionAPI.ts
    together with the fragment of JavaScript they rely on (strings, values,
    strict equality, [RegExp]), followed by the properties of the
    specification that concern these two files. *)

From Stdlib Require Import ZArith List Strings.String Strings.Ascii Floats Lia.
From Stdlib Require Import Sorting.Sorted Sorting.Permutation.
From stdpp Require Import base option list sorting gmap.

Local Open Scope Z_scope.

(* ===================================================================== *)
(** * Part I: the JavaScript fragment                                     *)
(* ===================================================================== *)

(** A JavaScript string is a sequence of UTF-16 code units. *)
Abbreviation JSString := (list N).

Module JS.

(** String literals of the source, written with their ASCII text. *)
Definition js (s : string) : JSString :=
  map N_of_ascii (list_ascii_of_string s).

(** The double quote, code unit 0x22. *)
Definition dquote : N := 34%N.

(** [a === b] on strings. *)
Definition strEq (a b : JSString) : bool := bool_decide (a = b).

Fixpoint startsWith (hay needle : JSString) : bool :=
  match needle, hay with
  | [], _ => true
  | _ :: _, [] => false
  | n :: needle', h :: hay' => bool_decide (n = h) && startsWith hay' needle'
  end.

(** [String.prototype.includes]: [needle] occurs somewhere in [hay]. *)
Fixpoint includes (hay needle : JSString) : bool :=
  startsWith hay needle ||
  match hay with
  | [] => false
  | _ :: hay' => includes hay' needle
  end.

Fixpoint digits (u : Decimal.uint) : JSString :=
  match u with
  | Decimal.Nil => []
  | Decimal.D0 u => 48%N :: digits u
  | Decimal.D1 u => 49%N :: digits u
  | Decimal.D2 u => 50%N :: digits u
  | Decimal.D3 u => 51%N :: digits u
  | Decimal.D4 u => 52%N :: digits u
  | Decimal.D5 u => 53%N :: digits u
  | Decimal.D6 u => 54%N :: digits u
  | Decimal.D7 u => 55%N :: digits u
  | Decimal.D8 u => 56%N :: digits u
  | Decimal.D9 u => 57%N :: digits u
  end.

(** What a template literal prints for a non-negative integer. *)
Definition numberToString (n : nat) : JSString := digits (Nat.to_uint n).

(** Values of type [unknown].  Numbers are IEEE 754 doubles.  Arrays and
    other objects carry the identity of the object ([ref]): [===] and
    [includes] compare objects by identity, never by content.  [VBuiltin k]
    is the object that the property [k] of [Object.prototype] holds: a
    function, and for [__proto__] the prototype itself. *)
#[warnings="-register-all"]
Inductive JSValue : Type :=
| VUndefined
| VNull
| VBool (b : bool)
| VNumber (x : float)
| VBigInt (z : Z)
| VString (s : JSString)
| VArray (ref : nat) (elems : list JSValue)
| VObject (ref : nat)
| VBuiltin (name : JSString).

(** [a === b]. *)
Definition strictEquals (a b : JSValue) : bool :=
  match a, b with
  | VUndefined, VUndefined => true
  | VNull, VNull => true
  | VBool x, VBool y => Bool.eqb x y
  | VNumber x, VNumber y => PrimFloat.eqb x y
  | VBigInt x, VBigInt y => Z.eqb x y
  | VString x, VString y => strEq x y
  | VArray r _, VArray r' _ => Nat.eqb r r'
  | VObject r, VObject r' => Nat.eqb r r'
  | VBuiltin k, VBuiltin k' => strEq k k'
  | _, _ => false
  end.

(** SameValueZero, the comparison of [Array.prototype.includes]: as [===]
    but NaN equals NaN. *)
Definition sameValueZero (a b : JSValue) : bool :=
  match a, b with
  | VNumber x, VNumber y =>
      PrimFloat.eqb x y || (PrimFloat.is_nan x && PrimFloat.is_nan y)
  | _, _ => strictEquals a b
  end.

(** [elems.includes(v)]. *)
Definition arrayIncludes (elems : list JSValue) (v : JSValue) : bool :=
  existsb (fun e => sameValueZero e v) elems.

(** [a <= b] and [a >= b] on numbers. *)
Definition numLe (a b : float) : bool := PrimFloat.leb a b.
Definition numGe (a b : float) : bool := PrimFloat.leb b a.
(** [a > b] and [a < b] on numbers. *)
Definition numGt (a b : float) : bool := PrimFloat.ltb b a.
Definition numLt (a b : float) : bool := PrimFloat.ltb a b.

(** The properties of [Object.prototype].  An object written as a literal
    inherits them: [o[k]] reads them where [o] has no property [k] of its
    own. *)
Definition objectPrototypeKeys : list JSString :=
  [js "constructor"; js "__defineGetter__"; js "__defineSetter__";
   js "hasOwnProperty"; js "__lookupGetter__"; js "__lookupSetter__";
   js "isPrototypeOf"; js "propertyIsEnumerable"; js "toString";
   js "valueOf"; js "__proto__"; js "toLocaleString"].

(** The numbers that [priority] takes.  The engine does one thing with a
    priority: the comparator of [listPolicies] subtracts two of them, and
    [sort] reads the sign of the difference.  Rounding changes neither that
    sign nor whether the difference is NaN, so a priority is kept as NaN,
    an infinity or its value; a finite value is an integer here. *)
Inductive JSNumber : Type :=
| NaN
| NegInfinity
| Finite (z : Z)
| Infinity.

(** [a - b]. *)
Definition numberSub (a b : JSNumber) : JSNumber :=
  match a, b with
  | NaN, _ | _, NaN => NaN
  | Infinity, Infinity | NegInfinity, NegInfinity => NaN
  | Infinity, _ | _, NegInfinity => Infinity
  | NegInfinity, _ | _, Infinity => NegInfinity
  | Finite x, Finite y => Finite (x - y)
  end.

(** [v > 0]. *)
Definition isPositive (v : JSNumber) : bool :=
  match v with
  | Infinity => true
  | Finite z => 0 <? z
  | NaN | NegInfinity => false
  end.

(** [a <= b]. *)
Definition numberLe (a b : JSNumber) : bool :=
  match a, b with
  | NaN, _ | _, NaN => false
  | NegInfinity, _ | _, Infinity => true
  | Finite x, Finite y => x <=? y
  | Infinity, _ | _, NegInfinity => false
  end.

(** A [Set<string>]: its elements in insertion order, without repetition. *)
Definition setAdd (x : JSString) (s : list JSString) : list JSString :=
  if bool_decide (x ∈ s) then s else s ++ [x].

Definition setDelete (x : JSString) (s : list JSString) : list JSString :=
  filter (fun y => y ≠ x) s.

(** [Array.prototype.sort(cmp)].  The language requires the sort to be
    stable, which fixes its result for a consistent comparator; it is
    written here as a stable insertion sort.  [b] goes before [a] when
    [cmp a b > 0]; a result that is negative, zero or NaN keeps [a] before
    [b].  For a comparator that is not consistent, as one that returns NaN
    for some pairs, the language leaves the order to the implementation. *)
Section Sort.
Context {A : Type} (cmp : A -> A -> JSNumber).

Fixpoint insertSorted (x : A) (l : list A) : list A :=
  match l with
  | [] => [x]
  | y :: l' =>
      if isPositive (cmp x y) then y :: insertSorted x l' else x :: y :: l'
  end.

Fixpoint sort (l : list A) : list A :=
  match l with
  | [] => []
  | x :: l' => insertSorted x (sort l')
  end.
End Sort.

End JS.

Import JS.

(** ** Regular expressions: the fragment [new RegExp] is called with *)

Module RegExp.

(** The syntax characters of the pattern grammar. *)
Definition syntaxChars : JSString := js "^$\.*+?()[]{}|".

Definition isSyntaxChar (c : N) : bool := bool_decide (c ∈ syntaxChars).

(** Line terminators: LF, CR, U+2028, U+2029.  Without the [s] flag the
    dot matches any code unit but these. *)
Definition isLineTerminator (c : N) : bool :=
  bool_decide (c ∈ [10%N; 13%N; 8232%N; 8233%N]).

Inductive Atom : Type :=
| AChar (c : N)     (* a pattern character, or an escaped syntax character *)
| ADot.             (* [.] *)

Inductive Term : Type :=
| TBegin            (* [^] *)
| TEnd              (* [$] *)
| TAtom (a : Atom)
| TStar (a : Atom). (* atom followed by [*] *)

Definition backslash : N := 92%N.
Definition dot : N := 46%N.
Definition star : N := 42%N.
Definition caret : N := 94%N.
Definition dollar : N := 36%N.

(** The parser of [new RegExp(source)], for sources made of characters,
    escaped syntax characters, dots, stars and the two assertions.
    [None] stands for every other source: one with groups, classes,
    alternatives or other quantifiers, and the sources the constructor
    rejects with a SyntaxError (a dangling backslash, a star with nothing
    to repeat). *)
Fixpoint parse (src : JSString) : option (list Term) :=
  match src with
  | [] => Some []
  | c :: rest =>
      if bool_decide (c = backslash) then
        match rest with
        | e :: rest' =>
            if isSyntaxChar e then
              match rest' with
              | q :: rest'' =>
                  if bool_decide (q = star)
                  then cons (TStar (AChar e)) <$> parse rest''
                  else cons (TAtom (AChar e)) <$> parse rest'
              | [] => Some [TAtom (AChar e)]
              end
            else None
        | [] => None
        end
      else if bool_decide (c = caret) then cons TBegin <$> parse rest
      else if bool_decide (c = dollar) then cons TEnd <$> parse rest
      else if bool_decide (c = dot) then
        match rest with
        | q :: rest' =>
            if bool_decide (q = star)
            then cons (TStar ADot) <$> parse rest'
            else cons (TAtom ADot) <$> parse rest
        | [] => Some [TAtom ADot]
        end
      else if isSyntaxChar c then None
      else
        match rest with
        | q :: rest' =>
            if bool_decide (q = star)
            then cons (TStar (AChar c)) <$> parse rest'
            else cons (TAtom (AChar c)) <$> parse rest
        | [] => Some [TAtom (AChar c)]
        end
  end.

(** [new RegExp(source)], without flags. *)
Definition compile (source : JSString) : option (list Term) :=
  parse source.

Definition atomMatches (a : Atom) (c : N) : bool :=
  match a with
  | AChar c' => bool_decide (c = c')
  | ADot => negb (isLineTerminator c)
  end.

(** The backtracking matcher: do the terms match a prefix of [s]?
    [atStart] tells whether [s] is the whole input ([^] without the [m]
    flag holds only there, [$] only at the end of the input).  A star is
    greedy: it first tries to take one more code unit. *)
Fixpoint matchTerms (ts : list Term) (atStart : bool) (s : JSString) : bool :=
  match ts with
  | [] => true
  | TBegin :: ts' => atStart && matchTerms ts' atStart s
  | TEnd :: ts' =>
      match s with
      | [] => matchTerms ts' atStart s
      | _ :: _ => false
      end
  | TAtom a :: ts' =>
      match s with
      | c :: s' => atomMatches a c && matchTerms ts' false s'
      | [] => false
      end
  | TStar a :: ts' =>
      (fix repeat (atStart : bool) (s : JSString) : bool :=
         match s with
         | c :: s' => (atomMatches a c && repeat false s') || matchTerms ts' atStart s
         | [] => matchTerms ts' atStart s
         end) atStart s
  end.

(** [regex.test(s)] for a regex without flags: a match starting at some
    index of [s]. *)
Fixpoint search (ts : list Term) (atStart : bool) (s : JSString) : bool :=
  matchTerms ts atStart s ||
  match s with
  | [] => false
  | _ :: s' => search ts false s'
  end.

Definition test (regex : list Term) (s : JSString) : bool :=
  search regex true s.

End RegExp.

(* ===================================================================== *)
(** * Part II: types.ts, the permission types                             *)
(* ===================================================================== *)

(** [ActorType].  The engine also compares a matcher's type with ['*']
    (cast to [ActorType]), so the wildcard is a value of the type here. *)
Inductive ActorType : Type :=
| ActorUser | ActorAgent | ActorService | ActorSystem | ActorAny.

Inductive PermissionAction : Type :=
| ActCreate | ActRead | ActUpdate | ActDelete | ActExecute | ActAdmin | ActAny.

Inductive Effect : Type := Allow | Deny.

#[global] Instance ActorType_eq_dec : EqDecision ActorType.
Proof. solve_decision. Defined.
#[global] Instance PermissionAction_eq_dec : EqDecision PermissionAction.
Proof. solve_decision. Defined.
#[global] Instance Effect_eq_dec : EqDecision Effect.
Proof. solve_decision. Defined.

(** The text of an action, as a template literal prints it. *)
Definition actionToString (a : PermissionAction) : JSString :=
  match a with
  | ActCreate => js "create"
  | ActRead => js "read"
  | ActUpdate => js "update"
  | ActDelete => js "delete"
  | ActExecute => js "execute"
  | ActAdmin => js "admin"
  | ActAny => js "*"
  end.

(** A request context, [Record<string, unknown>]. *)
Abbreviation Context := (gmap (list N) JSValue).

(** [PermissionCondition].  The operator is the string found at run time:
    the declared union lists seven operators, and the questions asked about
    conditions include what happens with any other. *)
Module Cond.
Record t : Type := mk {
  field : JSString;
  operator : JSString;
  value : JSValue
}.
End Cond.

Module ActorMatcher.
Record t : Type := mk {
  type : ActorType;
  pattern : JSString
}.
End ActorMatcher.

Module Rule.
Record t : Type := mk {
  effect : Effect;
  actors : list ActorMatcher.t;
  resources : list JSString;
  actions : list PermissionAction;
  conditions : option (list Cond.t)
}.
End Rule.

(** [Policy].  [priority] is a [number], and no function of the module
    checks it: it may be NaN. *)
Module Policy.
Record t : Type := mk {
  id : JSString;
  tenantId : JSString;
  name : JSString;
  description : option JSString;
  rules : list Rule.t;
  priority : JSNumber;
  enabled : bool;
  createdAt : Z
}.
End Policy.

(** [PermissionCheckOptions], the request. *)
Module Req.
Record t : Type := mk {
  actorId : JSString;
  actorType : ActorType;
  resource : JSString;
  action : PermissionAction;
  context : option Context
}.
End Req.

(** [PolicyEvalResult]. *)
Module EvalResult.
Record t : Type := mk {
  allowed : bool;
  reason : JSString;
  matchedPolicy : option JSString;
  matchedRule : option nat
}.
End EvalResult.

(** The [options] argument of [createPolicy]. *)
Module CreateOptions.
Record t : Type := mk {
  description : option JSString;
  priority : option JSNumber;
  enabled : option bool
}.
End CreateOptions.

(** The [updates] argument of [updatePolicy].  Its declared type is
    [Partial<Omit<Policy, 'id' | 'tenantId' | 'createdAt'>>], which an
    object that has the three omitted keys as well satisfies unless it is
    written as a literal in the call; [updatePolicy] spreads the object, and
    the spread copies every key that the object has.  So each of the eight
    keys of a policy is optional here.  A key can be present with the
    value [undefined]: for [description] that is a value of the policy's
    own type, [Some None] here; for the other keys it would store a policy
    that is no [Policy], and it is not part of the model. *)
Module Updates.
Record t : Type := mk {
  id : option JSString;
  tenantId : option JSString;
  name : option JSString;
  description : option (option JSString);
  rules : option (list Rule.t);
  priority : option JSNumber;
  enabled : option bool;
  createdAt : option Z
}.

(** The object [{ enabled }]. *)
Definition ofEnabled (enabled : bool) : t :=
  mk None None None None None None (Some enabled) None.

(** The keys of the declared type only. *)
Definition declared (updates : t) : Prop :=
  id updates = None /\ tenantId updates = None /\ createdAt updates = None.
End Updates.

(* ===================================================================== *)
(** * Part III: PolicyEngine.ts                                           *)
(* ===================================================================== *)

Module PolicyEngine.

(** The two private maps of the class.  A tenant's [Set<string>] is the
    list of its policy ids in insertion order. *)
Record t : Type := mk {
  policies : gmap (list N) Policy.t;
  tenantPolicies : gmap (list N) (list (list N))
}.

(** [new PolicyEngine()]. *)
Definition new : t := mk ∅ ∅.

(** [createPolicy].  [nanoid] is the identifier that the call of
    [nanoid()] returns and [now] the reading of [new Date()]. *)
Definition createPolicy (this : t) (nanoid : JSString) (now : Z)
    (tenantId name : JSString) (rules : list Rule.t)
    (options : option CreateOptions.t) : t * Policy.t :=
  let policy :=
    Policy.mk nanoid tenantId name
      (options ≫= CreateOptions.description)
      rules
      (default (Finite 0) (options ≫= CreateOptions.priority))
      (default true (options ≫= CreateOptions.enabled))
      now in
  let policies' := <[Policy.id policy := policy]> (policies this) in
  let tenantSet := default [] (tenantPolicies this !! tenantId) in
  let tenantPolicies' :=
    <[tenantId := setAdd (Policy.id policy) tenantSet]> (tenantPolicies this) in
  (mk policies' tenantPolicies', policy).

Definition getPolicy (this : t) (id : JSString) : option Policy.t :=
  policies this !! id.

(** [{...policy, ...updates}]: every key that [updates] has replaces the
    one of [policy]. *)
Definition merge (policy : Policy.t) (updates : Updates.t) : Policy.t :=
  Policy.mk
    (default (Policy.id policy) (Updates.id updates))
    (default (Policy.tenantId policy) (Updates.tenantId updates))
    (default (Policy.name policy) (Updates.name updates))
    (default (Policy.description policy) (Updates.description updates))
    (default (Policy.rules policy) (Updates.rules updates))
    (default (Policy.priority policy) (Updates.priority updates))
    (default (Policy.enabled policy) (Updates.enabled updates))
    (default (Policy.createdAt policy) (Updates.createdAt updates)).

Definition updatePolicy (this : t) (id : JSString) (updates : Updates.t)
    : t * option Policy.t :=
  match policies this !! id with
  | None => (this, None)
  | Some policy =>
      let updated := merge policy updates in
      (mk (<[id := updated]> (policies this)) (tenantPolicies this),
       Some updated)
  end.

Definition deletePolicy (this : t) (id : JSString) : t * bool :=
  match policies this !! id with
  | None => (this, false)
  | Some policy =>
      let policies' := delete id (policies this) in
      let tenantPolicies' :=
        match tenantPolicies this !! Policy.tenantId policy with
        | Some tenantSet =>
            <[Policy.tenantId policy := setDelete id tenantSet]>
              (tenantPolicies this)
        | None => tenantPolicies this
        end in
      (mk policies' tenantPolicies', true)
  end.

(** The comparator of [listPolicies]: [b.priority - a.priority]. *)
Definition byPriority (a b : Policy.t) : JSNumber :=
  numberSub (Policy.priority b) (Policy.priority a).

Definition listPolicies (this : t) (tenantId : JSString) : list Policy.t :=
  match tenantPolicies this !! tenantId with
  | None => []
  | Some tenantSet =>
      sort byPriority (omap (fun id => policies this !! id) tenantSet)
  end.

(** ** Matching *)

(** [matchesPattern].  The source escapes the characters of the class
    [[.+?^${}()|[\]\\]] with a backslash, then replaces every star by
    a dot and a star, and tests the value against the result between
    [^] and [$]. *)
Definition escapedChars : JSString := js ".+?^${}()|[]\".

Definition escapeSpecial (pattern : JSString) : JSString :=
  flat_map (fun c =>
    if bool_decide (c ∈ escapedChars) then [RegExp.backslash; c] else [c])
    pattern.

Definition starToDotStar (pattern : JSString) : JSString :=
  flat_map (fun c =>
    if bool_decide (c = RegExp.star) then [RegExp.dot; RegExp.star] else [c])
    pattern.

(** When [new RegExp] rejects its source the call throws; [None] there is
    read as no match.  [regex_always_compiles] below shows that this never
    happens. *)
Definition matchesPattern (pattern value : JSString) : bool :=
  if strEq pattern (js "*") then true
  else
    let regexPattern := starToDotStar (escapeSpecial pattern) in
    match RegExp.compile (js "^" ++ regexPattern ++ js "$") with
    | Some regex => RegExp.test regex value
    | None => false
    end.

Fixpoint matchesActor (actors : list ActorMatcher.t) (actorType : ActorType)
    (actorId : JSString) : bool :=
  match actors with
  | [] => false
  | actor :: rest =>
      if negb (bool_decide (ActorMatcher.type actor = actorType))
         && negb (bool_decide (ActorMatcher.type actor = ActorAny))
      then matchesActor rest actorType actorId
      else if matchesPattern (ActorMatcher.pattern actor) actorId then true
      else matchesActor rest actorType actorId
  end.

Fixpoint matchesResource (resources : list JSString) (resource : JSString)
    : bool :=
  match resources with
  | [] => false
  | pattern :: rest =>
      if matchesPattern pattern resource then true
      else matchesResource rest resource
  end.

Definition matchesAction (actions : list PermissionAction)
    (action : PermissionAction) : bool :=
  bool_decide (ActAny ∈ actions) || bool_decide (action ∈ actions).

(** [context[condition.field]].  The context is the object that the caller
    wrote, or [{}]: a [Context] holds its own properties, and its prototype
    is [Object.prototype].  A key that the context lacks reads the property
    of the prototype, and [undefined] where the prototype has none. *)
Definition contextGet (context : Context) (field : JSString) : JSValue :=
  match context !! field with
  | Some value => value
  | None =>
      if bool_decide (field ∈ objectPrototypeKeys) then VBuiltin field
      else VUndefined
  end.

(** One turn of the loop of [matchesConditions]: [false] where the source
    returns false, [true] where it breaks out of the switch.  The switch
    has no default case. *)
Definition conditionPasses (condition : Cond.t) (context : Context) : bool :=
  let value := contextGet context (Cond.field condition) in
  let operator := Cond.operator condition in
  if strEq operator (js "eq") then
    strictEquals value (Cond.value condition)
  else if strEq operator (js "neq") then
    negb (strictEquals value (Cond.value condition))
  else if strEq operator (js "in") then
    match Cond.value condition with
    | VArray _ elems => arrayIncludes elems value
    | _ => false
    end
  else if strEq operator (js "nin") then
    match Cond.value condition with
    | VArray _ elems => negb (arrayIncludes elems value)
    | _ => true
    end
  else if strEq operator (js "gt") then
    match value, Cond.value condition with
    | VNumber v, VNumber cv => negb (numLe v cv)
    | _, _ => false
    end
  else if strEq operator (js "lt") then
    match value, Cond.value condition with
    | VNumber v, VNumber cv => negb (numGe v cv)
    | _, _ => false
    end
  else if strEq operator (js "contains") then
    match value, Cond.value condition with
    | VString v, VString cv => includes v cv
    | _, _ => false
    end
  else true.

Fixpoint matchesConditions (conditions : list Cond.t) (context : Context)
    : bool :=
  match conditions with
  | [] => true
  | condition :: rest =>
      if conditionPasses condition context
      then matchesConditions rest context
      else false
  end.

Definition matchesRule (rule : Rule.t) (options : Req.t) : bool :=
  if negb (matchesActor (Rule.actors rule) (Req.actorType options)
             (Req.actorId options)) then false
  else if negb (matchesResource (Rule.resources rule) (Req.resource options))
  then false
  else if negb (matchesAction (Rule.actions rule) (Req.action options))
  then false
  else
    match Rule.conditions rule with
    | Some (c :: cs) =>
        if negb (matchesConditions (c :: cs) (default ∅ (Req.context options)))
        then false else true
    | _ => true
    end.

(** ** Evaluation *)

Definition noPolicies : EvalResult.t :=
  EvalResult.mk false (js "No policies defined") None None.

Definition defaultDenyResult : EvalResult.t :=
  EvalResult.mk false (js "No matching policy rule (default deny)") None None.

(** The result at a match of rule [i] of [policy]. *)
Definition matched (policy : Policy.t) (rule : Rule.t) (i : nat)
    : EvalResult.t :=
  EvalResult.mk
    (bool_decide (Rule.effect rule = Allow))
    (js "Matched policy " ++ [dquote] ++ Policy.name policy ++ [dquote]
       ++ js " rule " ++ numberToString (i + 1))
    (Some (Policy.id policy))
    (Some i).

(** The inner loop, from index [i] on; [None] when it falls through. *)
Fixpoint evalRules (policy : Policy.t) (rules : list Rule.t) (i : nat)
    (options : Req.t) : option EvalResult.t :=
  match rules with
  | [] => None
  | rule :: rest =>
      if matchesRule rule options then Some (matched policy rule i)
      else evalRules policy rest (S i) options
  end.

(** The outer loop. *)
Fixpoint evalPolicies (policies : list Policy.t) (options : Req.t)
    : option EvalResult.t :=
  match policies with
  | [] => None
  | policy :: rest =>
      match evalRules policy (Policy.rules policy) 0 options with
      | Some result => Some result
      | None => evalPolicies rest options
      end
  end.

Definition evaluate (this : t) (tenantId : JSString) (options : Req.t)
    : EvalResult.t :=
  let policies := List.filter Policy.enabled (listPolicies this tenantId) in
  if Nat.eqb (length policies) 0 then noPolicies
  else
    match evalPolicies policies options with
    | Some result => result
    | None => defaultDenyResult
    end.

(** ** Built-in policies *)

Definition adminRule : Rule.t :=
  Rule.mk Allow [ActorMatcher.mk ActorUser (js "*")] [js "*"] [ActAny]
    (Some [Cond.mk (js "role") (js "eq") (VString (js "admin"))]).

Definition createAdminPolicy (this : t) (nanoid : JSString) (now : Z)
    (tenantId : JSString) : t * Policy.t :=
  createPolicy this nanoid now tenantId (js "Admin Full Access") [adminRule]
    (Some (CreateOptions.mk (Some (js "Full access for admin users"))
             (Some (Finite 100)) None)).

Definition agentAllowRule : Rule.t :=
  Rule.mk Allow [ActorMatcher.mk ActorAgent (js "*")]
    [js "task:*"; js "memory:*"; js "vault:*"]
    [ActRead; ActCreate; ActUpdate; ActExecute] None.

Definition agentDenyRule : Rule.t :=
  Rule.mk Deny [ActorMatcher.mk ActorAgent (js "*")]
    [js "user:*"; js "tenant:*"; js "policy:*"] [ActAny] None.

Definition createAgentPolicy (this : t) (nanoid : JSString) (now : Z)
    (tenantId : JSString) : t * Policy.t :=
  createPolicy this nanoid now tenantId (js "Agent Default Access")
    [agentAllowRule; agentDenyRule]
    (Some (CreateOptions.mk (Some (js "Default access for agents"))
             (Some (Finite 50)) None)).

Definition readOnlyAllowRule : Rule.t :=
  Rule.mk Allow [ActorMatcher.mk ActorUser (js "*")] [js "*"] [ActRead] None.

Definition readOnlyDenyRule : Rule.t :=
  Rule.mk Deny [ActorMatcher.mk ActorUser (js "*")] [js "*"]
    [ActCreate; ActUpdate; ActDelete; ActExecute; ActAdmin] None.

Definition createReadOnlyPolicy (this : t) (nanoid : JSString) (now : Z)
    (tenantId name : JSString) : t * Policy.t :=
  createPolicy this nanoid now tenantId name
    [readOnlyAllowRule; readOnlyDenyRule]
    (Some (CreateOptions.mk (Some (js "Read-only access")) (Some (Finite 10))
             None)).

(** ** Stats *)

Module Stats.
Record t : Type := mk {
  totalPolicies : nat;
  policiesByTenant : gmap (list N) nat;
  enabledPolicies : nat
}.
End Stats.

(** One turn of the loop of [getStats], on the pair of [enabledPolicies]
    and [policiesByTenant]. *)
Definition statsStep (acc : nat * gmap (list N) nat) (policy : Policy.t)
    : nat * gmap (list N) nat :=
  let '(enabledPolicies, policiesByTenant) := acc in
  let enabledPolicies' :=
    if Policy.enabled policy then S enabledPolicies else enabledPolicies in
  let count := default 0%nat (policiesByTenant !! Policy.tenantId policy) in
  (enabledPolicies',
   <[Policy.tenantId policy := (count + 1)%nat]> policiesByTenant).

(** The stored policies, [this.policies.values()].  The loop of [getStats]
    only counts, so the order of the values does not show in its result
    (the order of the entries of [policiesByTenant] is not modelled). *)
Definition storedPolicies (this : t) : list Policy.t :=
  (map_to_list (policies this)).*2.

Definition getStats (this : t) : Stats.t :=
  let '(enabledPolicies, policiesByTenant) :=
    foldl statsStep (0%nat, ∅) (storedPolicies this) in
  Stats.mk (size (policies this)) policiesByTenant enabledPolicies.

End PolicyEngine.

(* ===================================================================== *)
(** * Part IV: the audit logger                                           *)
(* ===================================================================== *)

Inductive AuditResult : Type := Success | Denied | Error.

(** The values stored under the keys of [details]. *)
Inductive DetailValue : Type :=
| DUndefined
| DString (s : JSString)
| DNumber (n : nat)
| DContext (c : Context).

Module AuditEntry.
Record t : Type := mk {
  id : JSString;
  tenantId : option JSString;
  actorId : JSString;
  actorType : ActorType;
  action : JSString;
  resource : JSString;
  result : AuditResult;
  details : list (JSString * DetailValue);
  timestamp : Z
}.
End AuditEntry.

Module AuditLogger.

(** The log, oldest entry first.  [idSource n] and [clock n] are the
    identifier and the time that the environment hands to the call of
    [log] made when [n] entries are stored. *)
Record t : Type := mk {
  entries : list AuditEntry.t;
  idSource : nat -> JSString;
  clock : nat -> Z
}.

(** Modelled from the spec: [AuditLogger.log], whose file (AuditLogger.ts)
    is not among the sources.  Section 4.4: it "assigns id + timestamp,
    appends to an append-only sequence, returns the stored record". *)
Definition log (this : t) (actorId : JSString) (actorType : ActorType)
    (action resource : JSString) (result : AuditResult)
    (details : list (JSString * DetailValue)) (tenantId : option JSString)
    : t * AuditEntry.t :=
  let n := length (entries this) in
  let entry :=
    AuditEntry.mk (idSource this n) tenantId actorId actorType action
      resource result details (clock this n) in
  (mk (entries this ++ [entry]) (idSource this) (clock this), entry).

End AuditLogger.

(* ===================================================================== *)
(** * Part V: PermissionAPI.ts                                            *)
(* ===================================================================== *)

Module PermissionAPI.

(** [PermissionAPIConfig], without [auditConfig]: that field is only
    handed to the constructor of the logger. *)
Module Config.
Record t : Type := mk {
  defaultDeny : option bool;
  auditAll : option bool
}.
End Config.

Record t : Type := mk {
  policyEngine : PolicyEngine.t;
  auditLogger : AuditLogger.t;
  defaultDeny : bool;
  auditAll : bool
}.

(** The constructor; [logger] is [new AuditLogger(config?.auditConfig)]. *)
Definition new (config : option Config.t) (logger : AuditLogger.t) : t :=
  mk PolicyEngine.new logger
    (default true (config ≫= Config.defaultDeny))
    (default true (config ≫= Config.auditAll)).

Definition withLogger (this : t) (logger : AuditLogger.t) : t :=
  mk (policyEngine this) logger (defaultDeny this) (auditAll this).

Definition optString (o : option JSString) : DetailValue :=
  match o with Some s => DString s | None => DUndefined end.

Definition optNumber (o : option nat) : DetailValue :=
  match o with Some n => DNumber n | None => DUndefined end.

Definition optContext (o : option Context) : DetailValue :=
  match o with Some c => DContext c | None => DUndefined end.

(** [result.allowed ? 'success' : 'denied']. *)
Definition auditResultOf (result : EvalResult.t) : AuditResult :=
  if EvalResult.allowed result then Success else Denied.

(** [check].  The calls are awaited one after the other, so the method is
    the sequential composition of its statements. *)
Definition check (this : t) (tenantId : JSString) (options : Req.t)
    : t * bool :=
  let result := PolicyEngine.evaluate (policyEngine this) tenantId options in
  let this' :=
    if auditAll this || negb (EvalResult.allowed result) then
      withLogger this
        (fst (AuditLogger.log (auditLogger this)
                (Req.actorId options)
                (Req.actorType options)
                (actionToString (Req.action options))
                (Req.resource options)
                (auditResultOf result)
                [(js "reason", DString (EvalResult.reason result));
                 (js "matchedPolicy", optString (EvalResult.matchedPolicy result));
                 (js "context", optContext (Req.context options))]
                (Some tenantId)))
    else this in
  (this', EvalResult.allowed result).

Definition checkWithDetails (this : t) (tenantId : JSString)
    (options : Req.t) : t * EvalResult.t :=
  let result := PolicyEngine.evaluate (policyEngine this) tenantId options in
  let this' :=
    if auditAll this || negb (EvalResult.allowed result) then
      withLogger this
        (fst (AuditLogger.log (auditLogger this)
                (Req.actorId options)
                (Req.actorType options)
                (actionToString (Req.action options))
                (Req.resource options)
                (auditResultOf result)
                [(js "reason", DString (EvalResult.reason result));
                 (js "matchedPolicy", optString (EvalResult.matchedPolicy result));
                 (js "matchedRule", optNumber (EvalResult.matchedRule result));
                 (js "context", optContext (Req.context options))]
                (Some tenantId)))
    else this in
  (this', result).

(** [enforce]: [inr message] when the source throws [new Error(message)]. *)
Definition enforce (this : t) (tenantId : JSString) (options : Req.t)
    : t * (unit + JSString) :=
  let '(this', result) := checkWithDetails this tenantId options in
  if negb (EvalResult.allowed result)
  then (this', inr (js "Permission denied: " ++ EvalResult.reason result))
  else (this', inl tt).

(** The key of [checkMultiple]:
    [`${check.actorId}:${check.action}:${check.resource}`]. *)
Definition requestKey (check : Req.t) : JSString :=
  Req.actorId check ++ js ":" ++ actionToString (Req.action check)
    ++ js ":" ++ Req.resource check.

(** The loop of [checkMultiple], carrying the facade and the result map. *)
Fixpoint checkLoop (this : t) (tenantId : JSString) (checks : list Req.t)
    (results : gmap (list N) bool) : t * gmap (list N) bool :=
  match checks with
  | [] => (this, results)
  | c :: rest =>
      let key := requestKey c in
      let '(this', allowed) := check this tenantId c in
      checkLoop this' tenantId rest (<[key := allowed]> results)
  end.

Definition checkMultiple (this : t) (tenantId : JSString)
    (checks : list Req.t) : t * gmap (list N) bool :=
  checkLoop this tenantId checks ∅.

(** The policy management methods delegate to the engine. *)
Definition createPolicy (this : t) (nanoid : JSString) (now : Z)
    (tenantId name : JSString) (rules : list Rule.t)
    (options : option CreateOptions.t) : t * Policy.t :=
  let '(engine, policy) :=
    PolicyEngine.createPolicy (policyEngine this) nanoid now tenantId name
      rules options in
  (mk engine (auditLogger this) (defaultDeny this) (auditAll this), policy).

Definition listPolicies (this : t) (tenantId : JSString) : list Policy.t :=
  PolicyEngine.listPolicies (policyEngine this) tenantId.

Definition getPolicy (this : t) (id : JSString) : option Policy.t :=
  PolicyEngine.getPolicy (policyEngine this) id.

Definition updatePolicy (this : t) (id : JSString) (updates : Updates.t)
    : t * option Policy.t :=
  let '(engine, result) :=
    PolicyEngine.updatePolicy (policyEngine this) id updates in
  (mk engine (auditLogger this) (defaultDeny this) (auditAll this), result).

Definition deletePolicy (this : t) (id : JSString) : t * bool :=
  let '(engine, result) := PolicyEngine.deletePolicy (policyEngine this) id in
  (mk engine (auditLogger this) (defaultDeny this) (auditAll this), result).

(** [enablePolicy] and [disablePolicy]: [updatePolicy] with
    [{ enabled: true }] and [{ enabled: false }]. *)
Definition enablePolicy (this : t) (id : JSString) : t * option Policy.t :=
  updatePolicy this id (Updates.ofEnabled true).

Definition disablePolicy (this : t) (id : JSString) : t * option Policy.t :=
  updatePolicy this id (Updates.ofEnabled false).

(** [canAny]: the actions are checked one after the other, without a
    context, until one is allowed. *)
Fixpoint canAny (this : t) (tenantId actorId : JSString)
    (actorType : ActorType) (resource : JSString)
    (actions : list PermissionAction) : t * bool :=
  match actions with
  | [] => (this, false)
  | action :: rest =>
      let '(this', allowed) :=
        check this tenantId (Req.mk actorId actorType resource action None) in
      if allowed then (this', true)
      else canAny this' tenantId actorId actorType resource rest
  end.

(** [canAll]: until one is denied. *)
Fixpoint canAll (this : t) (tenantId actorId : JSString)
    (actorType : ActorType) (resource : JSString)
    (actions : list PermissionAction) : t * bool :=
  match actions with
  | [] => (this, true)
  | action :: rest =>
      let '(this', allowed) :=
        check this tenantId (Req.mk actorId actorType resource action None) in
      if negb allowed then (this', false)
      else canAll this' tenantId actorId actorType resource rest
  end.

(** [setupDefaultPolicies]; [nanoid1], [now1] and [nanoid2], [now2] are what
    [nanoid()] and [new Date()] return in the two calls of [createPolicy]. *)
Definition setupDefaultPolicies (this : t) (nanoid1 : JSString) (now1 : Z)
    (nanoid2 : JSString) (now2 : Z) (tenantId : JSString)
    : t * (Policy.t * Policy.t) :=
  let '(engine1, admin) :=
    PolicyEngine.createAdminPolicy (policyEngine this) nanoid1 now1 tenantId in
  let '(engine2, agent) :=
    PolicyEngine.createAgentPolicy engine1 nanoid2 now2 tenantId in
  (mk engine2 (auditLogger this) (defaultDeny this) (auditAll this),
   (admin, agent)).

(** The rule of [createResourcePolicy]: the ids of the actors are used as
    patterns. *)
Definition resourceRule (resource : JSString)
    (allowedActors : list (JSString * ActorType))
    (allowedActions : list PermissionAction) : Rule.t :=
  Rule.mk Allow
    (map (fun a => ActorMatcher.mk (snd a) (fst a)) allowedActors)
    [resource] allowedActions None.

Definition createResourcePolicy (this : t) (nanoid : JSString) (now : Z)
    (tenantId resource : JSString)
    (allowedActors : list (JSString * ActorType))
    (allowedActions : list PermissionAction) : t * Policy.t :=
  createPolicy this nanoid now tenantId (js "Access to " ++ resource)
    [resourceRule resource allowedActors allowedActions]
    (Some (CreateOptions.mk (Some (js "Policy for " ++ resource))
             (Some (Finite 10)) None)).

Definition roleRule (roleName : JSString) (resources : list JSString)
    (actions : list PermissionAction) : Rule.t :=
  Rule.mk Allow [ActorMatcher.mk ActorUser (js "*")] resources actions
    (Some [Cond.mk (js "role") (js "eq") (VString roleName)]).

Definition createRolePolicy (this : t) (nanoid : JSString) (now : Z)
    (tenantId roleName : JSString) (resources : list JSString)
    (actions : list PermissionAction) : t * Policy.t :=
  createPolicy this nanoid now tenantId (js "Role: " ++ roleName)
    [roleRule roleName resources actions]
    (Some (CreateOptions.mk
             (Some (js "Policy for " ++ roleName ++ js " role"))
             (Some (Finite 50)) None)).

End PermissionAPI.

(* ===================================================================== *)
(** * Part VI: definitions used to state the properties                   *)
(* ===================================================================== *)

Import PolicyEngine.

(** ** Glob patterns *)

(** The terms a glob pattern stands for: a star is "dot star", any other
    code unit is itself. *)
Definition globTerms (pattern : JSString) : list RegExp.Term :=
  map (fun c => if bool_decide (c = RegExp.star)
                then RegExp.TStar RegExp.ADot
                else RegExp.TAtom (RegExp.AChar c)) pattern.

(** What the two replacements of [matchesPattern] make of one code unit of
    the pattern. *)
Definition encodeChar (c : N) : JSString :=
  if bool_decide (c ∈ escapedChars) then [RegExp.backslash; c]
  else if bool_decide (c = RegExp.star) then [RegExp.dot; RegExp.star]
  else [c].

(** [Glob pattern subject]: the whole subject is the pattern with every
    star replaced by some run of code units, none a line terminator. *)
Inductive Glob : JSString -> JSString -> Prop :=
| Glob_nil : Glob [] []
| Glob_char c pattern subject :
    c ≠ RegExp.star ->
    Glob pattern subject ->
    Glob (c :: pattern) (c :: subject)
| Glob_star run pattern subject :
    Forall (fun c => RegExp.isLineTerminator c = false) run ->
    Glob pattern subject ->
    Glob (RegExp.star :: pattern) (run ++ subject).

(** The reading of the specification: a star stands for any run of code
    units whatever. *)
Inductive GlobAny : JSString -> JSString -> Prop :=
| GlobAny_nil : GlobAny [] []
| GlobAny_char c pattern subject :
    c ≠ RegExp.star ->
    GlobAny pattern subject ->
    GlobAny (c :: pattern) (c :: subject)
| GlobAny_star run pattern subject :
    GlobAny pattern subject ->
    GlobAny (RegExp.star :: pattern) (run ++ subject).

(** ** Conditions *)

(** The operators of the declared union. *)
Definition knownOperators : list JSString :=
  [js "eq"; js "neq"; js "in"; js "nin"; js "gt"; js "lt"; js "contains"].

(** A rule with its conditions replaced. *)
Definition withConditions (rule : Rule.t) (conditions : option (list Cond.t))
    : Rule.t :=
  Rule.mk (Rule.effect rule) (Rule.actors rule) (Rule.resources rule)
    (Rule.actions rule) conditions.

(** A rule that allows everything to everyone, under one condition. *)
Definition allowAllIf (condition : Cond.t) : Rule.t :=
  Rule.mk Allow [ActorMatcher.mk ActorAny (js "*")] [js "*"] [ActAny]
    (Some [condition]).

(** A condition with an operator outside the union. *)
Definition oddCondition : Cond.t :=
  Cond.mk (js "role") (js "matches") (VString (js "admin")).

(** The request of the end-to-end scenario of the specification. *)
Definition someRequest : Req.t :=
  Req.mk (js "u1") ActorUser (js "doc:42") ActRead None.

(** The store of the end-to-end scenario: one policy, of priority 10, that
    lets users read the documents. *)
Definition docsRule : Rule.t :=
  Rule.mk Allow [ActorMatcher.mk ActorUser (js "*")] [js "doc:*"] [ActRead] None.

Definition docsEngine : PolicyEngine.t :=
  fst (createPolicy PolicyEngine.new (js "p1") 0 (js "acme") (js "Docs")
         [docsRule] (Some (CreateOptions.mk None (Some (Finite 10)) None))).

(** ** Evaluation *)

(** The enabled policies of a tenant, in the order [evaluate] scans them. *)
Definition enabledPolicies (engine : PolicyEngine.t) (tenantId : JSString)
    : list Policy.t :=
  List.filter Policy.enabled (listPolicies engine tenantId).

(** No rule of the policies matches the request. *)
Definition noRuleMatches (policies : list Policy.t) (options : Req.t) : Prop :=
  forall policy rule,
    policy ∈ policies -> rule ∈ Policy.rules policy ->
    matchesRule rule options = false.

(** ** The facade *)

(** A logger with nothing logged. *)
Definition emptyLogger : AuditLogger.t :=
  AuditLogger.mk [] (fun n => js "audit-" ++ numberToString n) Z.of_nat.

(** A second request for the same actor, action and resource as
    [someRequest], from an agent and with a context. *)
Definition agentRequest : Req.t :=
  Req.mk (js "u1") ActorAgent (js "doc:42") ActRead
    (Some {[ js "role" := VString (js "admin") ]}).

(** A request that the store of the scenario denies. *)
Definition deleteRequest : Req.t :=
  Req.mk (js "u1") ActorUser (js "doc:42") ActDelete None.

(** The facade built with [defaultDeny] set to [flag], after the policy of
    the scenario was created through it. *)
Definition docsFacade (flag : bool) : PermissionAPI.t :=
  fst (PermissionAPI.createPolicy
         (PermissionAPI.new
            (Some (PermissionAPI.Config.mk (Some flag) None)) emptyLogger)
         (js "p1") 0 (js "acme") (js "Docs") [docsRule]
         (Some (CreateOptions.mk None (Some (Finite 10)) None))).

(** The requests of a batch that [check] logs. *)
Definition audited (api : PermissionAPI.t) (tenantId : JSString)
    (checks : list Req.t) : list Req.t :=
  List.filter
    (fun c => PermissionAPI.auditAll api
              || negb (EvalResult.allowed
                         (evaluate (PermissionAPI.policyEngine api) tenantId c)))
    checks.

(** What an audit entry says of the request it was written for. *)
Definition entrySummary (e : AuditEntry.t)
    : JSString * ActorType * JSString * JSString * AuditResult :=
  (AuditEntry.actorId e, AuditEntry.actorType e, AuditEntry.action e,
   AuditEntry.resource e, AuditEntry.result e).

Definition requestSummary (api : PermissionAPI.t) (tenantId : JSString)
    (c : Req.t) : JSString * ActorType * JSString * JSString * AuditResult :=
  (Req.actorId c, Req.actorType c, actionToString (Req.action c),
   Req.resource c,
   PermissionAPI.auditResultOf
     (evaluate (PermissionAPI.policyEngine api) tenantId c)).

(** The last request of the batch filed under [key]. *)
Definition lastWithKey (key : JSString) (checks : list Req.t) : option Req.t :=
  last (List.filter (fun c => strEq (PermissionAPI.requestKey c) key) checks).

(** ** Sorting by priority *)

(** The comparator of [listPolicies] on any record with a priority, and the
    order that a stable sort with it yields from a list that is in the order
    [R]: higher priority first, then [R]. *)
Definition byKey {A : Type} (prio : A -> JSNumber) (a b : A) : JSNumber :=
  numberSub (prio b) (prio a).

(** [a < b] on numbers other than NaN. *)
Definition numberBelow (a b : JSNumber) : Prop :=
  numberLe a b = true /\ a <> b.

Definition lexBefore {A : Type} (prio : A -> JSNumber) (R : A -> A -> Prop)
    (a b : A) : Prop :=
  numberBelow (prio b) (prio a) \/ (prio a = prio b /\ R a b).

(** ** The policy store *)

(** The states of the store that calls within the declared types reach.
    [Reach log engine]: [engine] is reached from the empty store by calls
    of [createPolicy], [deletePolicy] and [updatePolicy], the updates
    having no other keys than the declared type has; [log] lists the
    identifiers that [nanoid()] returned, one per call of [createPolicy],
    oldest first.  An identifier returned by [nanoid()] is not the
    identifier of a stored policy. *)
Inductive Reach : list JSString -> PolicyEngine.t -> Prop :=
| Reach_new : Reach [] PolicyEngine.new
| Reach_create log engine nanoid now tenantId name rules options :
    Reach log engine ->
    policies engine !! nanoid = None ->
    Reach (log ++ [nanoid])
      (fst (createPolicy engine nanoid now tenantId name rules options))
| Reach_update log engine id updates :
    Reach log engine ->
    Updates.declared updates ->
    Reach log (fst (updatePolicy engine id updates))
| Reach_delete log engine id :
    Reach log engine ->
    Reach log (fst (deletePolicy engine id)).

(** The position in the log of the call that created the policy stored
    under [id]: the last call of [createPolicy] that received [id]. *)
Fixpoint birthFrom (i : nat) (log : list JSString) (id : JSString)
    : option nat :=
  match log with
  | [] => None
  | x :: log' =>
      match birthFrom (S i) log' id with
      | Some j => Some j
      | None => if bool_decide (x = id) then Some i else None
      end
  end.

Definition birth (log : list JSString) (id : JSString) : option nat :=
  birthFrom 0 log id.

(** [a] was created before [b]. *)
Definition createdBefore (log : list JSString) (a b : JSString) : Prop :=
  exists i j, birth log a = Some i /\ birth log b = Some j /\ (i < j)%nat.

(** A store with three policies of one tenant, created in the order "a",
    "b", "c" with the priorities 5, 10 and 5, and one policy of another
    tenant. *)
Definition priorityOption (priority : Z) : option CreateOptions.t :=
  Some (CreateOptions.mk None (Some (Finite priority)) None).

Definition engineA : PolicyEngine.t :=
  fst (createPolicy PolicyEngine.new (js "a") 1 (js "acme") (js "A")
         [docsRule] (priorityOption 5)).

Definition engineAB : PolicyEngine.t :=
  fst (createPolicy engineA (js "b") 2 (js "acme") (js "B")
         [docsRule] (priorityOption 10)).

Definition engineABC : PolicyEngine.t :=
  fst (createPolicy engineAB (js "c") 3 (js "acme") (js "C")
         [docsRule] (priorityOption 5)).

Definition engineABCD : PolicyEngine.t :=
  fst (createPolicy engineABC (js "d") 4 (js "globex") (js "D")
         [docsRule] (priorityOption 7)).

(** No policy in the listing of the tenant has the priority NaN. *)
Definition noNaNPriority (engine : PolicyEngine.t) (tenantId : JSString)
    : Prop :=
  forall p, p ∈ listPolicies engine tenantId -> Policy.priority p <> NaN.

(** A store with three enabled policies of one tenant, created in the
    order "Low", "High", "Top" with the priorities 1, 100 and 200.  Of
    [someRequest], "Top" has no rule that matches, the second rule of
    "High" denies it and the rule of "Low" allows it. *)
Definition tasksRule : Rule.t :=
  Rule.mk Allow [ActorMatcher.mk ActorUser (js "*")] [js "task:*"] [ActRead]
    None.

Definition denyDocsRule : Rule.t :=
  Rule.mk Deny [ActorMatcher.mk ActorUser (js "*")] [js "doc:*"] [ActAny] None.

Definition agentsRule : Rule.t :=
  Rule.mk Allow [ActorMatcher.mk ActorAgent (js "*")] [js "*"] [ActAny] None.

Definition lowPolicy : Policy.t :=
  Policy.mk (js "p1") (js "acme") (js "Low") None [docsRule] (Finite 1) true 1.

Definition highPolicy : Policy.t :=
  Policy.mk (js "p2") (js "acme") (js "High") None [tasksRule; denyDocsRule]
    (Finite 100) true 2.

Definition topPolicy : Policy.t :=
  Policy.mk (js "p3") (js "acme") (js "Top") None [agentsRule] (Finite 200)
    true 3.

Definition scanEngine : PolicyEngine.t :=
  let engine1 :=
    fst (createPolicy PolicyEngine.new (js "p1") 1 (js "acme") (js "Low")
           [docsRule] (priorityOption 1)) in
  let engine2 :=
    fst (createPolicy engine1 (js "p2") 2 (js "acme") (js "High")
           [tasksRule; denyDocsRule] (priorityOption 100)) in
  fst (createPolicy engine2 (js "p3") 3 (js "acme") (js "Top")
         [agentsRule] (priorityOption 200)).

(** A store with a priority that is NaN: the policies "A", "B" and "C" of
    one tenant, created in this order with the priorities 1, NaN and 2.
    "A" allows [someRequest] and "C" denies it. *)
Definition nanEngine : PolicyEngine.t :=
  let engine1 :=
    fst (createPolicy PolicyEngine.new (js "a") 1 (js "acme") (js "A")
           [docsRule] (priorityOption 1)) in
  let engine2 :=
    fst (createPolicy engine1 (js "b") 2 (js "acme") (js "B")
           [agentsRule] (Some (CreateOptions.mk None (Some NaN) None))) in
  fst (createPolicy engine2 (js "c") 3 (js "acme") (js "C")
         [denyDocsRule] (priorityOption 2)).

(** The policies of the tenant "acme" in [engineABCD]. *)
Definition policyA : Policy.t :=
  Policy.mk (js "a") (js "acme") (js "A") None [docsRule] (Finite 5) true 1.

Definition policyB : Policy.t :=
  Policy.mk (js "b") (js "acme") (js "B") None [docsRule] (Finite 10) true 2.

Definition policyC : Policy.t :=
  Policy.mk (js "c") (js "acme") (js "C") None [docsRule] (Finite 5) true 3.

(** An update with a key that the declared type leaves out: the object
    [{ name: 'A2', tenantId: 'globex' }], and the store after
    [updatePolicy('a', ...)] with it on the store of the one policy "a". *)
Definition movingUpdate : Updates.t :=
  Updates.mk None (Some (js "globex")) (Some (js "A2")) None None None None
    None.

Definition movedEngine : PolicyEngine.t :=
  fst (updatePolicy engineA (js "a") movingUpdate).

(** The order of [listPolicies]: higher priority first and, at equal
    priority, the policy created first. *)
Definition listedBefore (log : list JSString) (p q : Policy.t) : Prop :=
  numberBelow (Policy.priority q) (Policy.priority p)
  \/ (Policy.priority p = Policy.priority q
      /\ createdBefore log (Policy.id p) (Policy.id q)).

(** What holds of every such state of the store: a policy is stored under its
    own id and indexed under its own tenant, the index of a tenant holds
    the ids of stored policies of that tenant only, and it lists them in
    the order of their creation. *)
Record StoreInv (log : list JSString) (engine : PolicyEngine.t) : Prop := {
  inv_id : forall id p,
    policies engine !! id = Some p -> Policy.id p = id;
  inv_indexed : forall id p,
    policies engine !! id = Some p ->
    exists tenantSet,
      tenantPolicies engine !! Policy.tenantId p = Some tenantSet
      /\ id ∈ tenantSet;
  inv_stored : forall tenantId tenantSet id,
    tenantPolicies engine !! tenantId = Some tenantSet ->
    id ∈ tenantSet ->
    exists p, policies engine !! id = Some p /\ Policy.tenantId p = tenantId;
  inv_born : forall tenantId tenantSet id,
    tenantPolicies engine !! tenantId = Some tenantSet ->
    id ∈ tenantSet ->
    is_Some (birth log id);
  inv_order : forall tenantId tenantSet,
    tenantPolicies engine !! tenantId = Some tenantSet ->
    StronglySorted (createdBefore log) tenantSet
}.

(** ** Further definitions for the store, the matcher and the facade *)

(** No code unit of the string is a line terminator. *)
Definition noLineTerminator (s : JSString) : Prop :=
  Forall (fun c => RegExp.isLineTerminator c = false) s.

(** The elements of a list up to and including the first that satisfies
    [f]: the turns that a loop makes when it returns at such an element. *)
Fixpoint upToFirst {A : Type} (f : A -> bool) (l : list A) : list A :=
  match l with
  | [] => []
  | x :: l' => if f x then [x] else x :: upToFirst f l'
  end.

(** The request that [canAny] and [canAll] build for an action. *)
Definition actionRequest (actorId : JSString) (actorType : ActorType)
    (resource : JSString) (action : PermissionAction) : Req.t :=
  Req.mk actorId actorType resource action None.

(** The answer of the engine to a request. *)
Definition allows (engine : PolicyEngine.t) (tenantId : JSString)
    (options : Req.t) : bool :=
  EvalResult.allowed (evaluate engine tenantId options).

(** The facade after the checks of a list of requests, in order. *)
Definition afterChecks (api : PermissionAPI.t) (tenantId : JSString)
    (checks : list Req.t) : PermissionAPI.t :=
  foldl (fun a c => fst (PermissionAPI.check a tenantId c)) api checks.

(** The policies that [createAdminPolicy] and [createAgentPolicy] store. *)
Definition adminPolicy (nanoid : JSString) (now : Z) (tenantId : JSString)
    : Policy.t :=
  Policy.mk nanoid tenantId (js "Admin Full Access")
    (Some (js "Full access for admin users")) [adminRule] (Finite 100) true now.

Definition agentPolicy (nanoid : JSString) (now : Z) (tenantId : JSString)
    : Policy.t :=
  Policy.mk nanoid tenantId (js "Agent Default Access")
    (Some (js "Default access for agents")) [agentAllowRule; agentDenyRule]
    (Finite 50) true now.

(** The facade of a new client: [setupDefaultPolicies] on a new facade. *)
Definition defaultFacade (config : option PermissionAPI.Config.t)
    (logger : AuditLogger.t) (nanoid1 : JSString) (now1 : Z)
    (nanoid2 : JSString) (now2 : Z) (tenantId : JSString) : PermissionAPI.t :=
  fst (PermissionAPI.setupDefaultPolicies (PermissionAPI.new config logger)
         nanoid1 now1 nanoid2 now2 tenantId).

(** The context of a user with a role. *)
Definition hasRole (options : Req.t) (role : JSString) : Prop :=
  exists context,
    Req.context options = Some context
    /\ context !! js "role" = Some (VString role).

(** The policies of a list that belong to a tenant. *)
Definition ofTenant (tenantId : JSString) (l : list Policy.t) : list Policy.t :=
  filter (fun p => Policy.tenantId p = tenantId) l.

(** A policy with the [enabled] flag replaced. *)
Definition withEnabled (policy : Policy.t) (flag : bool) : Policy.t :=
  Policy.mk (Policy.id policy) (Policy.tenantId policy) (Policy.name policy)
    (Policy.description policy) (Policy.rules policy)
    (Policy.priority policy) flag (Policy.createdAt policy).

(** The beginnings of the resources that the agent policy opens. *)
Definition agentPrefixes : list JSString :=
  [js "task:"; js "memory:"; js "vault:"].

(** The actions that the agent policy allows on them. *)
Definition agentActions : list PermissionAction :=
  [ActRead; ActCreate; ActUpdate; ActExecute].

(** Two identifiers and times for the examples. *)
Definition exampleFacade : PermissionAPI.t :=
  defaultFacade None emptyLogger (js "p1") 1 (js "p2") 2 (js "acme").

Definition adminRequest : Req.t :=
  Req.mk (js "u1") ActorUser (js "policy:7") ActDelete
    (Some {[ js "role" := VString (js "admin") ]}).

Definition agentTaskRequest : Req.t :=
  Req.mk (js "bot") ActorAgent (js "task:42") ActExecute None.

(** A facade with one policy: what a constructor of policies makes of a
    new facade. *)
Definition readOnlyEngine (nanoid : JSString) (now : Z)
    (tenantId name : JSString) : PolicyEngine.t :=
  fst (createReadOnlyPolicy PolicyEngine.new nanoid now tenantId name).

Definition resourceEngine (nanoid : JSString) (now : Z)
    (tenantId resource : JSString)
    (allowedActors : list (JSString * ActorType))
    (allowedActions : list PermissionAction) : PolicyEngine.t :=
  PermissionAPI.policyEngine
    (fst (PermissionAPI.createResourcePolicy
            (PermissionAPI.new None emptyLogger) nanoid now tenantId resource
            allowedActors allowedActions)).

Definition roleEngine (nanoid : JSString) (now : Z)
    (tenantId roleName : JSString) (resources : list JSString)
    (actions : list PermissionAction) : PolicyEngine.t :=
  PermissionAPI.policyEngine
    (fst (PermissionAPI.createRolePolicy
            (PermissionAPI.new None emptyLogger) nanoid now tenantId roleName
            resources actions)).

(** A value that is not an array. *)
Definition isArray (v : JSValue) : bool :=
  match v with VArray _ _ => true | _ => false end.

(* ===================================================================== *)
(** * Part VII: properties                                                *)
(* ===================================================================== *)

(** Closed and decidable goals, [P] or [~ P], are settled by evaluating
    their decision procedure. *)
Ltac by_evaluation :=
  lazymatch goal with
  | |- ~ _ =>
      let H := fresh in
      intros H; apply (bool_decide_pack _) in H; vm_compute in H; exact H
  | |- _ => apply (bool_decide_unpack _); vm_compute; exact I
  end.

(** ** Pattern matching *)

Section Patterns.

Import RegExp.

Lemma escaped_cases (c : N) :
  c ∈ escapedChars ->
  c ∈ [46; 43; 63; 94; 36; 123; 125; 40; 41; 124; 91; 93; 92]%N.
Proof. intros H. exact H. Qed.

Lemma escaped_is_syntax (c : N) :
  c ∈ escapedChars -> isSyntaxChar c = true /\ c ≠ star.
Proof.
  intros H%escaped_cases.
  repeat (apply elem_of_cons in H as [-> | H]; [split; [reflexivity | discriminate] |]).
  by apply elem_of_nil in H.
Qed.

Lemma plain_char (c : N) :
  c ∉ escapedChars -> c ≠ star ->
  bool_decide (c = backslash) = false /\ bool_decide (c = caret) = false /\
  bool_decide (c = dollar) = false /\ bool_decide (c = dot) = false /\
  isSyntaxChar c = false.
Proof.
  intros Hesc Hstar.
  assert (Hsyn : c ∉ syntaxChars).
  { intros Hin.
    change syntaxChars
      with [94; 36; 92; 46; 42; 43; 63; 40; 41; 91; 93; 123; 125; 124]%N in Hin.
    repeat (apply elem_of_cons in Hin as [-> | Hin];
            [first [by destruct Hstar
                   | destruct Hesc; by_evaluation] |]).
    by apply elem_of_nil in Hin. }
  repeat split;
    try (apply bool_decide_eq_false; intros ->; apply Hesc;
         by_evaluation).
  unfold isSyntaxChar. by apply bool_decide_eq_false.
Qed.

Lemma encode_cons (c : N) (pattern : JSString) :
  starToDotStar (escapeSpecial (c :: pattern))
  = encodeChar c ++ starToDotStar (escapeSpecial pattern).
Proof.
  unfold starToDotStar, escapeSpecial, encodeChar. simpl.
  rewrite flat_map_app. f_equal.
  case_bool_decide as Hesc.
  - destruct (escaped_is_syntax c Hesc) as [_ Hstar]. simpl.
    rewrite (bool_decide_eq_false_2 _ Hstar). reflexivity.
  - simpl. case_bool_decide; reflexivity.
Qed.

(** The regex source never has a star right after an escaped or plain
    character: every star of the source comes with its own dot. *)
Lemma source_head (pattern : JSString) :
  exists q rest,
    starToDotStar (escapeSpecial pattern) ++ js "$" = q :: rest /\ q ≠ star.
Proof.
  destruct pattern as [| c pattern].
  - exists dollar, []. split; [reflexivity | discriminate].
  - rewrite encode_cons. unfold encodeChar.
    case_bool_decide as Hesc; [| case_bool_decide as Hstar].
    + eexists _, _. split; [reflexivity | discriminate].
    + eexists _, _. split; [reflexivity | discriminate].
    + eexists _, _. split; [reflexivity | assumption].
Qed.

Lemma parse_caret (rest : JSString) :
  parse (caret :: rest) = cons TBegin <$> parse rest.
Proof. reflexivity. Qed.

Lemma parse_dot_star (rest : JSString) :
  parse (dot :: star :: rest) = cons (TStar ADot) <$> parse rest.
Proof. reflexivity. Qed.

Lemma parse_escaped (e q : N) (rest : JSString) :
  isSyntaxChar e = true -> q ≠ star ->
  parse (backslash :: e :: q :: rest)
  = cons (TAtom (AChar e)) <$> parse (q :: rest).
Proof.
  intros He Hq. cbn [parse]. rewrite He.
  rewrite (bool_decide_eq_false_2 _ Hq). reflexivity.
Qed.

Lemma parse_plain (c q : N) (rest : JSString) :
  c ∉ escapedChars -> c ≠ star -> q ≠ star ->
  parse (c :: q :: rest) = cons (TAtom (AChar c)) <$> parse (q :: rest).
Proof.
  intros Hesc Hc Hq.
  destruct (plain_char c Hesc Hc) as (H1 & H2 & H3 & H4 & H5).
  cbn [parse]. rewrite H1, H2, H3, H4, H5.
  rewrite (bool_decide_eq_false_2 _ Hq). reflexivity.
Qed.

(** The parser reads the source back as the terms of the glob. *)
Lemma parse_glob (pattern : JSString) :
  parse (starToDotStar (escapeSpecial pattern) ++ js "$")
  = Some (globTerms pattern ++ [TEnd]).
Proof.
  induction pattern as [| c pattern IH]; [reflexivity |].
  rewrite encode_cons.
  destruct (source_head pattern) as (q & rest & Hsrc & Hq).
  unfold encodeChar.
  case_bool_decide as Hesc; [| case_bool_decide as Hstar].
  - destruct (escaped_is_syntax c Hesc) as [Hsyn Hstar].
    cbn [app]. rewrite Hsrc, parse_escaped by assumption.
    rewrite <- Hsrc, IH. cbn [globTerms map].
    rewrite (bool_decide_eq_false_2 _ Hstar). reflexivity.
  - subst c. cbn [app]. rewrite parse_dot_star, IH. reflexivity.
  - cbn [app]. rewrite Hsrc, parse_plain by assumption.
    rewrite <- Hsrc, IH. cbn [globTerms map].
    rewrite (bool_decide_eq_false_2 _ Hstar). reflexivity.
Qed.

(** [new RegExp] never rejects the source that [matchesPattern] builds. *)
Lemma regex_always_compiles (pattern : JSString) :
  compile (js "^" ++ starToDotStar (escapeSpecial pattern) ++ js "$")
  = Some (TBegin :: globTerms pattern ++ [TEnd]).
Proof.
  unfold compile. change (js "^") with [caret]. cbn [app].
  rewrite parse_caret, parse_glob. reflexivity.
Qed.

Lemma matchTerms_star (a : Atom) (ts : list Term) (b : bool) (s : JSString) :
  matchTerms (TStar a :: ts) b s
  = match s with
    | c :: s' =>
        (atomMatches a c && matchTerms (TStar a :: ts) false s')
        || matchTerms ts b s
    | [] => matchTerms ts b s
    end.
Proof. destruct s; reflexivity. Qed.

Lemma Glob_star_inv (pattern subject : JSString) :
  Glob (star :: pattern) subject ->
  exists run rest,
    subject = run ++ rest
    /\ Forall (fun c => isLineTerminator c = false) run
    /\ Glob pattern rest.
Proof.
  inversion 1; subst; [congruence | eauto].
Qed.

Lemma star_matches (pattern : JSString) :
  (forall b s, matchTerms (globTerms pattern ++ [TEnd]) b s = true
               <-> Glob pattern s) ->
  forall s b,
    matchTerms (TStar ADot :: globTerms pattern ++ [TEnd]) b s = true
    <-> Glob (star :: pattern) s.
Proof.
  intros IH. induction s as [| c s IHs]; intros b; rewrite matchTerms_star.
  - rewrite IH. split.
    + intros H. apply (Glob_star [] pattern []); [constructor | exact H].
    + intros (run & rest & Heq & _ & H)%Glob_star_inv.
      symmetry in Heq. apply app_eq_nil in Heq as [_ ->]. exact H.
  - rewrite orb_true_iff, andb_true_iff, IHs, IH. cbn [atomMatches].
    rewrite negb_true_iff. split.
    + intros [[Hc (run & rest & -> & Hrun & H)%Glob_star_inv] | H].
      * apply (Glob_star (c :: run)); [constructor |]; assumption.
      * apply (Glob_star [] pattern (c :: s)); [constructor | exact H].
    + intros (run & rest & Heq & Hrun & H)%Glob_star_inv.
      destruct run as [| c' run]; cbn [app] in Heq.
      * right. subst rest. exact H.
      * injection Heq as <- ->. inversion Hrun; subst. left. split; [assumption |].
        by apply Glob_star.
Qed.

(** The matcher decides the glob relation. *)
Lemma matchTerms_glob (pattern : JSString) :
  forall b s,
    matchTerms (globTerms pattern ++ [TEnd]) b s = true <-> Glob pattern s.
Proof.
  induction pattern as [| c pattern IH]; intros b s.
  - destruct s; cbn; split; try done; [constructor | inversion 1].
  - cbn [globTerms map app]. case_bool_decide as Hstar.
    + subst c. apply star_matches, IH.
    + destruct s as [| c' s]; cbn [matchTerms atomMatches].
      * split; [done |]. inversion 1; subst; congruence.
      * rewrite andb_true_iff, bool_decide_eq_true, IH. split.
        -- intros [-> H]. by constructor.
        -- inversion 1; subst; [done | congruence].
Qed.

Lemma search_begin_false (ts : list Term) (s : JSString) :
  search (TBegin :: ts) false s = false.
Proof. induction s as [| c s IH]; cbn; [reflexivity | exact IH]. Qed.

Lemma test_anchored (ts : list Term) (s : JSString) :
  test (TBegin :: ts) s = matchTerms ts true s.
Proof.
  unfold test. destruct s as [| c s]; cbn [search].
  - cbn. by rewrite orb_false_r.
  - rewrite search_begin_false, orb_false_r. reflexivity.
Qed.

(** What [matchesPattern] computes: the literal star matches everything;
    any other pattern matches the subjects of its glob, in which a star
    stands for a run of code units without line terminators. *)
Theorem matchesPattern_spec (pattern value : JSString) :
  matchesPattern pattern value = true
  <-> pattern = js "*" \/ Glob pattern value.
Proof.
  unfold matchesPattern, strEq. case_bool_decide as Hstar.
  - split; [by left | done].
  - rewrite regex_always_compiles, test_anchored, matchTerms_glob.
    split; [by right | by intros [? | ?]].
Qed.

Lemma matchesPattern_star_literal (value : JSString) :
  matchesPattern (js "*") value = true.
Proof. reflexivity. Qed.

Lemma Glob_GlobAny (pattern value : JSString) :
  Glob pattern value -> GlobAny pattern value.
Proof. induction 1; constructor; assumption. Qed.

Lemma GlobAny_Glob (pattern value : JSString) :
  Forall (fun c => isLineTerminator c = false) value ->
  GlobAny pattern value -> Glob pattern value.
Proof.
  intros Hvalue H. induction H as [| c p s Hc H IH | run p s H IH].
  - constructor.
  - inversion Hvalue; subst. constructor; auto.
  - apply Forall_app in Hvalue as [Hrun Hs]. constructor; auto.
Qed.

(** The matches and mismatches that the specification lists for
    ["task:*"]. *)
Lemma matchesPattern_examples :
  matchesPattern (js "task:*") (js "task:") = true
  /\ matchesPattern (js "task:*") (js "task:123") = true
  /\ matchesPattern (js "task:*") (js "task:123:sub") = true
  /\ matchesPattern (js "task:*") (js "tasks:1") = false
  /\ matchesPattern (js "task:*") (js "xtask:1") = false
  /\ matchesPattern (js "task:*") (js "task") = false
  /\ matchesPattern (js "a.c") (js "abc") = false
  /\ matchesPattern (js "a.c") (js "a.c") = true.
Proof. vm_compute. repeat split. Qed.

(** C4: [matchesPattern] is to match the whole subject with every star
    standing for any run of characters.  The subject "task:1", line feed,
    "2" is "task:" followed by a run of characters, so the pattern
    "task:*" should match it; the code answers false, because the dot of
    the regular expression that replaces the star matches no line
    terminator. *)
Theorem matchesPattern_line_feed :
  GlobAny (js "task:*") (js "task:1" ++ [10%N] ++ js "2")
  /\ matchesPattern (js "task:*") (js "task:1" ++ [10%N] ++ js "2") = false.
Proof.
  split; [| vm_compute; reflexivity].
  change (js "task:*") with (js "task:" ++ [star]).
  change (js "task:1" ++ [10%N] ++ js "2")
    with (js "task:" ++ (js "1" ++ [10%N] ++ js "2") ++ []).
  cbn [js list_ascii_of_string map app].
  repeat (apply GlobAny_char; [discriminate |]).
  apply (GlobAny_star (js "1" ++ [10%N] ++ js "2") [] []), GlobAny_nil.
Qed.

End Patterns.

(** ** Conditions *)

Section Conditions.

Lemma conditionPasses_unknown (condition : Cond.t) (context : Context) :
  Cond.operator condition ∉ knownOperators ->
  conditionPasses condition context = true.
Proof.
  intros Hop. unfold conditionPasses, strEq.
  repeat (case_bool_decide;
          [exfalso; apply Hop;
           match goal with H : Cond.operator _ = _ |- _ => rewrite H end;
           by_evaluation |]).
  reflexivity.
Qed.

Lemma matchesConditions_app (before after : list Cond.t) (context : Context) :
  matchesConditions (before ++ after) context
  = matchesConditions before context && matchesConditions after context.
Proof.
  induction before as [| c before IH]; [reflexivity |].
  cbn [app matchesConditions]. rewrite IH. by destruct (conditionPasses c context).
Qed.

(** The conditions of a rule are consulted only when there is one. *)
Lemma matchesRule_conditions (rule : Rule.t) (options : Req.t) :
  matchesRule rule options
  = matchesActor (Rule.actors rule) (Req.actorType options) (Req.actorId options)
    && matchesResource (Rule.resources rule) (Req.resource options)
    && matchesAction (Rule.actions rule) (Req.action options)
    && matchesConditions (default [] (Rule.conditions rule))
         (default ∅ (Req.context options)).
Proof.
  unfold matchesRule. set (context := default ∅ (Req.context options)).
  destruct (matchesActor _ _ _); cbn [negb andb]; [| reflexivity].
  destruct (matchesResource _ _); cbn [negb andb]; [| reflexivity].
  destruct (matchesAction _ _); cbn [negb andb]; [| reflexivity].
  destruct (Rule.conditions rule) as [[| c cs] |];
    cbn [default from_option id]; try reflexivity.
  destruct (matchesConditions (c :: cs) context); reflexivity.
Qed.

(** C2, as the code has it: a condition whose operator is none of the
    seven is skipped.  Whatever the context, the conditions hold exactly
    when the others hold, and a rule carrying such a condition matches
    exactly the requests that it matches without the condition. *)
Theorem unknown_operator_is_skipped
    (rule : Rule.t) (before after : list Cond.t) (condition : Cond.t)
    (options : Req.t) :
  Cond.operator condition ∉ knownOperators ->
  (forall context : Context,
      matchesConditions (before ++ condition :: after) context
      = matchesConditions (before ++ after) context)
  /\ matchesRule (withConditions rule (Some (before ++ condition :: after)))
       options
     = matchesRule (withConditions rule (Some (before ++ after))) options.
Proof.
  intros Hop.
  assert (Hskip : forall context : Context,
             matchesConditions (before ++ condition :: after) context
             = matchesConditions (before ++ after) context).
  { intros context. rewrite !matchesConditions_app. cbn [matchesConditions].
    by rewrite conditionPasses_unknown. }
  split; [exact Hskip |].
  rewrite !matchesRule_conditions. cbn [withConditions Rule.actors
    Rule.resources Rule.actions Rule.conditions default].
  by rewrite Hskip.
Qed.

Lemma unknown_operator_is_skipped_witness :
  (Cond.operator oddCondition ∉ knownOperators)
  /\ ((forall context : Context,
         matchesConditions ([] ++ oddCondition :: []) context
         = matchesConditions ([] ++ []) context)
      /\ matchesRule
           (withConditions (allowAllIf oddCondition)
              (Some ([] ++ oddCondition :: [])))
           someRequest
         = matchesRule
             (withConditions (allowAllIf oddCondition) (Some ([] ++ [])))
             someRequest).
Proof.
  assert (Hop : Cond.operator oddCondition ∉ knownOperators).
  { by_evaluation. }
  split; [exact Hop |].
  exact (unknown_operator_is_skipped (allowAllIf oddCondition) [] []
           oddCondition someRequest Hop).
Defined.

(** C2, as stated, fails: the operator "matches" is none of the seven,
    yet the condition holds in the empty context and the rule that
    carries it matches the request. *)
Lemma unknown_operator_matches :
  (Cond.operator oddCondition ∉ knownOperators)
  /\ matchesConditions [oddCondition] ∅ = true
  /\ matchesRule (allowAllIf oddCondition) someRequest = true.
Proof.
  split; [| split; vm_compute; reflexivity].
  by_evaluation.
Qed.

(** What a [gt] condition computes. *)
Lemma gt_condition_spec (field : JSString) (bound : JSValue) (context : Context) :
  conditionPasses (Cond.mk field (js "gt") bound) context = true
  <-> exists v cv,
        contextGet context field = VNumber v /\ bound = VNumber cv
        /\ numLe v cv = false.
Proof.
  unfold conditionPasses. cbn [Cond.field Cond.operator Cond.value].
  change (strEq (js "gt") (js "eq")) with false.
  change (strEq (js "gt") (js "neq")) with false.
  change (strEq (js "gt") (js "in")) with false.
  change (strEq (js "gt") (js "nin")) with false.
  change (strEq (js "gt") (js "gt")) with true.
  cbv iota.
  destruct (contextGet context field) as [| | | v | | | | |];
    try (split; [discriminate | intros (? & ? & ? & _); discriminate]).
  destruct bound as [| | | cv | | | | |];
    try (split; [discriminate | intros (? & ? & _ & ? & _); discriminate]).
  rewrite negb_true_iff. split; [eauto |].
  intros (? & ? & [= ->] & [= ->] & H). exact H.
Qed.

Lemma lt_condition_spec (field : JSString) (bound : JSValue) (context : Context) :
  conditionPasses (Cond.mk field (js "lt") bound) context = true
  <-> exists v cv,
        contextGet context field = VNumber v /\ bound = VNumber cv
        /\ numGe v cv = false.
Proof.
  unfold conditionPasses. cbn [Cond.field Cond.operator Cond.value].
  change (strEq (js "lt") (js "eq")) with false.
  change (strEq (js "lt") (js "neq")) with false.
  change (strEq (js "lt") (js "in")) with false.
  change (strEq (js "lt") (js "nin")) with false.
  change (strEq (js "lt") (js "gt")) with false.
  change (strEq (js "lt") (js "lt")) with true.
  cbv iota.
  destruct (contextGet context field) as [| | | v | | | | |];
    try (split; [discriminate | intros (? & ? & ? & _); discriminate]).
  destruct bound as [| | | cv | | | | |];
    try (split; [discriminate | intros (? & ? & _ & ? & _); discriminate]).
  rewrite negb_true_iff. split; [eauto |].
  intros (? & ? & [= ->] & [= ->] & H). exact H.
Qed.

(** The cases that the specification lists for [gt]: a score of 5 fails
    the bound 10, a score of 15 passes it, and a context without the field
    or with a string in it fails. *)
Lemma gt_condition_examples :
  let condition := Cond.mk (js "score") (js "gt") (VNumber 10%float) in
  matchesConditions [condition] {[ js "score" := VNumber 5%float ]} = false
  /\ matchesConditions [condition] {[ js "score" := VNumber 15%float ]} = true
  /\ matchesConditions [condition] ∅ = false
  /\ matchesConditions [condition] {[ js "score" := VString (js "15") ]} = false.
Proof. vm_compute. repeat split. Qed.

(** C5: a [gt] condition is to match only when the strict comparison
    holds.  With the bound 10 and the context value NaN, both are numbers
    and [NaN > 10] is false, but the code tests [NaN <= 10], which is
    false as well, and lets the condition pass; the same happens with
    [lt]. *)
Theorem gt_condition_nan :
  numGt nan 10%float = false
  /\ matchesConditions [Cond.mk (js "score") (js "gt") (VNumber 10%float)]
       {[ js "score" := VNumber nan ]} = true
  /\ numLt nan 10%float = false
  /\ matchesConditions [Cond.mk (js "score") (js "lt") (VNumber 10%float)]
       {[ js "score" := VNumber nan ]} = true.
Proof. vm_compute. repeat split. Qed.

End Conditions.

(** ** Numbers and sorting *)

Section Numbers.

Lemma numberSub_positive (a b : JSNumber) :
  isPositive (numberSub b a) = true <-> numberBelow a b.
Proof.
  unfold numberBelow.
  destruct a as [| | x |], b as [| | y |]; cbn;
    rewrite ?Z.ltb_lt, ?Z.leb_le; split; try done; try (by intros [? ?]).
  - intros H. split; [lia | intros [= ->]; lia].
  - intros [H Hne]. assert (x <> y) by congruence. lia.
Qed.

Lemma numberLe_total (a b : JSNumber) :
  a <> NaN -> b <> NaN -> numberBelow a b \/ numberLe b a = true.
Proof.
  unfold numberBelow.
  destruct a as [| | x |], b as [| | y |]; cbn; intros Ha Hb;
    try done; try (by right); try (by left).
  rewrite !Z.leb_le. destruct (Z.le_gt_cases y x); [by right | left].
  split; [lia | intros [= ->]; lia].
Qed.

Lemma numberLe_cases (a b : JSNumber) :
  numberLe a b = true -> a = b \/ numberBelow a b.
Proof.
  unfold numberBelow.
  destruct a as [| | x |], b as [| | y |]; cbn; intros H;
    try done; try (by left); try (by right).
  destruct (Z.eq_dec x y) as [-> | Hne]; [by left | right].
  split; [done | congruence].
Qed.

Lemma numberLe_refl (a : JSNumber) : a <> NaN -> numberLe a a = true.
Proof. destruct a; try done. intros _. apply Z.leb_refl. Qed.

Lemma numberLe_trans (a b c : JSNumber) :
  numberLe a b = true -> numberLe b c = true -> numberLe a c = true.
Proof.
  destruct a as [| | x |], b as [| | y |], c as [| | z |]; cbn; try done.
  rewrite !Z.leb_le. lia.
Qed.

Lemma numberBelow_le (a b : JSNumber) : numberBelow a b -> numberLe a b = true.
Proof. by intros [? ?]. Qed.

Lemma numberBelow_irrefl (a : JSNumber) : ~ numberBelow a a.
Proof. by intros [? ?]. Qed.

End Numbers.

Section Sorting.

Context {A : Type} (prio : A -> JSNumber) (R : A -> A -> Prop).

Lemma insertSorted_perm (x : A) (l : list A) :
  insertSorted (byKey prio) x l ≡ₚ x :: l.
Proof.
  induction l as [| y l IH]; [reflexivity |].
  cbn [insertSorted]. destruct (isPositive (byKey prio x y)); [| reflexivity].
  rewrite IH. apply perm_swap.
Qed.

Lemma sort_perm (l : list A) : sort (byKey prio) l ≡ₚ l.
Proof.
  induction l as [| x l IH]; [reflexivity |].
  cbn [sort]. by rewrite insertSorted_perm, IH.
Qed.

(** Inserting an element that precedes, in the order [R], all the
    elements of a list sorted by priority and then by [R], when no
    priority is NaN. *)
Lemma insertSorted_sorted (x : A) (l : list A) :
  prio x <> NaN ->
  Forall (fun y => prio y <> NaN) l ->
  StronglySorted (lexBefore prio R) l ->
  Forall (R x) l ->
  StronglySorted (lexBefore prio R) (insertSorted (byKey prio) x l).
Proof.
  intros Hnx.
  induction l as [| y l IH]; intros Hnl Hsorted Hx.
  - repeat constructor.
  - apply StronglySorted_inv in Hsorted as [Hl Hy].
    apply Forall_cons in Hx as [Hxy Hxl].
    apply Forall_cons in Hnl as [Hny Hnl].
    cbn [insertSorted]. unfold byKey at 1.
    destruct (isPositive (numberSub (prio y) (prio x))) eqn:Hpos.
    + apply numberSub_positive in Hpos.
      constructor; [by apply IH |].
      rewrite insertSorted_perm. constructor; [| exact Hy].
      by left.
    + assert (Hle : numberLe (prio y) (prio x) = true).
      { destruct (numberLe_total (prio x) (prio y) Hnx Hny) as [Hlt | Hle];
          [| done].
        apply numberSub_positive in Hlt. congruence. }
      assert (Hlex : forall z, numberLe (prio z) (prio x) = true -> R x z ->
                lexBefore prio R x z).
      { intros z Hz HR. destruct (numberLe_cases _ _ Hz) as [Heq | Hlt];
          [by right | by left]. }
      constructor; [by constructor |].
      constructor; [by apply Hlex |].
      rewrite Forall_forall in Hy, Hxl. rewrite Forall_forall.
      intros z Hz. apply Hlex; [| by apply Hxl].
      apply (numberLe_trans _ (prio y)); [| done].
      destruct (Hy z Hz) as [Hlt | [-> _]]; [by apply numberBelow_le |].
      rewrite Forall_forall in Hnl. by apply numberLe_refl, Hnl.
Qed.

(** Sorting a list that is in the order [R], and has no priority NaN,
    gives the list sorted by priority, highest first, and then by [R]: the
    sort is stable. *)
Lemma sort_sorted (l : list A) :
  Forall (fun y => prio y <> NaN) l ->
  StronglySorted R l ->
  StronglySorted (lexBefore prio R) (sort (byKey prio) l).
Proof.
  induction l as [| x l IH]; intros Hn Hsorted; [constructor |].
  apply StronglySorted_inv in Hsorted as [Hl Hx].
  apply Forall_cons in Hn as [Hnx Hnl].
  cbn [sort]. apply insertSorted_sorted; [done | | by apply IH |].
  - by rewrite sort_perm.
  - by rewrite sort_perm.
Qed.

End Sorting.

Lemma StronglySorted_lookup {A : Type} (R : A -> A -> Prop) (l : list A)
    (i j : nat) (a b : A) :
  StronglySorted R l -> (i < j)%nat ->
  l !! i = Some a -> l !! j = Some b -> R a b.
Proof.
  intros Hsorted. revert i j.
  induction Hsorted as [| x l Hl IH Hx]; intros i j Hij Hi Hj; [done |].
  destruct j as [| j]; [lia |]. cbn in Hj.
  destruct i as [| i]; cbn in Hi.
  - injection Hi as ->. rewrite Forall_forall in Hx.
    apply Hx. rewrite list_elem_of_lookup. eauto.
  - apply (IH i j); [lia | done | done].
Qed.

Lemma StronglySorted_weaken {A : Type} (R R' : A -> A -> Prop) (l : list A) :
  (forall a b, a ∈ l -> b ∈ l -> R a b -> R' a b) ->
  StronglySorted R l -> StronglySorted R' l.
Proof.
  intros Himpl Hsorted. induction Hsorted as [| x l Hl IH Hx]; [constructor |].
  constructor.
  - apply IH. intros a b Ha Hb. apply Himpl; by apply list_elem_of_further.
  - rewrite Forall_forall in Hx |- *. intros y Hy.
    apply Himpl; [apply list_elem_of_here | by apply list_elem_of_further |].
    by apply Hx.
Qed.

Lemma StronglySorted_filter {A : Type} (R : A -> A -> Prop) (P : A -> Prop)
    `{forall x, Decision (P x)} (l : list A) :
  StronglySorted R l -> StronglySorted R (filter P l).
Proof.
  induction 1 as [| x l Hl IH Hx]; [constructor |].
  rewrite filter_cons. destruct (decide (P x)); [| exact IH].
  constructor; [exact IH |].
  rewrite Forall_forall in Hx |- *. intros y [_ Hy]%list_elem_of_filter.
  by apply Hx.
Qed.

Lemma StronglySorted_List_filter {A : Type} (R : A -> A -> Prop)
    (f : A -> bool) (l : list A) :
  StronglySorted R l -> StronglySorted R (List.filter f l).
Proof.
  induction 1 as [| x l Hl IH Hx]; [constructor |].
  cbn [List.filter]. destruct (f x); [| exact IH].
  constructor; [exact IH |].
  rewrite Forall_forall in Hx. rewrite Forall_forall.
  intros y Hy. apply Hx.
  apply list_elem_of_In. apply list_elem_of_In in Hy.
  by apply filter_In in Hy as [Hy _].
Qed.

Lemma StronglySorted_any {A : Type} (l : list A) :
  StronglySorted (fun _ _ => True) l.
Proof.
  induction l as [| x l IH]; constructor; [exact IH |].
  by apply Forall_forall.
Qed.

(** ** Evaluation *)

Section Evaluation.

Lemma evalRules_none (policy : Policy.t) (rules : list Rule.t) (i : nat)
    (options : Req.t) :
  (forall rule, rule ∈ rules -> matchesRule rule options = false) ->
  evalRules policy rules i options = None.
Proof.
  revert i. induction rules as [| rule rules IH]; intros i Hnone;
    [reflexivity |].
  cbn [evalRules]. rewrite Hnone by apply list_elem_of_here.
  apply IH. intros r Hr. apply Hnone. by apply list_elem_of_further.
Qed.

Lemma evalRules_first (policy : Policy.t) (before after : list Rule.t)
    (rule : Rule.t) (i : nat) (options : Req.t) :
  (forall r, r ∈ before -> matchesRule r options = false) ->
  matchesRule rule options = true ->
  evalRules policy (before ++ rule :: after) i options
  = Some (matched policy rule (i + length before)).
Proof.
  revert i. induction before as [| r before IH]; intros i Hnone Hrule.
  - cbn [app evalRules length]. rewrite Hrule. by rewrite Nat.add_0_r.
  - cbn [app evalRules length]. rewrite Hnone by apply list_elem_of_here.
    rewrite IH; [| intros r' Hr'; apply Hnone; by apply list_elem_of_further
                 | assumption].
    do 2 f_equal. lia.
Qed.

Lemma evalPolicies_none (policies : list Policy.t) (options : Req.t) :
  noRuleMatches policies options ->
  evalPolicies policies options = None.
Proof.
  induction policies as [| policy policies IH]; intros Hnone; [reflexivity |].
  cbn [evalPolicies]. rewrite evalRules_none.
  - apply IH. intros p r Hp. apply Hnone. by apply list_elem_of_further.
  - intros r. apply Hnone, list_elem_of_here.
Qed.

Lemma evalPolicies_first (before after : list Policy.t) (policy : Policy.t)
    (rulesBefore rulesAfter : list Rule.t) (rule : Rule.t) (options : Req.t) :
  noRuleMatches before options ->
  Policy.rules policy = rulesBefore ++ rule :: rulesAfter ->
  (forall r, r ∈ rulesBefore -> matchesRule r options = false) ->
  matchesRule rule options = true ->
  evalPolicies (before ++ policy :: after) options
  = Some (matched policy rule (length rulesBefore)).
Proof.
  intros Hbefore Hrules HrulesBefore Hrule.
  induction before as [| p before IH].
  - cbn [app evalPolicies]. rewrite Hrules.
    by rewrite (evalRules_first _ _ _ _ 0).
  - cbn [app evalPolicies]. rewrite evalRules_none.
    + apply IH. intros q r Hq. apply Hbefore. by apply list_elem_of_further.
    + intros r. apply Hbefore, list_elem_of_here.
Qed.

Lemma evaluate_unfold (engine : PolicyEngine.t) (tenantId : JSString)
    (options : Req.t) :
  evaluate engine tenantId options
  = match enabledPolicies engine tenantId with
    | [] => noPolicies
    | _ :: _ =>
        match evalPolicies (enabledPolicies engine tenantId) options with
        | Some result => result
        | None => defaultDenyResult
        end
    end.
Proof.
  unfold evaluate, enabledPolicies.
  by destruct (List.filter Policy.enabled (listPolicies engine tenantId)).
Qed.

(** The listing of a tenant holds the stored policies that the ids of the
    tenant's index name. *)
Lemma listPolicies_indexed (engine : PolicyEngine.t) (tenantId : JSString)
    (p : Policy.t) :
  p ∈ listPolicies engine tenantId
  <-> exists tenantSet id,
        tenantPolicies engine !! tenantId = Some tenantSet
        /\ id ∈ tenantSet /\ policies engine !! id = Some p.
Proof.
  unfold listPolicies.
  destruct (tenantPolicies engine !! tenantId) as [tenantSet |].
  - unfold byPriority. rewrite (sort_perm Policy.priority), list_elem_of_omap.
    split.
    + intros (id & Hin & Hp). by exists tenantSet, id.
    + intros (set & id & [= <-] & Hin & Hp). by exists id.
  - split; [by intros ?%elem_of_nil | by intros (? & ? & ? & _)].
Qed.

(** Without a priority NaN, the listing is in descending order of
    priority. *)
Lemma listPolicies_descending (engine : PolicyEngine.t) (tenantId : JSString) :
  noNaNPriority engine tenantId ->
  StronglySorted
    (fun p q => numberLe (Policy.priority q) (Policy.priority p) = true)
    (listPolicies engine tenantId).
Proof.
  unfold noNaNPriority, listPolicies. intros Hnan.
  destruct (tenantPolicies engine !! tenantId) as [tenantSet |];
    [| constructor].
  apply (StronglySorted_weaken
           (lexBefore Policy.priority (fun _ _ => True))).
  - intros p q Hp Hq [Hlt | [Heq _]]; [by apply numberBelow_le |].
    rewrite Heq. by apply numberLe_refl, Hnan.
  - apply (sort_sorted Policy.priority); [| apply StronglySorted_any].
    apply Forall_forall. intros p Hp. apply Hnan.
    unfold byPriority. by rewrite (sort_perm Policy.priority).
Qed.

(** C1, with the reason that the code builds: [evaluate] answers
    "No policies defined" when the tenant has no enabled policy.
    Otherwise it scans the enabled policies in the order of the list, and
    the rules of each in array order; at the first rule that matches, rule
    [i] of [policy], it answers [allowed] according to the effect of the
    rule, the reason [Matched policy "<name>" rule <i+1>] with the name of
    the policy between double quotes, the id of the policy and [i]; when
    no rule of any enabled policy matches it answers
    "No matching policy rule (default deny)".  The list that it scans holds
    the policies with the flag [enabled] that the index of the tenant
    names, and it is in descending order of priority when no policy of
    the tenant has the priority NaN. *)
Theorem evaluate_spec (engine : PolicyEngine.t) (tenantId : JSString)
    (options : Req.t) :
  (enabledPolicies engine tenantId = [] ->
   evaluate engine tenantId options
   = EvalResult.mk false (js "No policies defined") None None)
  /\ (forall before policy after rulesBefore rule rulesAfter,
        enabledPolicies engine tenantId = before ++ policy :: after ->
        noRuleMatches before options ->
        Policy.rules policy = rulesBefore ++ rule :: rulesAfter ->
        (forall r, r ∈ rulesBefore -> matchesRule r options = false) ->
        matchesRule rule options = true ->
        evaluate engine tenantId options
        = EvalResult.mk
            (bool_decide (Rule.effect rule = Allow))
            (js "Matched policy " ++ [dquote] ++ Policy.name policy
               ++ [dquote] ++ js " rule "
               ++ numberToString (length rulesBefore + 1))
            (Some (Policy.id policy))
            (Some (length rulesBefore)))
  /\ (enabledPolicies engine tenantId ≠ [] ->
      noRuleMatches (enabledPolicies engine tenantId) options ->
      evaluate engine tenantId options
      = EvalResult.mk false (js "No matching policy rule (default deny)")
          None None)
  /\ (forall p,
        p ∈ enabledPolicies engine tenantId
        <-> Policy.enabled p = true
            /\ exists tenantSet id,
                 tenantPolicies engine !! tenantId = Some tenantSet
                 /\ id ∈ tenantSet /\ policies engine !! id = Some p)
  /\ (noNaNPriority engine tenantId ->
      forall i j p q,
        (i < j)%nat ->
        enabledPolicies engine tenantId !! i = Some p ->
        enabledPolicies engine tenantId !! j = Some q ->
        numberLe (Policy.priority q) (Policy.priority p) = true).
Proof.
  rewrite evaluate_unfold. split; [| split; [| split; [| split]]].
  - by intros ->.
  - intros before policy after rulesBefore rule rulesAfter Hen Hbefore Hrules
      HrulesBefore Hrule.
    rewrite Hen.
    rewrite (evalPolicies_first before after policy rulesBefore rulesAfter rule)
      by assumption.
    by destruct before.
  - intros Hne Hnone. rewrite evalPolicies_none by assumption.
    by destruct (enabledPolicies engine tenantId).
  - intros p. unfold enabledPolicies.
    rewrite list_elem_of_In, filter_In, <- list_elem_of_In.
    rewrite listPolicies_indexed. tauto.
  - intros Hnan i j p q Hij Hi Hj.
    apply (StronglySorted_lookup
             (fun p q =>
                numberLe (Policy.priority q) (Policy.priority p) = true)
             (enabledPolicies engine tenantId) i j p q); [| done..].
    by apply StronglySorted_List_filter, listPolicies_descending.
Qed.

Lemma scanEngine_listing :
  listPolicies scanEngine (js "acme") = [topPolicy; highPolicy; lowPolicy].
Proof. vm_compute. reflexivity. Qed.

Lemma scanEngine_enabled :
  enabledPolicies scanEngine (js "acme")
  = [topPolicy] ++ highPolicy :: [lowPolicy].
Proof. vm_compute. reflexivity. Qed.

Lemma evaluate_spec_witness :
  evaluate scanEngine (js "acme") someRequest
  = EvalResult.mk false
      (js "Matched policy " ++ [dquote] ++ js "High" ++ [dquote]
         ++ js " rule " ++ numberToString (1 + 1))
      (Some (js "p2")) (Some 1%nat)
  /\ numberLe (Policy.priority lowPolicy) (Policy.priority topPolicy) = true.
Proof.
  destruct (evaluate_spec scanEngine (js "acme") someRequest)
    as (_ & Hfirst & _ & _ & Horder).
  split.
  - refine (Hfirst [topPolicy] highPolicy [lowPolicy] [tasksRule] denyDocsRule
              [] scanEngine_enabled _ eq_refl _ _).
    + intros policy rule ->%list_elem_of_singleton ->%list_elem_of_singleton.
      vm_compute. reflexivity.
    + intros r ->%list_elem_of_singleton. vm_compute. reflexivity.
    + vm_compute. reflexivity.
  - apply (Horder ltac:(intros p; rewrite scanEngine_listing;
                        intros Hp;
                        repeat (apply elem_of_cons in Hp as [-> | Hp];
                                [discriminate |]);
                        by apply elem_of_nil in Hp)
             0%nat 2%nat topPolicy lowPolicy);
      [lia | by rewrite scanEngine_enabled..].
Defined.

(** C1, as stated, fails.  In the scenario of the specification the
    reason holds the name of the policy between double quotes, so it is
    not the text "Matched policy Docs rule 1".  And where a priority is NaN
    the scan is not in the order of the priorities: in [nanEngine] the
    policy of priority 1 is scanned before the one of priority 2, and its
    rule allows the request that the other denies. *)
Lemma evaluate_differs_from_claim :
  evaluate docsEngine (js "acme") someRequest
  = EvalResult.mk true
      (js "Matched policy " ++ [34%N] ++ js "Docs" ++ [34%N] ++ js " rule 1")
      (Some (js "p1")) (Some 0%nat)
  /\ EvalResult.reason (evaluate docsEngine (js "acme") someRequest)
     ≠ js "Matched policy Docs rule 1"
  /\ map Policy.priority (enabledPolicies nanEngine (js "acme"))
     = [Finite 1; NaN; Finite 2]
  /\ evaluate nanEngine (js "acme") someRequest
     = EvalResult.mk true
         (js "Matched policy " ++ [34%N] ++ js "A" ++ [34%N] ++ js " rule 1")
         (Some (js "a")) (Some 0%nat).
Proof.
  split; [vm_compute; reflexivity |].
  split; [vm_compute; discriminate |].
  split; vm_compute; reflexivity.
Qed.

End Evaluation.

(** ** The facade *)

Section Facade.

Import PermissionAPI.

Lemma check_result (api : PermissionAPI.t) (tenantId : JSString)
    (options : Req.t) :
  snd (check api tenantId options)
  = EvalResult.allowed (evaluate (policyEngine api) tenantId options).
Proof. reflexivity. Qed.

(** [check] leaves the store and the configuration as they are. *)
Lemma check_frame (api : PermissionAPI.t) (tenantId : JSString)
    (options : Req.t) :
  policyEngine (fst (check api tenantId options)) = policyEngine api
  /\ auditAll (fst (check api tenantId options)) = auditAll api
  /\ defaultDeny (fst (check api tenantId options)) = defaultDeny api.
Proof.
  unfold check. cbn [fst].
  by destruct (auditAll api || negb _).
Qed.

(** The entries that [check] adds to the log: one, for the request,
    when [auditAll] is set or the request is denied; none otherwise. *)
Lemma check_entries (api : PermissionAPI.t) (tenantId : JSString)
    (options : Req.t) :
  exists added,
    AuditLogger.entries (auditLogger (fst (check api tenantId options)))
    = AuditLogger.entries (auditLogger api) ++ added
    /\ map entrySummary added
       = map (requestSummary api tenantId) (audited api tenantId [options]).
Proof.
  unfold check, audited. cbn [fst List.filter].
  destruct (auditAll api || negb _).
  - eexists [_]. split; reflexivity.
  - exists []. split; [by rewrite app_nil_r | reflexivity].
Qed.

(** C3: a check that the evaluation does not allow returns false and
    writes exactly one audit entry, with the result "denied", whatever
    [auditAll] is; with [auditAll] false, a check that is allowed returns
    true and writes no entry. *)
Theorem check_audits_denials (api : PermissionAPI.t) (tenantId : JSString)
    (options : Req.t) :
  (EvalResult.allowed (evaluate (policyEngine api) tenantId options) = false ->
   snd (check api tenantId options) = false
   /\ exists entry,
        AuditLogger.entries (auditLogger (fst (check api tenantId options)))
        = AuditLogger.entries (auditLogger api) ++ [entry]
        /\ AuditEntry.result entry = Denied)
  /\ (auditAll api = false ->
      EvalResult.allowed (evaluate (policyEngine api) tenantId options) = true ->
      snd (check api tenantId options) = true
      /\ AuditLogger.entries (auditLogger (fst (check api tenantId options)))
         = AuditLogger.entries (auditLogger api)).
Proof.
  split.
  - intros Hdenied. split; [by rewrite check_result |].
    unfold check, auditResultOf. rewrite Hdenied, orb_true_r. cbn.
    eexists. split; reflexivity.
  - intros Hall Hallowed. split; [by rewrite check_result |].
    unfold check. by rewrite Hall, Hallowed.
Qed.

Lemma check_audits_denials_witness :
  (snd (check (mk docsEngine emptyLogger true false) (js "acme") deleteRequest)
   = false
   /\ exists entry,
        AuditLogger.entries
          (auditLogger
             (fst (check (mk docsEngine emptyLogger true false) (js "acme")
                     deleteRequest)))
        = AuditLogger.entries emptyLogger ++ [entry]
        /\ AuditEntry.result entry = Denied)
  /\ (snd (check (mk docsEngine emptyLogger true false) (js "acme") someRequest)
      = true
      /\ AuditLogger.entries
           (auditLogger
              (fst (check (mk docsEngine emptyLogger true false) (js "acme")
                      someRequest)))
         = AuditLogger.entries emptyLogger).
Proof.
  split.
  - apply (proj1 (check_audits_denials (mk docsEngine emptyLogger true false)
                     (js "acme") deleteRequest)).
    vm_compute. reflexivity.
  - apply (proj2 (check_audits_denials (mk docsEngine emptyLogger true false)
                     (js "acme") someRequest)).
    + reflexivity.
    + vm_compute. reflexivity.
Defined.

(** C8: two facades that differ only in [defaultDeny] give the same
    evaluation, the same answer of [check] and of [checkWithDetails], and
    the same log; when no rule of an enabled policy matches, both deny.
    The flag is stored and never read. *)
Theorem defaultDeny_is_ignored (api1 api2 : PermissionAPI.t)
    (tenantId : JSString) (options : Req.t) :
  policyEngine api1 = policyEngine api2 ->
  auditLogger api1 = auditLogger api2 ->
  auditAll api1 = auditAll api2 ->
  evaluate (policyEngine api1) tenantId options
  = evaluate (policyEngine api2) tenantId options
  /\ snd (check api1 tenantId options) = snd (check api2 tenantId options)
  /\ snd (checkWithDetails api1 tenantId options)
     = snd (checkWithDetails api2 tenantId options)
  /\ auditLogger (fst (check api1 tenantId options))
     = auditLogger (fst (check api2 tenantId options))
  /\ auditLogger (fst (checkWithDetails api1 tenantId options))
     = auditLogger (fst (checkWithDetails api2 tenantId options))
  /\ (noRuleMatches (enabledPolicies (policyEngine api1) tenantId) options ->
      snd (check api1 tenantId options) = false
      /\ snd (check api2 tenantId options) = false).
Proof.
  intros Hengine Hlogger Hall.
  unfold check, checkWithDetails. rewrite Hengine, Hlogger, Hall. cbn [fst snd].
  split; [reflexivity |]. split; [reflexivity |]. split; [reflexivity |].
  split; [by destruct (auditAll api2 || negb _) |].
  split; [by destruct (auditAll api2 || negb _) |].
  intros Hnone.
  assert (EvalResult.allowed (evaluate (policyEngine api2) tenantId options)
          = false) as ->; [| done].
  rewrite evaluate_unfold, evalPolicies_none by assumption.
  by destruct (enabledPolicies (policyEngine api2) tenantId).
Qed.

Lemma defaultDeny_is_ignored_witness :
  evaluate (policyEngine (docsFacade true)) (js "acme") someRequest
  = evaluate (policyEngine (docsFacade false)) (js "acme") someRequest
  /\ snd (check (docsFacade true) (js "acme") someRequest)
     = snd (check (docsFacade false) (js "acme") someRequest).
Proof.
  destruct (defaultDeny_is_ignored (docsFacade true) (docsFacade false)
              (js "acme") someRequest eq_refl eq_refl eq_refl)
    as (H1 & H2 & _).
  exact (conj H1 H2).
Defined.

(** ** [checkMultiple] *)

Lemma lastWithKey_cons (key : JSString) (c : Req.t) (checks : list Req.t) :
  lastWithKey key (c :: checks)
  = match lastWithKey key checks with
    | Some c' => Some c'
    | None => if strEq (requestKey c) key then Some c else None
    end.
Proof.
  unfold lastWithKey. cbn [List.filter].
  destruct (strEq (requestKey c) key); [apply last_cons |].
  by destruct (last _).
Qed.

(** The loop: the facade threads through the checks one by one, and the
    map ends with, under each key, the answer to the last request filed
    under it (or what it held before the loop). *)
Lemma checkLoop_spec (tenantId : JSString) (checks : list Req.t) :
  forall (api : PermissionAPI.t) (results : gmap (list N) bool),
    fst (checkLoop api tenantId checks results)
    = foldl (fun a c => fst (check a tenantId c)) api checks
    /\ forall key,
         snd (checkLoop api tenantId checks results) !! key
         = match lastWithKey key checks with
           | Some c =>
               Some (EvalResult.allowed
                       (evaluate (policyEngine api) tenantId c))
           | None => results !! key
           end.
Proof.
  induction checks as [| c checks IH]; intros api results.
  - split; [reflexivity | intros key; reflexivity].
  - cbn [checkLoop foldl].
    destruct (check api tenantId c) as [api' allowed] eqn:Hcheck.
    assert (Hapi' : api' = fst (check api tenantId c)) by by rewrite Hcheck.
    assert (Hallowed : allowed
              = EvalResult.allowed (evaluate (policyEngine api) tenantId c)).
    { rewrite <- check_result. by rewrite Hcheck. }
    destruct (IH api' (<[requestKey c := allowed]> results)) as [Hfst Hsnd].
    split; [by rewrite Hfst, Hapi' |].
    intros key. rewrite Hsnd, lastWithKey_cons.
    assert (Heng : policyEngine api' = policyEngine api).
    { rewrite Hapi'. apply check_frame. }
    rewrite Heng. destruct (lastWithKey key checks); [reflexivity |].
    unfold strEq. case_bool_decide as Hkey.
    + subst key. by rewrite lookup_insert_eq, Hallowed.
    + by rewrite lookup_insert_ne.
Qed.

Lemma audited_cons (api : PermissionAPI.t) (tenantId : JSString)
    (c : Req.t) (checks : list Req.t) :
  audited api tenantId (c :: checks)
  = audited api tenantId [c] ++ audited api tenantId checks.
Proof. unfold audited. cbn [List.filter]. by destruct (auditAll api || _). Qed.

(** The log after a run of checks: one entry for each request that
    [check] logs, in the order of the batch. *)
Lemma checks_entries (tenantId : JSString) (checks : list Req.t) :
  forall api : PermissionAPI.t,
  exists added,
    AuditLogger.entries
      (auditLogger (foldl (fun a c => fst (check a tenantId c)) api checks))
    = AuditLogger.entries (auditLogger api) ++ added
    /\ map entrySummary added
       = map (requestSummary api tenantId) (audited api tenantId checks).
Proof.
  induction checks as [| c checks IH]; intros api.
  - exists []. split; [by rewrite app_nil_r | reflexivity].
  - cbn [foldl].
    destruct (check_entries api tenantId c) as (added1 & Hlog1 & Hsum1).
    destruct (IH (fst (check api tenantId c))) as (added2 & Hlog2 & Hsum2).
    destruct (check_frame api tenantId c) as (Heng & Hall & _).
    exists (added1 ++ added2). split.
    + by rewrite Hlog2, Hlog1, app_assoc.
    + rewrite audited_cons, !map_app, Hsum1, Hsum2. f_equal.
      unfold audited, requestSummary. by rewrite Heng, Hall.
Qed.

Lemma lastWithKey_later (before after : list Req.t) (c : Req.t) :
  (forall c', c' ∈ after -> requestKey c' ≠ requestKey c) ->
  lastWithKey (requestKey c) (before ++ c :: after) = Some c.
Proof.
  intros Hafter. unfold lastWithKey.
  rewrite List.filter_app. cbn [List.filter].
  unfold strEq at 2. rewrite bool_decide_eq_true_2 by reflexivity.
  assert (List.filter (fun c' => strEq (requestKey c') (requestKey c)) after
          = []) as ->.
  { induction after as [| c' after IH]; [reflexivity |].
    cbn [List.filter]. unfold strEq at 1.
    rewrite bool_decide_eq_false_2 by apply Hafter, list_elem_of_here.
    apply IH. intros c'' Hin. by apply Hafter, list_elem_of_further. }
  apply last_snoc.
Qed.

(** The text up to the first colon of a key, and the text after it. *)
Lemma split_at_colon (a1 a2 r1 r2 : JSString) :
  58%N ∉ a1 -> 58%N ∉ a2 ->
  a1 ++ 58%N :: r1 = a2 ++ 58%N :: r2 ->
  a1 = a2 /\ r1 = r2.
Proof.
  revert a2. induction a1 as [| x a1 IH]; intros [| y a2] H1 H2 Heq;
    cbn in Heq.
  - by injection Heq as ->.
  - injection Heq as <- _. destruct H2. apply list_elem_of_here.
  - injection Heq as -> _. destruct H1. apply list_elem_of_here.
  - injection Heq as -> Heq.
    destruct (IH a2) as [-> ->]; [| | done | done].
    + intros Hin. apply H1. by apply list_elem_of_further.
    + intros Hin. apply H2. by apply list_elem_of_further.
Qed.

Lemma actionToString_no_colon (action : PermissionAction) :
  58%N ∉ actionToString action.
Proof. destruct action; by_evaluation. Qed.

Lemma actionToString_inj (a b : PermissionAction) :
  actionToString a = actionToString b -> a = b.
Proof. destruct a, b; first [reflexivity | discriminate]. Qed.

(** The key tells the three apart, for actors without a colon in their
    id. *)
Lemma requestKey_inj (c1 c2 : Req.t) :
  58%N ∉ Req.actorId c1 -> 58%N ∉ Req.actorId c2 ->
  requestKey c1 = requestKey c2 ->
  Req.actorId c1 = Req.actorId c2
  /\ Req.action c1 = Req.action c2
  /\ Req.resource c1 = Req.resource c2.
Proof.
  intros H1 H2 Hkey. unfold requestKey in Hkey.
  change (js ":") with [58%N] in Hkey. cbn [app] in Hkey.
  apply split_at_colon in Hkey as [Hactor Hrest]; [| done | done].
  apply split_at_colon in Hrest as [Haction Hresource];
    [| apply actionToString_no_colon..].
  by apply actionToString_inj in Haction.
Qed.

(** With a colon in the id of the actor, different requests can have one
    key. *)
Lemma requestKey_collision :
  requestKey (Req.mk (js "a:read") ActorUser (js "x") ActRead None)
  = requestKey (Req.mk (js "a") ActorUser (js "read:x") ActRead None).
Proof. reflexivity. Qed.

(** C10: [checkMultiple] files every answer under the text
    [actorId:action:resource], the three joined by colons, so requests that
    agree on the three share a key whatever their actor type and context,
    and requests that differ in one of the three have different keys when
    the ids of their actors have no colon.  The map ends with, under
    each key, the answer to the last request of the batch filed under it;
    of two requests that agree on the three, the earlier answer is gone
    when no request after the later one has the key.  All the same, every
    request goes through [check] in the order of the batch, and the log
    gains one entry for each request that [check] logs. *)
Theorem checkMultiple_keys (api : PermissionAPI.t) (tenantId : JSString)
    (checks : list Req.t) :
  (forall c1 c2,
      Req.actorId c1 = Req.actorId c2 ->
      Req.action c1 = Req.action c2 ->
      Req.resource c1 = Req.resource c2 ->
      requestKey c1 = requestKey c2)
  /\ (forall key,
        snd (checkMultiple api tenantId checks) !! key
        = (fun c => EvalResult.allowed (evaluate (policyEngine api) tenantId c))
            <$> lastWithKey key checks)
  /\ (forall before c1 between c2 after,
        checks = before ++ c1 :: between ++ c2 :: after ->
        Req.actorId c1 = Req.actorId c2 ->
        Req.action c1 = Req.action c2 ->
        Req.resource c1 = Req.resource c2 ->
        (forall c, c ∈ after -> requestKey c ≠ requestKey c2) ->
        snd (checkMultiple api tenantId checks) !! requestKey c1
        = Some (EvalResult.allowed (evaluate (policyEngine api) tenantId c2)))
  /\ fst (checkMultiple api tenantId checks)
     = foldl (fun a c => fst (check a tenantId c)) api checks
  /\ (exists added,
        AuditLogger.entries
          (auditLogger (fst (checkMultiple api tenantId checks)))
        = AuditLogger.entries (auditLogger api) ++ added
        /\ map entrySummary added
           = map (requestSummary api tenantId) (audited api tenantId checks))
  /\ (forall c,
        requestKey c
        = Req.actorId c ++ [58%N] ++ actionToString (Req.action c) ++ [58%N]
            ++ Req.resource c)
  /\ (forall c1 c2,
        58%N ∉ Req.actorId c1 -> 58%N ∉ Req.actorId c2 ->
        requestKey c1 = requestKey c2 ->
        Req.actorId c1 = Req.actorId c2
        /\ Req.action c1 = Req.action c2
        /\ Req.resource c1 = Req.resource c2).
Proof.
  destruct (checkLoop_spec tenantId checks api ∅) as [Hfst Hsnd].
  assert (Hkeys : forall c1 c2,
             Req.actorId c1 = Req.actorId c2 ->
             Req.action c1 = Req.action c2 ->
             Req.resource c1 = Req.resource c2 ->
             requestKey c1 = requestKey c2).
  { intros c1 c2 Hactor Haction Hresource. unfold requestKey.
    by rewrite Hactor, Haction, Hresource. }
  assert (Hmap : forall key,
             snd (checkMultiple api tenantId checks) !! key
             = (fun c => EvalResult.allowed
                           (evaluate (policyEngine api) tenantId c))
                 <$> lastWithKey key checks).
  { intros key. unfold checkMultiple. rewrite Hsnd.
    destruct (lastWithKey key checks); [reflexivity | apply lookup_empty]. }
  split; [exact Hkeys |]. split; [exact Hmap |].
  split; [| split; [| split; [| split]]].
  - intros before c1 between c2 after -> Hactor Haction Hresource Hafter.
    rewrite Hmap, (Hkeys c1 c2) by assumption.
    replace (before ++ c1 :: between ++ c2 :: after)
      with ((before ++ c1 :: between) ++ c2 :: after)
      by (rewrite <- app_assoc; reflexivity).
    by rewrite lastWithKey_later.
  - exact Hfst.
  - unfold checkMultiple. rewrite Hfst. apply checks_entries.
  - reflexivity.
  - apply requestKey_inj.
Qed.

Lemma checkMultiple_keys_witness :
  snd (checkMultiple (docsFacade true) (js "acme") [someRequest; agentRequest])
    !! requestKey someRequest
  = Some (EvalResult.allowed
            (evaluate (policyEngine (docsFacade true)) (js "acme") agentRequest)).
Proof.
  refine (proj1 (proj2 (proj2
            (checkMultiple_keys (docsFacade true) (js "acme")
               [someRequest; agentRequest])))
            [] someRequest [] agentRequest [] eq_refl eq_refl eq_refl eq_refl _).
  intros c Hin. by apply elem_of_nil in Hin.
Defined.

(** The batch of the two requests for "u1", "read" and "doc:42": the user
    is allowed and the agent is denied; the map has the one key, with the
    answer to the agent, and the log has an entry for each. *)
Lemma checkMultiple_example :
  snd (check (docsFacade true) (js "acme") someRequest) = true
  /\ snd (checkMultiple (docsFacade true) (js "acme")
            [someRequest; agentRequest])
     = {[ js "u1:read:doc:42" := false ]}
  /\ map entrySummary
       (AuditLogger.entries
          (auditLogger
             (fst (checkMultiple (docsFacade true) (js "acme")
                     [someRequest; agentRequest]))))
     = [(js "u1", ActorUser, js "read", js "doc:42", Success);
        (js "u1", ActorAgent, js "read", js "doc:42", Denied)].
Proof. vm_compute. repeat split. Qed.

End Facade.

(** ** The creation log *)

Section Log.

Lemma birthFrom_snoc (i : nat) (log : list JSString) (x id : JSString) :
  birthFrom i (log ++ [x]) id
  = if bool_decide (x = id) then Some (i + length log)%nat
    else birthFrom i log id.
Proof.
  revert i. induction log as [| y log IH]; intros i.
  - cbn. rewrite Nat.add_0_r. reflexivity.
  - cbn [app birthFrom length]. rewrite IH.
    case_bool_decide; [f_equal; lia | reflexivity].
Qed.

Lemma birthFrom_bound (i : nat) (log : list JSString) (id : JSString) (j : nat) :
  birthFrom i log id = Some j -> (i <= j < i + length log)%nat.
Proof.
  revert i. induction log as [| y log IH]; intros i; [done |].
  cbn [birthFrom length].
  destruct (birthFrom (S i) log id) as [k |] eqn:Hk.
  - intros [= <-]. apply IH in Hk. lia.
  - case_bool_decide; [intros [= <-]; lia | done].
Qed.

Lemma birth_snoc_other (log : list JSString) (x id : JSString) :
  id ≠ x -> birth (log ++ [x]) id = birth log id.
Proof.
  intros Hne. unfold birth. rewrite birthFrom_snoc.
  by rewrite bool_decide_eq_false_2.
Qed.

Lemma birth_snoc_same (log : list JSString) (x : JSString) :
  birth (log ++ [x]) x = Some (length log).
Proof.
  unfold birth. rewrite birthFrom_snoc.
  by rewrite bool_decide_eq_true_2.
Qed.

Lemma createdBefore_snoc_old (log : list JSString) (x a b : JSString) :
  a ≠ x -> b ≠ x ->
  createdBefore log a b -> createdBefore (log ++ [x]) a b.
Proof.
  intros Ha Hb (i & j & Hi & Hj & Hij). exists i, j.
  by rewrite !birth_snoc_other.
Qed.

Lemma createdBefore_snoc_new (log : list JSString) (x a : JSString) :
  a ≠ x -> is_Some (birth log a) ->
  createdBefore (log ++ [x]) a x.
Proof.
  intros Ha [i Hi]. exists i, (length log).
  rewrite birth_snoc_other, birth_snoc_same by done.
  repeat split; [done |]. apply birthFrom_bound in Hi. lia.
Qed.

End Log.

(** ** The policy store *)

Section Store.

Lemma setAdd_fresh (x : JSString) (s : list JSString) :
  x ∉ s -> setAdd x s = s ++ [x].
Proof. intros Hx. unfold setAdd. by rewrite bool_decide_eq_false_2. Qed.

Lemma StoreInv_new : StoreInv [] PolicyEngine.new.
Proof.
  split; cbn; intros *; rewrite lookup_empty; discriminate.
Qed.

(** An identifier that no stored policy has is in no index. *)
Lemma fresh_not_indexed (log : list JSString) (engine : PolicyEngine.t)
    (nanoid tenantId : JSString) (tenantSet : list JSString) :
  StoreInv log engine ->
  policies engine !! nanoid = None ->
  tenantPolicies engine !! tenantId = Some tenantSet ->
  nanoid ∉ tenantSet.
Proof.
  intros Hinv Hfresh Hset Hin.
  destruct (inv_stored _ _ Hinv _ _ _ Hset Hin) as (p & Hp & _). congruence.
Qed.

Lemma StoreInv_create (log : list JSString) (engine : PolicyEngine.t)
    (nanoid : JSString) (now : Z) (tenantId name : JSString)
    (rules : list Rule.t) (options : option CreateOptions.t) :
  StoreInv log engine ->
  policies engine !! nanoid = None ->
  StoreInv (log ++ [nanoid])
    (fst (createPolicy engine nanoid now tenantId name rules options)).
Proof.
  intros Hinv Hfresh.
  pose proof (fresh_not_indexed log engine nanoid) as Hnot.
  unfold createPolicy. cbn [fst Policy.id].
  set (policy := Policy.mk nanoid tenantId name _ rules _ _ now).
  set (tenantSet := default [] (tenantPolicies engine !! tenantId)).
  assert (Hadd : setAdd nanoid tenantSet = tenantSet ++ [nanoid]).
  { apply setAdd_fresh. subst tenantSet.
    destruct (tenantPolicies engine !! tenantId) eqn:Ht; cbn; [eauto |].
    apply not_elem_of_nil. }
  assert (Hold : forall id, id ∈ tenantSet ->
            tenantPolicies engine !! tenantId = Some tenantSet).
  { subst tenantSet. intros id.
    destruct (tenantPolicies engine !! tenantId); cbn; [done |].
    by intros ?%elem_of_nil. }
  rewrite Hadd. split; cbn [policies tenantPolicies].
  - intros id p [[<- <-] | [Hne Hp]]%lookup_insert_Some; [done |].
    by apply (inv_id _ _ Hinv).
  - intros id p [[<- <-] | [Hne Hp]]%lookup_insert_Some.
    + exists (tenantSet ++ [nanoid]). cbn. rewrite lookup_insert_eq.
      split; [done |]. apply elem_of_app. right. apply list_elem_of_here.
    + destruct (inv_indexed _ _ Hinv _ _ Hp) as (set & Hset & Hin).
      destruct (decide (Policy.tenantId p = tenantId)) as [Heq | Hneq].
      * rewrite Heq in *. rewrite lookup_insert_eq. eexists. split; [done |].
        apply elem_of_app. left. subst tenantSet. by rewrite Hset.
      * rewrite lookup_insert_ne by done. eauto.
  - intros t set id Hset Hin.
    apply lookup_insert_Some in Hset as [[<- <-] | [Hne Hset]].
    + apply elem_of_app in Hin as [Hin | ->%list_elem_of_singleton].
      * destruct (inv_stored _ _ Hinv _ _ _ (Hold _ Hin) Hin) as (p & Hp & Ht).
        exists p. split; [| done].
        rewrite lookup_insert_ne; [done |]. intros <-.
        by apply (Hnot _ _ Hinv Hfresh (Hold _ Hin)).
      * exists policy. by rewrite lookup_insert_eq.
    + destruct (inv_stored _ _ Hinv _ _ _ Hset Hin) as (p & Hp & Ht).
      exists p. split; [| done].
      rewrite lookup_insert_ne; [done |]. intros <-.
      by apply (Hnot _ _ Hinv Hfresh Hset).
  - intros t set id Hset Hin.
    destruct (decide (id = nanoid)) as [-> | Hne].
    { rewrite birth_snoc_same. eauto. }
    rewrite birth_snoc_other by done.
    apply lookup_insert_Some in Hset as [[<- <-] | [Hnet Hset]].
    + apply elem_of_app in Hin as [Hin | ->%list_elem_of_singleton]; [| done].
      by apply (inv_born _ _ Hinv _ _ _ (Hold _ Hin)).
    + by apply (inv_born _ _ Hinv _ _ _ Hset).
  - intros t set Hset.
    apply lookup_insert_Some in Hset as [[<- <-] | [Hnet Hset]].
    + apply StronglySorted_app_2.
      * intros a b Ha ->%list_elem_of_singleton.
        apply createdBefore_snoc_new.
        -- intros ->. by apply (Hnot _ _ Hinv Hfresh (Hold _ Ha)).
        -- by apply (inv_born _ _ Hinv _ _ _ (Hold _ Ha)).
      * destruct tenantSet as [| a rest] eqn:Hts; [constructor |].
        assert (Hsome : tenantPolicies engine !! tenantId = Some (a :: rest))
          by apply (Hold a), list_elem_of_here.
        apply (StronglySorted_weaken (createdBefore log));
          [| by apply (inv_order _ _ Hinv tenantId)].
        intros x y Hx Hy. apply createdBefore_snoc_old; intros ->.
        -- by apply (Hnot _ _ Hinv Hfresh Hsome).
        -- by apply (Hnot _ _ Hinv Hfresh Hsome).
      * repeat constructor.
    + apply (StronglySorted_weaken (createdBefore log));
        [| by apply (inv_order _ _ Hinv t)].
      intros x y Hx Hy. apply createdBefore_snoc_old; intros ->.
      * by apply (Hnot _ _ Hinv Hfresh Hset).
      * by apply (Hnot _ _ Hinv Hfresh Hset).
Qed.

(** An update with the declared keys keeps the id and the tenant. *)
Lemma merge_declared (policy : Policy.t) (updates : Updates.t) :
  Updates.declared updates ->
  Policy.id (merge policy updates) = Policy.id policy
  /\ Policy.tenantId (merge policy updates) = Policy.tenantId policy
  /\ Policy.createdAt (merge policy updates) = Policy.createdAt policy.
Proof.
  intros (Hid & Htenant & Hcreated). cbn. by rewrite Hid, Htenant, Hcreated.
Qed.

Lemma StoreInv_update (log : list JSString) (engine : PolicyEngine.t)
    (id : JSString) (updates : Updates.t) :
  StoreInv log engine ->
  Updates.declared updates ->
  StoreInv log (fst (updatePolicy engine id updates)).
Proof.
  intros Hinv Hdeclared. unfold updatePolicy.
  destruct (policies engine !! id) as [policy |] eqn:Hpolicy; [| exact Hinv].
  destruct (merge_declared policy updates Hdeclared) as (Hid & Htenant & _).
  cbn [fst]. split; cbn [policies tenantPolicies].
  - intros id' p [[<- <-] | [Hne Hp]]%lookup_insert_Some.
    + rewrite Hid. exact (inv_id _ _ Hinv _ _ Hpolicy).
    + exact (inv_id _ _ Hinv _ _ Hp).
  - intros id' p [[<- <-] | [Hne Hp]]%lookup_insert_Some.
    + rewrite Htenant. exact (inv_indexed _ _ Hinv _ _ Hpolicy).
    + exact (inv_indexed _ _ Hinv _ _ Hp).
  - intros t set id' Hset Hin.
    destruct (inv_stored _ _ Hinv _ _ _ Hset Hin) as (p & Hp & Ht).
    destruct (decide (id = id')) as [<- | Hne].
    + exists (merge policy updates). rewrite lookup_insert_eq.
      split; [done |]. rewrite Htenant. congruence.
    + exists p. by rewrite lookup_insert_ne.
  - apply (inv_born _ _ Hinv).
  - apply (inv_order _ _ Hinv).
Qed.

Lemma StoreInv_delete (log : list JSString) (engine : PolicyEngine.t)
    (id : JSString) :
  StoreInv log engine ->
  StoreInv log (fst (deletePolicy engine id)).
Proof.
  intros Hinv. unfold deletePolicy.
  destruct (policies engine !! id) as [policy |] eqn:Hpolicy; [| exact Hinv].
  destruct (inv_indexed _ _ Hinv _ _ Hpolicy) as (set & Hset & Hin).
  rewrite Hset. cbn [fst]. unfold setDelete.
  split; cbn [policies tenantPolicies].
  - intros id' p [Hne Hp]%lookup_delete_Some. by apply (inv_id _ _ Hinv).
  - intros id' p [Hne Hp]%lookup_delete_Some.
    destruct (inv_indexed _ _ Hinv _ _ Hp) as (set' & Hset' & Hin').
    destruct (decide (Policy.tenantId policy = Policy.tenantId p)) as [Heq | Hneq].
    + rewrite <- Heq in *. rewrite lookup_insert_eq. eexists. split; [done |].
      apply list_elem_of_filter. split; [done |]. congruence.
    + rewrite lookup_insert_ne by done. eauto.
  - intros t set' id' Hset' Hin'.
    apply lookup_insert_Some in Hset' as [[<- <-] | [Hnet Hset']].
    + apply list_elem_of_filter in Hin' as [Hne Hin'].
      destruct (inv_stored _ _ Hinv _ _ _ Hset Hin') as (p & Hp & Ht).
      exists p. by rewrite lookup_delete_ne.
    + destruct (inv_stored _ _ Hinv _ _ _ Hset' Hin') as (p & Hp & Ht).
      exists p. split; [| done].
      rewrite lookup_delete_ne; [done |]. intros <-. congruence.
  - intros t set' id' Hset' Hin'.
    apply lookup_insert_Some in Hset' as [[<- <-] | [Hnet Hset']].
    + apply list_elem_of_filter in Hin' as [Hne Hin'].
      by apply (inv_born _ _ Hinv _ _ _ Hset).
    + by apply (inv_born _ _ Hinv _ _ _ Hset').
  - intros t set' Hset'.
    apply lookup_insert_Some in Hset' as [[<- <-] | [Hnet Hset']].
    + apply StronglySorted_filter. by apply (inv_order _ _ Hinv _ _ Hset).
    + by apply (inv_order _ _ Hinv _ _ Hset').
Qed.

(** Every such state of the store has the invariant. *)
Lemma Reach_inv (log : list JSString) (engine : PolicyEngine.t) :
  Reach log engine -> StoreInv log engine.
Proof.
  induction 1 as [| log engine nanoid now tenantId name rules options _ IH Hfresh
                  | log engine id updates _ IH Hdeclared
                  | log engine id _ IH].
  - apply StoreInv_new.
  - by apply StoreInv_create.
  - by apply StoreInv_update.
  - by apply StoreInv_delete.
Qed.

(** The policies that [listPolicies] finds through the index of a tenant:
    the stored policies of the ids, in the order of the index. *)
Lemma indexed_policies (log : list JSString) (engine : PolicyEngine.t)
    (tenantId : JSString) (tenantSet : list JSString) :
  StoreInv log engine ->
  tenantPolicies engine !! tenantId = Some tenantSet ->
  StronglySorted
    (fun p q => createdBefore log (Policy.id p) (Policy.id q))
    (omap (fun id => policies engine !! id) tenantSet).
Proof.
  intros Hinv Hset. pose proof (inv_order _ _ Hinv _ _ Hset) as Hsorted.
  clear Hset. induction Hsorted as [| id rest Hrest IH Hid]; [constructor |].
  cbn [omap list_omap].
  destruct (policies engine !! id) as [p |] eqn:Hp; [| exact IH].
  constructor; [exact IH |].
  rewrite Forall_forall in Hid. rewrite Forall_forall.
  intros q (id' & Hin & Hq)%list_elem_of_omap.
  rewrite (inv_id _ _ Hinv _ _ Hp), (inv_id _ _ Hinv _ _ Hq). by apply Hid.
Qed.

Lemma listPolicies_elem (log : list JSString) (engine : PolicyEngine.t)
    (tenantId : JSString) (p : Policy.t) :
  StoreInv log engine ->
  p ∈ listPolicies engine tenantId
  <-> policies engine !! Policy.id p = Some p /\ Policy.tenantId p = tenantId.
Proof.
  intros Hinv. unfold listPolicies.
  destruct (tenantPolicies engine !! tenantId) as [set |] eqn:Hset.
  - unfold byPriority. rewrite (sort_perm Policy.priority), list_elem_of_omap.
    split.
    + intros (id & Hin & Hp).
      destruct (inv_stored _ _ Hinv _ _ _ Hset Hin) as (p' & Hp' & Ht).
      assert (p' = p) as -> by congruence.
      by rewrite (inv_id _ _ Hinv _ _ Hp).
    + intros [Hp Ht]. exists (Policy.id p). split; [| done].
      destruct (inv_indexed _ _ Hinv _ _ Hp) as (set' & Hset' & Hin).
      congruence.
  - split; [by intros ?%elem_of_nil |]. intros [Hp Ht].
    destruct (inv_indexed _ _ Hinv _ _ Hp) as (set' & Hset' & Hin). congruence.
Qed.

Lemma createdBefore_irrefl (log : list JSString) (id : JSString) :
  ~ createdBefore log id id.
Proof. intros (i & j & Hi & Hj & Hij). rewrite Hi in Hj. injection Hj. lia. Qed.

Lemma listPolicies_sorted (log : list JSString) (engine : PolicyEngine.t)
    (tenantId : JSString) :
  StoreInv log engine ->
  noNaNPriority engine tenantId ->
  StronglySorted (listedBefore log) (listPolicies engine tenantId).
Proof.
  intros Hinv Hnan. unfold noNaNPriority, listPolicies in *.
  destruct (tenantPolicies engine !! tenantId) as [set |] eqn:Hset;
    [| constructor].
  apply (sort_sorted Policy.priority
           (fun p q => createdBefore log (Policy.id p) (Policy.id q))).
  - apply Forall_forall. intros p Hp. apply Hnan.
    unfold byPriority. by rewrite (sort_perm Policy.priority).
  - by apply (indexed_policies log engine tenantId).
Qed.

Lemma StronglySorted_NoDup {A : Type} (R : A -> A -> Prop) (l : list A) :
  (forall a, ~ R a a) -> StronglySorted R l -> NoDup l.
Proof.
  intros Hirr. induction 1 as [| x l Hl IH Hx]; constructor; [| exact IH].
  rewrite Forall_forall in Hx. intros Hin. by apply (Hirr x), Hx.
Qed.

(** The listing holds no policy twice. *)
Lemma listPolicies_NoDup (log : list JSString) (engine : PolicyEngine.t)
    (tenantId : JSString) :
  StoreInv log engine -> NoDup (listPolicies engine tenantId).
Proof.
  intros Hinv. unfold listPolicies.
  destruct (tenantPolicies engine !! tenantId) as [set |] eqn:Hset;
    [| constructor].
  unfold byPriority. rewrite (sort_perm Policy.priority).
  apply (StronglySorted_NoDup
           (fun p q => createdBefore log (Policy.id p) (Policy.id q))).
  - intros p. apply createdBefore_irrefl.
  - by apply (indexed_policies log engine tenantId).
Qed.

(** The listing in the stores that calls within the declared types reach:
    [listPolicies] returns the stored policies of the tenant, each once.
    When none of them has the priority NaN, they come by descending
    priority, and two policies of equal priority come in the order of
    their creation. *)
Lemma listPolicies_order (log : list JSString) (engine : PolicyEngine.t)
    (tenantId : JSString) :
  Reach log engine ->
  (forall p,
      p ∈ listPolicies engine tenantId
      <-> policies engine !! Policy.id p = Some p
          /\ Policy.tenantId p = tenantId)
  /\ NoDup (listPolicies engine tenantId)
  /\ (noNaNPriority engine tenantId ->
      forall i j p q,
        (i < j)%nat ->
        listPolicies engine tenantId !! i = Some p ->
        listPolicies engine tenantId !! j = Some q ->
        numberLe (Policy.priority q) (Policy.priority p) = true
        /\ (Policy.priority p = Policy.priority q ->
            createdBefore log (Policy.id p) (Policy.id q))).
Proof.
  intros Hinv%Reach_inv.
  split; [intros p; by apply (listPolicies_elem log) |].
  split; [by apply (listPolicies_NoDup log) |].
  intros Hnan i j p q Hij Hi Hj.
  pose proof (listPolicies_sorted log engine tenantId Hinv Hnan) as Hsorted.
  destruct (StronglySorted_lookup _ _ i j p q Hsorted Hij Hi Hj)
    as [Hlt | [Heq Hcreated]].
  - split; [by apply numberBelow_le |].
    intros Heq. rewrite Heq in Hlt. by apply numberBelow_irrefl in Hlt.
  - split; [| done]. rewrite Heq. apply numberLe_refl, Hnan.
    rewrite list_elem_of_lookup. eauto.
Qed.

Lemma Reach_engineABCD :
  Reach [js "a"; js "b"; js "c"; js "d"] engineABCD.
Proof.
  apply (Reach_create [js "a"; js "b"; js "c"] engineABC); [| reflexivity].
  apply (Reach_create [js "a"; js "b"] engineAB); [| reflexivity].
  apply (Reach_create [js "a"] engineA); [| reflexivity].
  apply (Reach_create [] PolicyEngine.new); [| reflexivity].
  apply Reach_new.
Defined.

(** The listing of the example store: "b" first, then "a" before "c". *)
Lemma listPolicies_example :
  map Policy.name (listPolicies engineABCD (js "acme"))
  = [js "B"; js "A"; js "C"]
  /\ map Policy.name (listPolicies engineABCD (js "globex")) = [js "D"].
Proof. vm_compute. split; reflexivity. Qed.

Lemma engineABCD_listing :
  listPolicies engineABCD (js "acme") = [policyB; policyA; policyC].
Proof. vm_compute. reflexivity. Qed.

Lemma engineABCD_noNaN : noNaNPriority engineABCD (js "acme").
Proof.
  intros p. rewrite engineABCD_listing. intros Hp.
  repeat (apply elem_of_cons in Hp as [-> | Hp]; [discriminate |]).
  by apply elem_of_nil in Hp.
Defined.

Lemma listPolicies_order_witness :
  Reach [js "a"; js "b"; js "c"; js "d"] engineABCD
  /\ NoDup (listPolicies engineABCD (js "acme"))
  /\ numberLe (Policy.priority policyA) (Policy.priority policyB) = true
  /\ createdBefore [js "a"; js "b"; js "c"; js "d"] (js "a") (js "c").
Proof.
  destruct (listPolicies_order _ engineABCD (js "acme") Reach_engineABCD)
    as (_ & Hnodup & Horder).
  split; [exact Reach_engineABCD |]. split; [exact Hnodup |]. split.
  - apply (Horder engineABCD_noNaN 0%nat 1%nat policyB policyA);
      [lia | by rewrite engineABCD_listing..].
  - apply (Horder engineABCD_noNaN 1%nat 2%nat policyA policyC);
      [lia | by rewrite engineABCD_listing.. | reflexivity].
Defined.

(** In the stores that calls within the declared types reach, the
    policies that [listPolicies(tenantId)] returns are policies of that
    tenant. *)
Lemma listPolicies_own_tenant (log : list JSString)
    (engine : PolicyEngine.t) (tenantId : JSString) (p : Policy.t) :
  Reach log engine ->
  p ∈ listPolicies engine tenantId ->
  Policy.tenantId p = tenantId.
Proof.
  intros Hinv%Reach_inv Hin.
  by apply (listPolicies_elem log engine tenantId p Hinv) in Hin as [_ Ht].
Qed.

(** C6 fails for the code, in two ways.  [updatePolicy] copies every key of
    the object that it is given, and an object with a key more than the
    declared type has is accepted for it: after
    [updatePolicy('a', movingUpdate)] the policy "a" has the tenant
    "globex", and [listPolicies('globex')] does not return it.  And
    [createPolicy] stores the priority that it is given: in [nanEngine],
    where the second of three policies has the priority NaN, the
    comparator returns NaN for every pair with that policy and the listing
    has the priority 2 after the priority 1. *)
Theorem listPolicies_incomplete_or_unsorted :
  (Policy.tenantId <$> getPolicy movedEngine (js "a")) = Some (js "globex")
  /\ listPolicies movedEngine (js "globex") = []
  /\ map Policy.priority (listPolicies nanEngine (js "acme"))
     = [Finite 1; NaN; Finite 2]
  /\ numberLe (Finite 2) (Finite 1) = false.
Proof. vm_compute. repeat split. Qed.

(** C7 fails for the code.  The declared type of [updates] leaves out
    [tenantId], but [updatePolicy] copies every key of the object that it
    is given, and an object with a key more than the declared type has is
    accepted for it.  After [updatePolicy('a', movingUpdate)] on the store
    with the one policy "a" of "acme", the policy has the tenant "globex"
    and is still in the index of "acme": [listPolicies('acme')] returns a
    policy of "globex". *)
Theorem listPolicies_other_tenant :
  map (fun p => (Policy.id p, Policy.tenantId p))
    (listPolicies movedEngine (js "acme"))
  = [(js "a", js "globex")].
Proof. vm_compute. reflexivity. Qed.

(** The premise on [nanoid()] in [Reach] is needed: were it to return the
    id of a stored policy of another tenant, the listing of that tenant
    would hold the new policy. *)
Lemma nanoid_collision_example :
  map Policy.tenantId
    (listPolicies
       (fst (createPolicy engineA (js "a") 2 (js "globex") (js "G") [] None))
       (js "acme"))
  = [js "globex"].
Proof. vm_compute. reflexivity. Qed.

(** C9, as the code has it: [createPolicy] checks nothing.  Whatever the
    rules, it stores a policy with exactly these rules under the fresh id,
    files the id under the tenant and returns the policy.  Nor does the
    evaluation reject anything: the one call on its path that can throw,
    [new RegExp], accepts the source built from any pattern. *)
Theorem createPolicy_accepts_all (engine : PolicyEngine.t)
    (nanoid : JSString) (now : Z) (tenantId name : JSString)
    (rules : list Rule.t) (options : option CreateOptions.t) :
  getPolicy (fst (createPolicy engine nanoid now tenantId name rules options))
    nanoid
  = Some (snd (createPolicy engine nanoid now tenantId name rules options))
  /\ Policy.rules
       (snd (createPolicy engine nanoid now tenantId name rules options))
     = rules
  /\ (exists tenantSet,
        tenantPolicies
          (fst (createPolicy engine nanoid now tenantId name rules options))
          !! tenantId = Some tenantSet
        /\ nanoid ∈ tenantSet)
  /\ (forall pattern : JSString,
        is_Some (RegExp.compile
                   (js "^" ++ starToDotStar (escapeSpecial pattern) ++ js "$"))).
Proof.
  unfold createPolicy, getPolicy. cbn [fst snd policies tenantPolicies Policy.id
    Policy.rules]. rewrite !lookup_insert_eq.
  split; [reflexivity |]. split; [reflexivity |]. split.
  - eexists. split; [reflexivity |]. unfold setAdd.
    case_bool_decide; [done |]. apply elem_of_app. right.
    apply list_elem_of_here.
  - intros pattern. rewrite regex_always_compiles. eauto.
Qed.

(** C9, as stated, fails: a rule whose condition has the operator
    "matches" is not rejected.  The policy is stored with the rule, it is
    listed, and the evaluation uses it (and allows the request). *)
Lemma createPolicy_accepts_unknown_operator :
  (Cond.operator oddCondition ∉ knownOperators)
  /\ map Policy.rules
       (listPolicies
          (fst (createPolicy PolicyEngine.new (js "p1") 0 (js "acme")
                  (js "Odd") [allowAllIf oddCondition] None))
          (js "acme"))
     = [[allowAllIf oddCondition]]
  /\ evaluate
       (fst (createPolicy PolicyEngine.new (js "p1") 0 (js "acme")
               (js "Odd") [allowAllIf oddCondition] None))
       (js "acme") someRequest
     = EvalResult.mk true
         (js "Matched policy " ++ [dquote] ++ js "Odd" ++ [dquote]
            ++ js " rule 1")
         (Some (js "p1")) (Some 0%nat).
Proof.
  split; [| split; vm_compute; reflexivity].
  by_evaluation.
Qed.

End Store.


(* ===================================================================== *)
(** * Part VIII: further properties of the two files                      *)
(* ===================================================================== *)

(** ** Patterns *)

Section MorePatterns.

Import RegExp.

Lemma Glob_literal (pattern value : JSString) :
  star ∉ pattern -> (Glob pattern value <-> value = pattern).
Proof.
  intros Hstar. split.
  - induction 1 as [| c p s Hc H IH | run p s Hrun H IH].
    + reflexivity.
    + f_equal. apply IH. intros Hin. apply Hstar. by apply list_elem_of_further.
    + destruct Hstar. apply list_elem_of_here.
  - intros ->. induction pattern as [| c pattern IH]; [constructor |].
    constructor.
    + intros ->. apply Hstar, list_elem_of_here.
    + apply IH. intros Hin. apply Hstar. by apply list_elem_of_further.
Qed.

Lemma Glob_refl (pattern : JSString) : Glob pattern pattern.
Proof.
  induction pattern as [| c pattern IH]; [constructor |].
  destruct (decide (c = star)) as [-> | Hc].
  - apply (Glob_star [star] pattern pattern); [| exact IH].
    repeat constructor.
  - by constructor.
Qed.

Lemma Glob_prefix (prefix pattern value : JSString) :
  star ∉ prefix ->
  Glob (prefix ++ pattern) value
  <-> exists rest, value = prefix ++ rest /\ Glob pattern rest.
Proof.
  intros Hstar. revert value.
  induction prefix as [| c prefix IH]; intros value; cbn [app].
  - split; [eauto | by intros (rest & -> & H)].
  - assert (Hc : c ≠ star) by (intros ->; apply Hstar, list_elem_of_here).
    assert (Hrest : star ∉ prefix)
      by (intros Hin; apply Hstar; by apply list_elem_of_further).
    split.
    + inversion 1 as [| c' p s _ Htail | run p s _ _ Heq]; subst; [| done].
      apply (IH Hrest) in Htail as (rest & -> & Htail). eauto.
    + intros (rest & -> & H). constructor; [done |].
      apply (IH Hrest). eauto.
Qed.

Lemma Glob_star_only (value : JSString) :
  Glob [star] value <-> noLineTerminator value.
Proof.
  split.
  - intros (run & rest & -> & Hrun & Hnil)%Glob_star_inv.
    inversion Hnil; subst. by rewrite app_nil_r.
  - intros Hvalue. rewrite <- (app_nil_r value). by constructor; [| constructor].
Qed.

(** X1: a pattern without a star matches exactly itself: the characters
    that mean something in a regular expression stand for themselves. *)
Theorem matchesPattern_literal (pattern value : JSString) :
  star ∉ pattern ->
  (matchesPattern pattern value = true <-> value = pattern).
Proof.
  intros Hstar. rewrite matchesPattern_spec, (Glob_literal _ _ Hstar).
  split; [| by right]. intros [-> | ->]; [| done].
  destruct Hstar. apply list_elem_of_here.
Qed.

Lemma matchesPattern_literal_witness :
  (star ∉ js "a.b+c(d)[e]")
  /\ (matchesPattern (js "a.b+c(d)[e]") (js "a.b+c(d)[e]") = true
      <-> js "a.b+c(d)[e]" = js "a.b+c(d)[e]").
Proof.
  assert (Hstar : star ∉ js "a.b+c(d)[e]") by by_evaluation.
  exact (conj Hstar (matchesPattern_literal _ _ Hstar)).
Defined.

(** X2: every pattern matches itself, read as a subject. *)
Theorem matchesPattern_self (pattern : JSString) :
  matchesPattern pattern pattern = true.
Proof.
  apply matchesPattern_spec. right. apply Glob_refl.
Qed.

(** X3: a pattern made of a non-empty text without stars and a final star
    matches the subjects that start with the text and go on without a line
    terminator, and no others. *)
Theorem matchesPattern_prefix (prefix value : JSString) :
  prefix ≠ [] ->
  star ∉ prefix ->
  (matchesPattern (prefix ++ [star]) value = true
   <-> exists rest, value = prefix ++ rest /\ noLineTerminator rest).
Proof.
  intros Hne Hstar. rewrite matchesPattern_spec, (Glob_prefix _ _ _ Hstar).
  setoid_rewrite Glob_star_only. split; [| by right].
  intros [Heq | H]; [| done].
  destruct prefix as [| c prefix]; [done |].
  change (js "*") with [star] in Heq. cbn [app] in Heq.
  injection Heq as -> Heq. destruct Hstar. apply list_elem_of_here.
Qed.

Lemma matchesPattern_prefix_witness :
  js "task:" ≠ []
  /\ (star ∉ js "task:")
  /\ (matchesPattern (js "task:" ++ [star]) (js "task:42") = true
      <-> exists rest, js "task:42" = js "task:" ++ rest /\ noLineTerminator rest).
Proof.
  assert (Hne : js "task:" ≠ []) by discriminate.
  assert (Hstar : star ∉ js "task:") by by_evaluation.
  exact (conj Hne (conj Hstar (matchesPattern_prefix _ _ Hne Hstar))).
Defined.

End MorePatterns.

(** ** The rule matcher *)

Section Matcher.

Lemma matchesActor_iff (actors : list ActorMatcher.t) (actorType : ActorType)
    (actorId : JSString) :
  matchesActor actors actorType actorId = true
  <-> exists actor,
        actor ∈ actors
        /\ (ActorMatcher.type actor = actorType
            \/ ActorMatcher.type actor = ActorAny)
        /\ matchesPattern (ActorMatcher.pattern actor) actorId = true.
Proof.
  induction actors as [| actor actors IH]; cbn [matchesActor].
  - split; [done | by intros (? & ?%elem_of_nil & _)].
  - destruct (decide (ActorMatcher.type actor = actorType)) as [Ht | Ht];
      destruct (decide (ActorMatcher.type actor = ActorAny)) as [Ha | Ha];
      rewrite ?(bool_decide_eq_true_2 _ Ht), ?(bool_decide_eq_false_2 _ Ht),
        ?(bool_decide_eq_true_2 _ Ha), ?(bool_decide_eq_false_2 _ Ha);
      cbn [negb andb];
      try (destruct (matchesPattern (ActorMatcher.pattern actor) actorId) eqn:Hp;
           [split; [intros _; exists actor; split; [apply list_elem_of_here | auto]
                   | done] |]);
      rewrite IH; split;
      try (intros (a & Hin & Hrest); exists a; split;
           [by apply list_elem_of_further | done]);
      intros (a & [-> | Hin]%elem_of_cons & Htype & Hpat); eauto;
      first [congruence | by destruct Htype].
Qed.

Lemma matchesResource_iff (resources : list JSString) (resource : JSString) :
  matchesResource resources resource = true
  <-> exists pattern,
        pattern ∈ resources /\ matchesPattern pattern resource = true.
Proof.
  induction resources as [| pattern resources IH]; cbn [matchesResource].
  - split; [done | by intros (? & ?%elem_of_nil & _)].
  - destruct (matchesPattern pattern resource) eqn:Hp.
    + split; [| done]. intros _. exists pattern.
      split; [apply list_elem_of_here | done].
    + rewrite IH. split.
      * intros (q & Hin & Hq). exists q. split; [by apply list_elem_of_further | done].
      * intros (q & [-> | Hin]%elem_of_cons & Hq); [congruence | eauto].
Qed.

Lemma matchesAction_iff (actions : list PermissionAction)
    (action : PermissionAction) :
  matchesAction actions action = true <-> ActAny ∈ actions \/ action ∈ actions.
Proof.
  unfold matchesAction. by rewrite orb_true_iff, !bool_decide_eq_true.
Qed.

Lemma matchesConditions_iff (conditions : list Cond.t) (context : Context) :
  matchesConditions conditions context = true
  <-> forall condition,
        condition ∈ conditions -> conditionPasses condition context = true.
Proof.
  induction conditions as [| c conditions IH]; cbn [matchesConditions].
  - split; [by intros _ ? ?%elem_of_nil | done].
  - destruct (conditionPasses c context) eqn:Hc.
    + rewrite IH. split.
      * intros H c' [-> | Hin]%elem_of_cons; auto.
      * intros H c' Hin. apply H. by apply list_elem_of_further.
    + split; [done |]. intros H. rewrite <- Hc. apply H, list_elem_of_here.
Qed.

(** X4: a rule matches a request exactly when one of its actor matchers
    has the type of the actor (or the wildcard type) and a pattern that
    matches the actor id, one of its resource patterns matches the resource,
    its actions hold the wildcard or the action, and each of its conditions
    passes in the context of the request (the empty context when the
    request has none).  A rule with no actor matcher, no resource or no
    action therefore matches nothing. *)
Theorem matchesRule_iff (rule : Rule.t) (options : Req.t) :
  matchesRule rule options = true
  <-> (exists actor,
         actor ∈ Rule.actors rule
         /\ (ActorMatcher.type actor = Req.actorType options
             \/ ActorMatcher.type actor = ActorAny)
         /\ matchesPattern (ActorMatcher.pattern actor) (Req.actorId options)
            = true)
      /\ (exists pattern,
            pattern ∈ Rule.resources rule
            /\ matchesPattern pattern (Req.resource options) = true)
      /\ (ActAny ∈ Rule.actions rule \/ Req.action options ∈ Rule.actions rule)
      /\ (forall condition,
            condition ∈ default [] (Rule.conditions rule) ->
            conditionPasses condition (default ∅ (Req.context options)) = true).
Proof.
  rewrite matchesRule_conditions, !andb_true_iff.
  rewrite matchesActor_iff, matchesResource_iff, matchesAction_iff,
    matchesConditions_iff.
  tauto.
Qed.

End Matcher.

(** ** What an evaluation result tells *)

Section EvaluationResults.

Lemma evalRules_inv (policy : Policy.t) (rules : list Rule.t) (i : nat)
    (options : Req.t) :
  match evalRules policy rules i options with
  | Some result =>
      exists before rule after,
        rules = before ++ rule :: after
        /\ (forall r, r ∈ before -> matchesRule r options = false)
        /\ matchesRule rule options = true
        /\ result = matched policy rule (i + length before)
  | None => forall rule, rule ∈ rules -> matchesRule rule options = false
  end.
Proof.
  revert i. induction rules as [| rule rules IH]; intros i; cbn [evalRules].
  - by intros ? ?%elem_of_nil.
  - destruct (matchesRule rule options) eqn:Hrule.
    + exists [], rule, rules. cbn [app length]. rewrite Nat.add_0_r.
      repeat split; [by intros ? ?%elem_of_nil | done].
    + specialize (IH (S i)).
      destruct (evalRules policy rules (S i) options) as [result |].
      * destruct IH as (before & r & after & -> & Hbefore & Hr & ->).
        exists (rule :: before), r, after. cbn [app length].
        repeat split; [| done | f_equal; lia].
        intros x [-> | Hin]%elem_of_cons; auto.
      * intros x [-> | Hin]%elem_of_cons; auto.
Qed.

Lemma evalPolicies_inv (policies : list Policy.t) (options : Req.t) :
  match evalPolicies policies options with
  | Some result =>
      exists before policy after rulesBefore rule rulesAfter,
        policies = before ++ policy :: after
        /\ noRuleMatches before options
        /\ Policy.rules policy = rulesBefore ++ rule :: rulesAfter
        /\ (forall r, r ∈ rulesBefore -> matchesRule r options = false)
        /\ matchesRule rule options = true
        /\ result = matched policy rule (length rulesBefore)
  | None => noRuleMatches policies options
  end.
Proof.
  induction policies as [| policy policies IH]; cbn [evalPolicies].
  - by intros ? ? ?%elem_of_nil.
  - pose proof (evalRules_inv policy (Policy.rules policy) 0 options) as Hrules.
    destruct (evalRules policy (Policy.rules policy) 0 options) as [result |].
    + destruct Hrules as (rulesBefore & rule & rulesAfter & Hr & Hb & Hm & ->).
      exists [], policy, policies, rulesBefore, rule, rulesAfter.
      repeat split; try done. by intros ? ? ?%elem_of_nil.
    + destruct (evalPolicies policies options) as [result |].
      * destruct IH as (before & p & after & rb & r & ra & -> & Hb & Hrest).
        exists (policy :: before), p, after, rb, r, ra.
        split; [done |]. split; [| exact Hrest].
        intros q x [-> | Hin]%elem_of_cons; [apply Hrules | by apply Hb].
      * intros q x [-> | Hin]%elem_of_cons; [apply Hrules | by apply IH].
Qed.

(** X5: an evaluation has one of three outcomes, and each tells how it came
    about.  It is "No policies defined" and the tenant has no enabled
    policy; or it is the default deny, the tenant has enabled policies and
    none of their rules matches; or it is the result for rule [i] of an
    enabled policy, that rule matches, no earlier rule of the policy does
    and no rule of the policies listed before it does. *)
Theorem evaluate_outcomes (engine : PolicyEngine.t) (tenantId : JSString)
    (options : Req.t) :
  (enabledPolicies engine tenantId = []
   /\ evaluate engine tenantId options = noPolicies)
  \/ (enabledPolicies engine tenantId ≠ []
      /\ noRuleMatches (enabledPolicies engine tenantId) options
      /\ evaluate engine tenantId options = defaultDenyResult)
  \/ (exists before policy after rulesBefore rule rulesAfter,
        enabledPolicies engine tenantId = before ++ policy :: after
        /\ noRuleMatches before options
        /\ Policy.rules policy = rulesBefore ++ rule :: rulesAfter
        /\ (forall r, r ∈ rulesBefore -> matchesRule r options = false)
        /\ matchesRule rule options = true
        /\ evaluate engine tenantId options
           = matched policy rule (length rulesBefore)).
Proof.
  rewrite evaluate_unfold.
  pose proof (evalPolicies_inv (enabledPolicies engine tenantId) options) as H.
  destruct (enabledPolicies engine tenantId) as [| p ps] eqn:Hen; [by left |].
  right. destruct (evalPolicies (p :: ps) options) as [result |].
  - right. exact H.
  - left. by repeat split.
Qed.

(** X6: the engine allows nothing on its own.  When [evaluate] allows a
    request, the tenant has an enabled policy with a rule of effect "allow"
    that matches the request; the result names that policy and the index of
    the rule in it. *)
Theorem evaluate_allowed_by_rule (engine : PolicyEngine.t)
    (tenantId : JSString) (options : Req.t) :
  EvalResult.allowed (evaluate engine tenantId options) = true ->
  exists policy rule i,
    policy ∈ listPolicies engine tenantId
    /\ Policy.enabled policy = true
    /\ Policy.rules policy !! i = Some rule
    /\ Rule.effect rule = Allow
    /\ matchesRule rule options = true
    /\ EvalResult.matchedPolicy (evaluate engine tenantId options)
       = Some (Policy.id policy)
    /\ EvalResult.matchedRule (evaluate engine tenantId options) = Some i.
Proof.
  rewrite evaluate_unfold.
  pose proof (evalPolicies_inv (enabledPolicies engine tenantId) options) as H.
  destruct (enabledPolicies engine tenantId) as [| p ps] eqn:Hen; [done |].
  destruct (evalPolicies (p :: ps) options) as [result |]; [| done].
  destruct H as (before & policy & after & rb & rule & ra & Hlist & _ & Hrules
                 & _ & Hmatch & ->).
  cbn. intros Heffect%bool_decide_eq_true.
  assert (Hin : policy ∈ enabledPolicies engine tenantId).
  { rewrite Hen, Hlist. apply elem_of_app. right. apply list_elem_of_here. }
  apply list_elem_of_In, filter_In in Hin as [Hin%list_elem_of_In Henabled].
  exists policy, rule, (length rb). repeat split; try done.
  rewrite Hrules. by rewrite list_lookup_middle.
Qed.

Lemma evaluate_allowed_by_rule_witness :
  exists policy rule i,
    policy ∈ listPolicies docsEngine (js "acme")
    /\ Policy.enabled policy = true
    /\ Policy.rules policy !! i = Some rule
    /\ Rule.effect rule = Allow
    /\ matchesRule rule someRequest = true
    /\ EvalResult.matchedPolicy (evaluate docsEngine (js "acme") someRequest)
       = Some (Policy.id policy)
    /\ EvalResult.matchedRule (evaluate docsEngine (js "acme") someRequest)
       = Some i.
Proof.
  apply (evaluate_allowed_by_rule docsEngine (js "acme") someRequest).
  vm_compute. reflexivity.
Defined.

(** The policy that a result names is an enabled policy of the tenant. *)
Lemma matchedPolicy_enabled (engine : PolicyEngine.t) (tenantId : JSString)
    (options : Req.t) (id : JSString) :
  EvalResult.matchedPolicy (evaluate engine tenantId options) = Some id ->
  exists policy,
    policy ∈ listPolicies engine tenantId
    /\ Policy.enabled policy = true
    /\ Policy.id policy = id.
Proof.
  pose proof (evaluate_unfold engine tenantId options) as Hev.
  pose proof (evalPolicies_inv (enabledPolicies engine tenantId) options) as H.
  destruct (enabledPolicies engine tenantId) as [| p ps] eqn:Hen;
    [by rewrite Hev |].
  destruct (evalPolicies (p :: ps) options) as [result |]; [| by rewrite Hev].
  destruct H as (before & policy & after & rb & rule & ra & Hlist & _ & _
                 & _ & _ & ->).
  rewrite Hev. cbn. intros [= <-].
  assert (Hin : policy ∈ enabledPolicies engine tenantId).
  { rewrite Hen, Hlist. apply elem_of_app. right. apply list_elem_of_here. }
  apply list_elem_of_In, filter_In in Hin as [Hin%list_elem_of_In Henabled].
  eauto.
Qed.

End EvaluationResults.

(** ** The store: how the operations change the listings *)

Section StoreOperations.

Lemma omap_agree {A B : Type} (f g : A -> option B) (l : list A) :
  (forall x, x ∈ l -> f x = g x) -> omap f l = omap g l.
Proof.
  induction l as [| x l IH]; intros Hfg; [reflexivity |].
  cbn [omap list_omap]. rewrite (Hfg x) by apply list_elem_of_here.
  rewrite IH; [reflexivity |]. intros y Hy. apply Hfg. by apply list_elem_of_further.
Qed.

(** [evaluate] reads the store through the listing of the tenant only. *)
Lemma evaluate_listing (engine1 engine2 : PolicyEngine.t)
    (tenantId : JSString) (options : Req.t) :
  listPolicies engine1 tenantId = listPolicies engine2 tenantId ->
  evaluate engine1 tenantId options = evaluate engine2 tenantId options.
Proof. intros H. unfold evaluate. by rewrite H. Qed.

(** The listing of a tenant is the same in two stores that give the tenant
    the same index and the ids of the index the same policies. *)
Lemma listPolicies_agree (engine1 engine2 : PolicyEngine.t)
    (tenantId : JSString) :
  tenantPolicies engine1 !! tenantId = tenantPolicies engine2 !! tenantId ->
  (forall tenantSet id,
      tenantPolicies engine2 !! tenantId = Some tenantSet ->
      id ∈ tenantSet ->
      policies engine1 !! id = policies engine2 !! id) ->
  listPolicies engine1 tenantId = listPolicies engine2 tenantId.
Proof.
  intros Hindex Hpolicies. unfold listPolicies. rewrite Hindex.
  destruct (tenantPolicies engine2 !! tenantId) as [set |] eqn:Hset;
    [| reflexivity].
  f_equal. apply omap_agree. intros id Hin. by apply (Hpolicies set).
Qed.

Lemma filter_other_ids (id : JSString) (tenantSet : list JSString) :
  id ∉ tenantSet -> filter (fun y => y ≠ id) tenantSet = tenantSet.
Proof.
  induction tenantSet as [| x tenantSet IH]; intros Hid; [reflexivity |].
  rewrite filter_cons.
  destruct (decide (x ≠ id)) as [Hx | Hx].
  - f_equal. apply IH. intros Hin. apply Hid. by apply list_elem_of_further.
  - destruct Hid. apply dec_stable in Hx. subst x. apply list_elem_of_here.
Qed.

(** X7: creating a policy adds it, and nothing else, to the listing of its
    tenant; the listing of any other tenant, and so every evaluation for
    another tenant, stays as it was. *)
Theorem createPolicy_listing (log : list JSString) (engine : PolicyEngine.t)
    (nanoid : JSString) (now : Z) (tenantId name : JSString)
    (rules : list Rule.t) (options : option CreateOptions.t) :
  Reach log engine ->
  policies engine !! nanoid = None ->
  (forall tenant p,
      p ∈ listPolicies
            (fst (createPolicy engine nanoid now tenantId name rules options))
            tenant
      <-> p ∈ listPolicies engine tenant
          \/ (tenant = tenantId
              /\ p = snd (createPolicy engine nanoid now tenantId name rules
                            options)))
  /\ (forall tenant request,
        tenant ≠ tenantId ->
        listPolicies
          (fst (createPolicy engine nanoid now tenantId name rules options))
          tenant
        = listPolicies engine tenant
        /\ evaluate
             (fst (createPolicy engine nanoid now tenantId name rules options))
             tenant request
           = evaluate engine tenant request).
Proof.
  intros Hinv%Reach_inv Hfresh.
  pose proof (StoreInv_create log engine nanoid now tenantId name rules options
                Hinv Hfresh) as Hinv'.
  split.
  - intros tenant p.
    rewrite (listPolicies_elem _ _ _ _ Hinv'), (listPolicies_elem _ _ _ _ Hinv).
    unfold createPolicy. cbn [fst snd policies Policy.id].
    rewrite lookup_insert_Some. split.
    + intros [[[Hid Hp] | [Hne Hp]] Ht]; [right | left; done].
      subst p. cbn in Ht. done.
    + intros [[Hp Ht] | [-> ->]].
      * split; [| done]. right. split; [| done]. intros Heq.
        rewrite <- Heq in Hp. congruence.
      * cbn. split; [by left | done].
  - intros tenant request Hne.
    assert (Hlist : listPolicies
              (fst (createPolicy engine nanoid now tenantId name rules options))
              tenant
            = listPolicies engine tenant).
    { apply listPolicies_agree; unfold createPolicy; cbn [fst policies
        tenantPolicies Policy.id].
      - by rewrite lookup_insert_ne.
      - intros set id Hset Hin. rewrite lookup_insert_ne; [done |].
        intros <-. by apply (fresh_not_indexed _ _ _ _ _ Hinv Hfresh Hset). }
    split; [exact Hlist | by apply evaluate_listing].
Qed.

Lemma createPolicy_listing_witness :
  Reach [js "a"; js "b"; js "c"; js "d"] engineABCD
  /\ policies engineABCD !! js "e" = None
  /\ listPolicies
       (fst (createPolicy engineABCD (js "e") 5 (js "acme") (js "E") [] None))
       (js "globex")
     = listPolicies engineABCD (js "globex").
Proof.
  split; [exact Reach_engineABCD |]. split; [reflexivity |].
  refine (proj1 (proj2 (createPolicy_listing _ engineABCD (js "e") 5 (js "acme")
                          (js "E") [] None Reach_engineABCD eq_refl)
                   (js "globex") someRequest _)).
  discriminate.
Defined.

Lemma deletePolicy_stored (engine : PolicyEngine.t) (id : JSString)
    (policy : Policy.t) :
  policies engine !! id = Some policy ->
  deletePolicy engine id
  = (PolicyEngine.mk (delete id (policies engine))
       (match tenantPolicies engine !! Policy.tenantId policy with
        | Some tenantSet =>
            <[Policy.tenantId policy := setDelete id tenantSet]>
              (tenantPolicies engine)
        | None => tenantPolicies engine
        end),
     true).
Proof. intros Hpolicy. unfold deletePolicy. by rewrite Hpolicy. Qed.

(** X8: deleting an id that is not stored returns false and changes
    nothing.  Deleting a stored policy returns true; the id is then unknown
    to [getPolicy], the other ids keep their policies and no listing gains
    a policy.  In a store that calls within the declared types reach, the
    policy is gone from the listing of its tenant, which keeps its other
    policies, and the listings of the other tenants, and the evaluations
    for them, stay as they were. *)
Theorem deletePolicy_listing (engine : PolicyEngine.t) (id : JSString) :
  (policies engine !! id = None -> deletePolicy engine id = (engine, false))
  /\ (forall policy,
        policies engine !! id = Some policy ->
        snd (deletePolicy engine id) = true
        /\ getPolicy (fst (deletePolicy engine id)) id = None
        /\ (forall id',
              id' ≠ id ->
              getPolicy (fst (deletePolicy engine id)) id'
              = getPolicy engine id')
        /\ (forall tenant p,
              p ∈ listPolicies (fst (deletePolicy engine id)) tenant ->
              p ∈ listPolicies engine tenant)
        /\ (forall log,
              Reach log engine ->
              (forall tenant p,
                  p ∈ listPolicies (fst (deletePolicy engine id)) tenant
                  <-> p ∈ listPolicies engine tenant /\ p ≠ policy)
              /\ (forall tenant request,
                    tenant ≠ Policy.tenantId policy ->
                    listPolicies (fst (deletePolicy engine id)) tenant
                    = listPolicies engine tenant
                    /\ evaluate (fst (deletePolicy engine id)) tenant request
                       = evaluate engine tenant request))).
Proof.
  split; [intros Hnone; unfold deletePolicy; by rewrite Hnone |].
  intros policy Hpolicy. rewrite (deletePolicy_stored _ _ _ Hpolicy).
  cbn [fst snd]. unfold getPolicy. cbn [policies].
  split; [reflexivity |]. split; [apply lookup_delete_eq |].
  split; [intros id' Hne; by apply lookup_delete_ne |].
  split.
  - intros tenant p. rewrite !listPolicies_indexed.
    cbn [policies tenantPolicies].
    intros (set' & id' & Hset' & Hin' & [Hne Hp]%lookup_delete_Some).
    destruct (tenantPolicies engine !! Policy.tenantId policy)
      as [set |] eqn:Hset; [| by exists set', id'].
    apply lookup_insert_Some in Hset' as [[<- <-] | [_ Hset']];
      [| by exists set', id'].
    apply list_elem_of_filter in Hin' as [_ Hin']. by exists set, id'.
  - intros log Hinv%Reach_inv.
    pose proof (StoreInv_delete log engine id Hinv) as Hinv'.
    rewrite (deletePolicy_stored _ _ _ Hpolicy) in Hinv'. cbn [fst] in Hinv'.
    destruct (inv_indexed _ _ Hinv _ _ Hpolicy) as (set & Hset & Hin).
    rewrite Hset in Hinv' |- *. split.
    + intros tenant p.
      rewrite (listPolicies_elem _ _ _ _ Hinv'),
        (listPolicies_elem _ _ _ _ Hinv).
      cbn [policies]. rewrite lookup_delete_Some. split.
      * intros [[Hne Hp] Ht]. repeat split; try done. intros ->.
        apply Hne. symmetry. by apply (inv_id _ _ Hinv).
      * intros [[Hp Ht] Hne]. repeat split; try done. intros Heq.
        rewrite <- Heq in Hp. congruence.
    + intros tenant request Hne.
      assert (Hlist : listPolicies
                        (PolicyEngine.mk (delete id (policies engine))
                           (<[Policy.tenantId policy := setDelete id set]>
                              (tenantPolicies engine))) tenant
                      = listPolicies engine tenant).
      { apply listPolicies_agree; cbn [policies tenantPolicies].
        - by rewrite lookup_insert_ne.
        - intros set' id' Hset' Hin'. rewrite lookup_delete_ne; [done |].
          intros <-.
          destruct (inv_stored _ _ Hinv _ _ _ Hset' Hin') as (p & Hp & Ht).
          congruence. }
      split; [exact Hlist | by apply evaluate_listing].
Qed.

Lemma engineABCD_stored_b : policies engineABCD !! js "b" = Some policyB.
Proof. vm_compute. reflexivity. Qed.

Lemma deletePolicy_listing_witness :
  snd (deletePolicy engineABCD (js "b")) = true
  /\ (policyB ∉ listPolicies (fst (deletePolicy engineABCD (js "b")))
                 (js "acme"))
  /\ listPolicies (fst (deletePolicy engineABCD (js "b"))) (js "globex")
     = listPolicies engineABCD (js "globex").
Proof.
  destruct (proj2 (deletePolicy_listing engineABCD (js "b")) policyB
              engineABCD_stored_b)
    as (Htrue & _ & _ & _ & Hreach).
  destruct (Hreach _ Reach_engineABCD) as [Hlisting Hother].
  split; [exact Htrue |]. split.
  - intros Hin. apply Hlisting in Hin as [_ Hne]. by apply Hne.
  - apply (Hother (js "globex") someRequest). discriminate.
Defined.



(** X10: creating a policy and deleting it again leaves every listing, and
    so every evaluation, as it was before the two calls. *)
Theorem create_then_delete (log : list JSString) (engine : PolicyEngine.t)
    (nanoid : JSString) (now : Z) (tenantId name : JSString)
    (rules : list Rule.t) (options : option CreateOptions.t)
    (tenant : JSString) (request : Req.t) :
  Reach log engine ->
  policies engine !! nanoid = None ->
  snd (deletePolicy
         (fst (createPolicy engine nanoid now tenantId name rules options))
         nanoid) = true
  /\ listPolicies
       (fst (deletePolicy
               (fst (createPolicy engine nanoid now tenantId name rules options))
               nanoid))
       tenant
     = listPolicies engine tenant
  /\ evaluate
       (fst (deletePolicy
               (fst (createPolicy engine nanoid now tenantId name rules options))
               nanoid))
       tenant request
     = evaluate engine tenant request.
Proof.
  intros Hinv%Reach_inv Hfresh.
  set (set0 := default [] (tenantPolicies engine !! tenantId)).
  assert (Hnot : nanoid ∉ set0).
  { subst set0. destruct (tenantPolicies engine !! tenantId) eqn:Ht; cbn.
    - by apply (fresh_not_indexed _ _ _ _ _ Hinv Hfresh Ht).
    - apply not_elem_of_nil. }
  assert (Hdel : deletePolicy
                   (fst (createPolicy engine nanoid now tenantId name rules options))
                   nanoid
                 = (PolicyEngine.mk (policies engine)
                      (<[tenantId := set0]> (tenantPolicies engine)), true)).
  { unfold deletePolicy, createPolicy.
    cbn [fst policies tenantPolicies Policy.id Policy.tenantId].
    rewrite !lookup_insert_eq. cbn [Policy.tenantId].
    rewrite insert_insert_eq.
    rewrite delete_insert_eq, delete_id by done.
    fold set0. rewrite (setAdd_fresh _ _ Hnot). unfold setDelete.
    rewrite filter_app, (filter_other_ids _ _ Hnot), filter_cons, filter_nil.
    destruct (decide (nanoid ≠ nanoid)); [done |]. by rewrite app_nil_r. }
  rewrite Hdel. cbn [fst snd]. split; [reflexivity |].
  assert (Hlist : listPolicies
                    (PolicyEngine.mk (policies engine)
                       (<[tenantId := set0]> (tenantPolicies engine))) tenant
                  = listPolicies engine tenant).
  { unfold listPolicies. cbn [policies tenantPolicies].
    destruct (decide (tenant = tenantId)) as [-> | Hne].
    - rewrite lookup_insert_eq. subst set0.
      by destruct (tenantPolicies engine !! tenantId).
    - by rewrite lookup_insert_ne. }
  split; [exact Hlist | by apply evaluate_listing].
Qed.

Lemma create_then_delete_witness :
  Reach [js "a"; js "b"; js "c"; js "d"] engineABCD
  /\ policies engineABCD !! js "e" = None
  /\ listPolicies
       (fst (deletePolicy
               (fst (createPolicy engineABCD (js "e") 5 (js "initech") (js "E")
                       [] None))
               (js "e")))
       (js "initech")
     = listPolicies engineABCD (js "initech").
Proof.
  split; [exact Reach_engineABCD |]. split; [reflexivity |].
  exact (proj1 (proj2 (create_then_delete _ engineABCD (js "e") 5 (js "initech")
                         (js "E") [] None (js "initech") someRequest
                         Reach_engineABCD eq_refl))).
Defined.

Lemma ofEnabled_declared (flag : bool) :
  Updates.declared (Updates.ofEnabled flag).
Proof. by repeat split. Qed.

(** X11: a disabled policy takes no part in the evaluation.  After
    [disablePolicy(id)] the policy that a result names is an enabled policy
    stored under another id and, in a store that calls within the declared
    types reach, no result names the policy [id]. *)
Theorem disablePolicy_excludes (api : PermissionAPI.t)
    (id tenantId : JSString) (options : Req.t) :
  (forall matched,
      EvalResult.matchedPolicy
        (evaluate
           (PermissionAPI.policyEngine
              (fst (PermissionAPI.disablePolicy api id)))
           tenantId options)
      = Some matched ->
      exists key policy,
        key ≠ id
        /\ policies (PermissionAPI.policyEngine api) !! key = Some policy
        /\ Policy.enabled policy = true
        /\ Policy.id policy = matched)
  /\ (forall log,
        Reach log (PermissionAPI.policyEngine api) ->
        EvalResult.matchedPolicy
          (evaluate
             (PermissionAPI.policyEngine
                (fst (PermissionAPI.disablePolicy api id)))
             tenantId options)
        ≠ Some id).
Proof.
  set (updates := Updates.ofEnabled false).
  assert (Hengine :
            PermissionAPI.policyEngine (fst (PermissionAPI.disablePolicy api id))
            = fst (updatePolicy (PermissionAPI.policyEngine api) id updates)).
  { unfold PermissionAPI.disablePolicy, PermissionAPI.updatePolicy.
    fold updates.
    by destruct (updatePolicy (PermissionAPI.policyEngine api) id updates). }
  rewrite Hengine.
  assert (Hkeys : forall matched,
            EvalResult.matchedPolicy
              (evaluate
                 (fst (updatePolicy (PermissionAPI.policyEngine api) id updates))
                 tenantId options)
            = Some matched ->
            exists key policy,
              key ≠ id
              /\ policies (PermissionAPI.policyEngine api) !! key = Some policy
              /\ Policy.enabled policy = true
              /\ Policy.id policy = matched).
  { intros matched Hmatched.
    apply matchedPolicy_enabled in Hmatched as (policy & Hin & Henabled & Hid).
    apply listPolicies_indexed in Hin as (set & key & _ & _ & Hstored).
    exists key, policy. unfold updatePolicy in Hstored.
    destruct (policies (PermissionAPI.policyEngine api) !! id) as [p |] eqn:Hp;
      cbn [fst policies] in Hstored.
    - apply lookup_insert_Some in Hstored as [[<- <-] | [Hne Hstored]].
      + cbn in Henabled. discriminate.
      + by repeat split.
    - repeat split; try done. intros ->. congruence. }
  split; [exact Hkeys |].
  intros log Hinv%Reach_inv Hmatched.
  destruct (Hkeys id Hmatched) as (key & policy & Hne & Hstored & _ & Hid).
  apply Hne. rewrite <- Hid. symmetry. by apply (inv_id _ _ Hinv).
Qed.

Lemma disablePolicy_excludes_witness :
  EvalResult.matchedPolicy
    (evaluate
       (PermissionAPI.policyEngine
          (fst (PermissionAPI.disablePolicy
                  (PermissionAPI.mk engineABCD emptyLogger true true)
                  (js "b"))))
       (js "acme") someRequest)
  ≠ Some (js "b").
Proof.
  exact (proj2 (disablePolicy_excludes
                  (PermissionAPI.mk engineABCD emptyLogger true true) (js "b")
                  (js "acme") someRequest)
           _ Reach_engineABCD).
Defined.

(** X12: [disablePolicy] and then [enablePolicy] leave a stored policy
    enabled and otherwise as it was, so for a policy that was enabled the
    store is back to what it was; for an id that is not stored both return
    nothing and change nothing. *)
Theorem disable_then_enable (api : PermissionAPI.t) (id : JSString) :
  (forall policy,
      PermissionAPI.getPolicy api id = Some policy ->
      snd (PermissionAPI.disablePolicy api id) = Some (withEnabled policy false)
      /\ snd (PermissionAPI.enablePolicy
                (fst (PermissionAPI.disablePolicy api id)) id)
         = Some (withEnabled policy true)
      /\ (Policy.enabled policy = true ->
          fst (PermissionAPI.enablePolicy
                 (fst (PermissionAPI.disablePolicy api id)) id)
          = api))
  /\ (PermissionAPI.getPolicy api id = None ->
      PermissionAPI.disablePolicy api id = (api, None)
      /\ PermissionAPI.enablePolicy api id = (api, None)).
Proof.
  unfold PermissionAPI.getPolicy, getPolicy, PermissionAPI.enablePolicy,
    PermissionAPI.disablePolicy, PermissionAPI.updatePolicy, updatePolicy.
  destruct api as [engine logger dd aa]. cbn [PermissionAPI.policyEngine
    PermissionAPI.auditLogger PermissionAPI.defaultDeny PermissionAPI.auditAll].
  split.
  - intros policy Hpolicy. rewrite Hpolicy.
    cbn [fst snd PermissionAPI.policyEngine policies].
    rewrite lookup_insert_eq.
    cbn [fst snd PermissionAPI.policyEngine PermissionAPI.auditLogger
      PermissionAPI.defaultDeny PermissionAPI.auditAll policies tenantPolicies].
    split; [reflexivity |]. split; [reflexivity |].
    intros Henabled. rewrite insert_insert_eq.
    destruct engine as [pol tp]. cbn [policies tenantPolicies] in *.
    do 2 f_equal. apply insert_id. rewrite Hpolicy. f_equal.
    destruct policy. cbn in *. by subst.
  - intros Hnone. rewrite Hnone. by destruct engine.
Qed.

(** The loop of [getStats], from any pair of counts. *)
Lemma statsStep_fold (l : list Policy.t) :
  forall (n : nat) (m : gmap (list N) nat),
    (foldl statsStep (n, m) l).1
    = (n + length (List.filter Policy.enabled l))%nat
    /\ forall tenantId,
         (foldl statsStep (n, m) l).2 !! tenantId
         = if Nat.eqb (length (ofTenant tenantId l)) 0 then m !! tenantId
           else Some (default 0%nat (m !! tenantId)
                      + length (ofTenant tenantId l))%nat.
Proof.
  induction l as [| p l IH]; intros n m.
  - cbn. split; [lia | done].
  - cbn [foldl]. unfold statsStep at 2 4.
    destruct (IH (if Policy.enabled p then S n else n)
                (<[Policy.tenantId p :=
                     (default 0%nat (m !! Policy.tenantId p) + 1)%nat]> m))
      as [Hn Hm].
    split.
    + rewrite Hn. cbn [List.filter]. destruct (Policy.enabled p); cbn; lia.
    + intros t. rewrite Hm. unfold ofTenant. rewrite filter_cons.
      destruct (decide (Policy.tenantId p = t)) as [<- | Hne].
      * rewrite lookup_insert_eq. cbn [length default from_option id].
        destruct (length (filter _ l)) eqn:Hc; cbn; f_equal; lia.
      * by rewrite lookup_insert_ne.
Qed.

Lemma storedPolicies_elem (log : list JSString) (engine : PolicyEngine.t)
    (p : Policy.t) :
  StoreInv log engine ->
  p ∈ storedPolicies engine <-> policies engine !! Policy.id p = Some p.
Proof.
  intros Hinv. unfold storedPolicies. rewrite list_elem_of_fmap. split.
  - intros ([id q] & -> & Hin%elem_of_map_to_list). cbn.
    by rewrite (inv_id _ _ Hinv _ _ Hin).
  - intros Hp. exists (Policy.id p, p). split; [done |].
    by apply elem_of_map_to_list.
Qed.

Lemma storedPolicies_NoDup (log : list JSString) (engine : PolicyEngine.t) :
  StoreInv log engine -> NoDup (storedPolicies engine).
Proof.
  intros Hinv. unfold storedPolicies.
  apply NoDup_fmap_2_strong; [| apply NoDup_map_to_list].
  intros [i p] [j q] Hi%elem_of_map_to_list Hj%elem_of_map_to_list Heq.
  cbn in Heq. subst q. f_equal.
  rewrite <- (inv_id _ _ Hinv _ _ Hi). by rewrite <- (inv_id _ _ Hinv _ _ Hj).
Qed.

(** X13: the counts of [getStats].  [totalPolicies] is the number of stored
    policies and [enabledPolicies] the number of those that are enabled, so
    it is not larger; [policiesByTenant] has an entry for exactly the
    tenants that a stored policy names, and the entry is the number of the
    stored policies that name the tenant.  In a store that calls within
    the declared types reach, these are the tenants whose listing is not
    empty, and the entry is the length of the listing. *)
Theorem getStats_counts (engine : PolicyEngine.t) :
  Stats.totalPolicies (getStats engine) = length (storedPolicies engine)
  /\ Stats.enabledPolicies (getStats engine)
     = length (List.filter Policy.enabled (storedPolicies engine))
  /\ (Stats.enabledPolicies (getStats engine)
      <= Stats.totalPolicies (getStats engine))%nat
  /\ (forall tenantId,
        Stats.policiesByTenant (getStats engine) !! tenantId
        = match ofTenant tenantId (storedPolicies engine) with
          | [] => None
          | named => Some (length named)
          end)
  /\ (forall log,
        Reach log engine ->
        forall tenantId,
          Stats.policiesByTenant (getStats engine) !! tenantId
          = match listPolicies engine tenantId with
            | [] => None
            | listing => Some (length listing)
            end).
Proof.
  unfold getStats.
  destruct (statsStep_fold (storedPolicies engine) 0 ∅) as [Hn Hm].
  destruct (foldl statsStep (0%nat, ∅) (storedPolicies engine)) as [n m].
  cbn [fst snd] in Hn, Hm.
  cbn [Stats.totalPolicies Stats.enabledPolicies Stats.policiesByTenant].
  assert (Htotal : size (policies engine) = length (storedPolicies engine)).
  { unfold storedPolicies. by rewrite length_fmap, length_map_to_list. }
  assert (Hnamed : forall tenantId,
            m !! tenantId
            = match ofTenant tenantId (storedPolicies engine) with
              | [] => None
              | named => Some (length named)
              end).
  { intros t. rewrite Hm, lookup_empty. cbn [default from_option id].
    by destruct (ofTenant t (storedPolicies engine)). }
  split; [exact Htotal |]. split; [by rewrite Hn |]. split; [| split].
  - rewrite Hn, Htotal. cbn. apply List.filter_length_le.
  - exact Hnamed.
  - intros log Hinv%Reach_inv t. rewrite Hnamed.
    assert (Hlen : length (ofTenant t (storedPolicies engine))
                   = length (listPolicies engine t)).
    { apply Permutation_length, NoDup_Permutation.
      - apply NoDup_filter. by apply (storedPolicies_NoDup log).
      - by apply (listPolicies_NoDup log).
      - intros p. unfold ofTenant.
        rewrite list_elem_of_filter, (storedPolicies_elem log _ _ Hinv),
          (listPolicies_elem log _ _ _ Hinv). tauto. }
    destruct (ofTenant t (storedPolicies engine)),
      (listPolicies engine t); cbn in Hlen |- *; try done. by rewrite Hlen.
Qed.

Lemma getStats_counts_witness :
  Stats.policiesByTenant (getStats engineABCD) !! js "acme"
  = match listPolicies engineABCD (js "acme") with
    | [] => None
    | listing => Some (length listing)
    end.
Proof.
  exact (proj2 (proj2 (proj2 (proj2 (getStats_counts engineABCD))))
           _ Reach_engineABCD (js "acme")).
Defined.

(** After the update that moves the policy "a" to the tenant "globex" the
    counts follow the tenant that the policy names, and the listings the
    index. *)
Lemma getStats_moved :
  Stats.policiesByTenant (getStats movedEngine) = {[ js "globex" := 1%nat ]}
  /\ length (listPolicies movedEngine (js "globex")) = 0%nat
  /\ length (listPolicies movedEngine (js "acme")) = 1%nat.
Proof. vm_compute. repeat split. Qed.

(** The stats of the example store: four policies, all enabled, three of
    them of one tenant. *)
Lemma getStats_example :
  Stats.totalPolicies (getStats engineABCD) = 4%nat
  /\ Stats.enabledPolicies (getStats engineABCD) = 4%nat
  /\ Stats.policiesByTenant (getStats engineABCD)
     = {[ js "acme" := 3%nat; js "globex" := 1%nat ]}.
Proof. vm_compute. repeat split. Qed.

End StoreOperations.

(** ** The facade: helpers over [check] *)

Section FacadeHelpers.

Import PermissionAPI.

Lemma check_engine (api : PermissionAPI.t) (tenantId : JSString)
    (options : Req.t) :
  policyEngine (fst (check api tenantId options)) = policyEngine api.
Proof. apply check_frame. Qed.

Lemma checkWithDetails_frame (api : PermissionAPI.t) (tenantId : JSString)
    (options : Req.t) :
  policyEngine (fst (checkWithDetails api tenantId options)) = policyEngine api
  /\ auditAll (fst (checkWithDetails api tenantId options)) = auditAll api
  /\ defaultDeny (fst (checkWithDetails api tenantId options))
     = defaultDeny api.
Proof.
  unfold checkWithDetails. cbn [fst]. by destruct (auditAll api || negb _).
Qed.

Lemma afterChecks_frame (tenantId : JSString) (checks : list Req.t) :
  forall api : PermissionAPI.t,
    policyEngine (afterChecks api tenantId checks) = policyEngine api
    /\ auditAll (afterChecks api tenantId checks) = auditAll api
    /\ defaultDeny (afterChecks api tenantId checks) = defaultDeny api.
Proof.
  induction checks as [| c checks IH]; intros api; [done |].
  cbn [afterChecks foldl]. fold (afterChecks (fst (check api tenantId c))
                                   tenantId checks).
  destruct (IH (fst (check api tenantId c))) as (-> & -> & ->).
  apply check_frame.
Qed.

Lemma canAny_unfold (api : PermissionAPI.t) (tenantId actorId : JSString)
    (actorType : ActorType) (resource : JSString) (action : PermissionAction)
    (rest : list PermissionAction) :
  canAny api tenantId actorId actorType resource (action :: rest)
  = if allows (policyEngine api) tenantId
         (actionRequest actorId actorType resource action)
    then (fst (check api tenantId
                 (actionRequest actorId actorType resource action)), true)
    else canAny (fst (check api tenantId
                        (actionRequest actorId actorType resource action)))
           tenantId actorId actorType resource rest.
Proof. reflexivity. Qed.

Lemma canAll_unfold (api : PermissionAPI.t) (tenantId actorId : JSString)
    (actorType : ActorType) (resource : JSString) (action : PermissionAction)
    (rest : list PermissionAction) :
  canAll api tenantId actorId actorType resource (action :: rest)
  = if negb (allows (policyEngine api) tenantId
               (actionRequest actorId actorType resource action))
    then (fst (check api tenantId
                 (actionRequest actorId actorType resource action)), false)
    else canAll (fst (check api tenantId
                        (actionRequest actorId actorType resource action)))
           tenantId actorId actorType resource rest.
Proof. reflexivity. Qed.

Lemma canAny_result (tenantId actorId : JSString) (actorType : ActorType)
    (resource : JSString) (actions : list PermissionAction) :
  forall api : PermissionAPI.t,
    canAny api tenantId actorId actorType resource actions
    = (afterChecks api tenantId
         (upToFirst (allows (policyEngine api) tenantId)
            (map (actionRequest actorId actorType resource) actions)),
       existsb (allows (policyEngine api) tenantId)
         (map (actionRequest actorId actorType resource) actions)).
Proof.
  induction actions as [| action actions IH]; intros api; [reflexivity |].
  rewrite canAny_unfold. cbn [map upToFirst existsb].
  destruct (allows (policyEngine api) tenantId
              (actionRequest actorId actorType resource action)) eqn:Hallowed.
  - reflexivity.
  - rewrite IH, check_engine. reflexivity.
Qed.

Lemma canAll_result (tenantId actorId : JSString) (actorType : ActorType)
    (resource : JSString) (actions : list PermissionAction) :
  forall api : PermissionAPI.t,
    canAll api tenantId actorId actorType resource actions
    = (afterChecks api tenantId
         (upToFirst (fun c => negb (allows (policyEngine api) tenantId c))
            (map (actionRequest actorId actorType resource) actions)),
       forallb (allows (policyEngine api) tenantId)
         (map (actionRequest actorId actorType resource) actions)).
Proof.
  induction actions as [| action actions IH]; intros api; [reflexivity |].
  rewrite canAll_unfold. cbn [map upToFirst forallb].
  destruct (allows (policyEngine api) tenantId
              (actionRequest actorId actorType resource action)) eqn:Hallowed;
    cbn [negb andb].
  - rewrite IH, check_engine. reflexivity.
  - reflexivity.
Qed.

End FacadeHelpers.

(** ** The facade: [canAny], [canAll], [enforce] *)

Section FacadeChecks.

Import PermissionAPI.

(** X14: [canAny] answers whether the engine allows one of the actions,
    each asked for the actor and the resource without any context; it
    checks the actions in order and stops at the first that is allowed, so
    the later actions are neither evaluated nor logged.  For no action at
    all the answer is false. *)
Theorem canAny_spec (api : PermissionAPI.t) (tenantId actorId : JSString)
    (actorType : ActorType) (resource : JSString)
    (actions : list PermissionAction) :
  snd (canAny api tenantId actorId actorType resource actions)
  = existsb (allows (policyEngine api) tenantId)
      (map (actionRequest actorId actorType resource) actions)
  /\ fst (canAny api tenantId actorId actorType resource actions)
     = afterChecks api tenantId
         (upToFirst (allows (policyEngine api) tenantId)
            (map (actionRequest actorId actorType resource) actions))
  /\ canAny api tenantId actorId actorType resource [] = (api, false).
Proof. rewrite canAny_result. by repeat split. Qed.

(** X15: [canAll] answers whether the engine allows every action, each
    asked without any context; it stops at the first action that is denied.
    For no action at all the answer is true. *)
Theorem canAll_spec (api : PermissionAPI.t) (tenantId actorId : JSString)
    (actorType : ActorType) (resource : JSString)
    (actions : list PermissionAction) :
  snd (canAll api tenantId actorId actorType resource actions)
  = forallb (allows (policyEngine api) tenantId)
      (map (actionRequest actorId actorType resource) actions)
  /\ fst (canAll api tenantId actorId actorType resource actions)
     = afterChecks api tenantId
         (upToFirst (fun c => negb (allows (policyEngine api) tenantId c))
            (map (actionRequest actorId actorType resource) actions))
  /\ canAll api tenantId actorId actorType resource [] = (api, true).
Proof. rewrite canAll_result. by repeat split. Qed.

(** X16: [enforce] throws exactly when [check] answers false, and the
    message is "Permission denied: " followed by the reason of the
    evaluation; thrown or not, it leaves the facade as [checkWithDetails]
    does. *)
Theorem enforce_spec (api : PermissionAPI.t) (tenantId : JSString)
    (options : Req.t) :
  fst (enforce api tenantId options)
  = fst (checkWithDetails api tenantId options)
  /\ (snd (enforce api tenantId options) = inl tt
      <-> snd (check api tenantId options) = true)
  /\ (snd (enforce api tenantId options)
      = inr (js "Permission denied: "
             ++ EvalResult.reason
                  (evaluate (policyEngine api) tenantId options))
      <-> snd (check api tenantId options) = false).
Proof.
  unfold enforce.
  destruct (checkWithDetails api tenantId options) as [api' result] eqn:Hcheck.
  assert (Hresult : result = evaluate (policyEngine api) tenantId options).
  { change result with (snd (api', result)). by rewrite <- Hcheck. }
  rewrite check_result, <- Hresult.
  destruct (EvalResult.allowed result); cbn [negb fst snd];
    repeat split; try done.
Qed.

(** X17: checking never changes the store or the configuration: after
    [check], [checkWithDetails], [enforce], [checkMultiple], [canAny] and
    [canAll] the policies and the two flags are what they were. *)
Theorem checks_leave_store (api : PermissionAPI.t)
    (tenantId actorId : JSString) (actorType : ActorType) (resource : JSString)
    (options : Req.t) (checks : list Req.t) (actions : list PermissionAction) :
  let unchanged (api' : PermissionAPI.t) :=
    policyEngine api' = policyEngine api
    /\ auditAll api' = auditAll api
    /\ defaultDeny api' = defaultDeny api in
  unchanged (fst (check api tenantId options))
  /\ unchanged (fst (checkWithDetails api tenantId options))
  /\ unchanged (fst (enforce api tenantId options))
  /\ unchanged (fst (checkMultiple api tenantId checks))
  /\ unchanged (fst (canAny api tenantId actorId actorType resource actions))
  /\ unchanged (fst (canAll api tenantId actorId actorType resource actions)).
Proof.
  cbn zeta. split; [apply check_frame |].
  split; [apply checkWithDetails_frame |]. split.
  - unfold enforce.
    pose proof (checkWithDetails_frame api tenantId options) as H.
    destruct (checkWithDetails api tenantId options) as [api' result].
    by destruct (negb (EvalResult.allowed result)).
  - split; [| split].
    + unfold checkMultiple.
      destruct (checkLoop_spec tenantId checks api ∅) as [-> _].
      apply afterChecks_frame.
    + rewrite canAny_result. apply afterChecks_frame.
    + rewrite canAll_result. apply afterChecks_frame.
Qed.

End FacadeChecks.

(** ** The default policies *)

Section Defaults.

Import PermissionAPI.

Lemma matchesActor_any_id (type actorType : ActorType) (actorId : JSString) :
  matchesActor [ActorMatcher.mk type (js "*")] actorType actorId
  = bool_decide (type = actorType) || bool_decide (type = ActorAny).
Proof.
  cbn [matchesActor ActorMatcher.type ActorMatcher.pattern].
  rewrite matchesPattern_star_literal.
  by destruct (bool_decide (type = actorType)), (bool_decide (type = ActorAny)).
Qed.

Lemma strictEquals_string (v : JSValue) (s : JSString) :
  strictEquals v (VString s) = true <-> v = VString s.
Proof.
  destruct v; cbn; try (split; [discriminate | discriminate]).
  unfold strEq. rewrite bool_decide_eq_true. split; congruence.
Qed.

(** A key that [Object.prototype] lacks reads the context's own
    property, or [undefined]. *)
Lemma contextGet_own (context : Context) (field : JSString) :
  field ∉ objectPrototypeKeys ->
  contextGet context field = default VUndefined (context !! field).
Proof.
  intros Hfield. unfold contextGet.
  destruct (context !! field); [reflexivity |].
  by rewrite bool_decide_eq_false_2.
Qed.

Lemma role_not_inherited : js "role" ∉ objectPrototypeKeys.
Proof. by_evaluation. Qed.

(** The role condition passes exactly for the requests with the role. *)
Lemma role_condition (options : Req.t) (role : JSString) :
  matchesConditions [Cond.mk (js "role") (js "eq") (VString role)]
    (default ∅ (Req.context options)) = true
  <-> hasRole options role.
Proof.
  cbn [matchesConditions]. unfold conditionPasses.
  cbn [Cond.field Cond.operator Cond.value].
  change (strEq (js "eq") (js "eq")) with true. cbv iota.
  rewrite (contextGet_own _ _ role_not_inherited).
  destruct (strictEquals _ _) eqn:Heq.
  - apply strictEquals_string in Heq. split; [intros _ | done].
    unfold hasRole in *.
    destruct (Req.context options) as [context |];
      cbn [default from_option id] in Heq.
    + exists context. split; [done |].
      destruct (context !! js "role");
        cbn [default from_option id] in Heq; congruence.
    + rewrite lookup_empty in Heq. discriminate.
  - split; [done |]. intros (context & Hctx & Hrole).
    rewrite Hctx in Heq.
    cbn [default from_option id] in Heq.
    rewrite Hrole in Heq. cbn [default from_option id strictEquals] in Heq.
    unfold strEq in Heq. by rewrite bool_decide_eq_true_2 in Heq.
Qed.

Lemma adminRule_matches (options : Req.t) :
  matchesRule adminRule options = true
  <-> Req.actorType options = ActorUser /\ hasRole options (js "admin").
Proof.
  rewrite matchesRule_conditions. unfold adminRule at 1 2 3.
  cbn [Rule.actors Rule.resources Rule.actions].
  rewrite matchesActor_any_id. cbn [matchesResource].
  rewrite matchesPattern_star_literal.
  change (matchesAction [ActAny] (Req.action options)) with true.
  rewrite !andb_true_r, andb_true_iff.
  change (default [] (Rule.conditions adminRule))
    with [Cond.mk (js "role") (js "eq") (VString (js "admin"))].
  rewrite role_condition, orb_false_r, bool_decide_eq_true. split.
  - by intros [<- H].
  - by intros [-> H].
Qed.

Lemma agentRule_actor (rule : Rule.t) (options : Req.t) :
  Rule.actors rule = [ActorMatcher.mk ActorAgent (js "*")] ->
  matchesRule rule options = true -> Req.actorType options = ActorAgent.
Proof.
  intros Hactors. rewrite matchesRule_conditions, Hactors, matchesActor_any_id.
  rewrite !andb_true_iff, orb_false_r, bool_decide_eq_true. by intros [[[<- _] _] _].
Qed.

(** The store of the default facade lists the admin policy, then the agent
    policy. *)
Lemma defaultFacade_listing (config : option Config.t) (logger : AuditLogger.t)
    (nanoid1 : JSString) (now1 : Z) (nanoid2 : JSString) (now2 : Z)
    (tenantId : JSString) :
  nanoid1 ≠ nanoid2 ->
  enabledPolicies
    (policyEngine
       (defaultFacade config logger nanoid1 now1 nanoid2 now2 tenantId))
    tenantId
  = [adminPolicy nanoid1 now1 tenantId; agentPolicy nanoid2 now2 tenantId].
Proof.
  intros Hne.
  assert (Hengine :
    policyEngine
      (defaultFacade config logger nanoid1 now1 nanoid2 now2 tenantId)
    = PolicyEngine.mk
        (<[nanoid2 := agentPolicy nanoid2 now2 tenantId]>
           (<[nanoid1 := adminPolicy nanoid1 now1 tenantId]> ∅))
        (<[tenantId := [nanoid1; nanoid2]]> ∅)).
  { unfold defaultFacade, setupDefaultPolicies, createAdminPolicy,
      createAgentPolicy, PolicyEngine.createPolicy.
    cbn [fst snd policyEngine PermissionAPI.new PolicyEngine.new policies
      tenantPolicies Policy.id].
    rewrite lookup_empty, lookup_insert_eq, insert_insert_eq.
    cbn [default from_option id].
    unfold setAdd at 2. rewrite bool_decide_eq_false_2 by apply not_elem_of_nil.
    cbn [app]. unfold setAdd. rewrite bool_decide_eq_false_2.
    - reflexivity.
    - intros Hin%list_elem_of_singleton. congruence. }
  unfold enabledPolicies, PolicyEngine.listPolicies. rewrite Hengine.
  cbn [policies tenantPolicies]. rewrite lookup_insert_eq.
  cbn [omap list_omap].
  rewrite lookup_insert_ne, !lookup_insert_eq by done.
  reflexivity.
Qed.

(** What [evaluate] does in the default facade. *)
Lemma defaultFacade_evaluate (config : option Config.t) (logger : AuditLogger.t)
    (nanoid1 : JSString) (now1 : Z) (nanoid2 : JSString) (now2 : Z)
    (tenantId : JSString) (options : Req.t) :
  nanoid1 ≠ nanoid2 ->
  evaluate
    (policyEngine
       (defaultFacade config logger nanoid1 now1 nanoid2 now2 tenantId))
    tenantId options
  = if matchesRule adminRule options
    then matched (adminPolicy nanoid1 now1 tenantId) adminRule 0
    else if matchesRule agentAllowRule options
    then matched (agentPolicy nanoid2 now2 tenantId) agentAllowRule 0
    else if matchesRule agentDenyRule options
    then matched (agentPolicy nanoid2 now2 tenantId) agentDenyRule 1
    else defaultDenyResult.
Proof.
  intros Hne. rewrite evaluate_unfold, defaultFacade_listing by done.
  cbn [evalPolicies evalRules adminPolicy agentPolicy Policy.rules].
  by destruct (matchesRule adminRule options),
    (matchesRule agentAllowRule options), (matchesRule agentDenyRule options).
Qed.

Lemma agent_resources (resource : JSString) :
  matchesResource (Rule.resources agentAllowRule) resource = true
  <-> exists prefix rest,
        prefix ∈ agentPrefixes
        /\ resource = prefix ++ rest
        /\ noLineTerminator rest.
Proof.
  assert (Hone : forall prefix,
             prefix ∈ agentPrefixes ->
             matchesPattern (prefix ++ [RegExp.star]) resource = true
             <-> exists rest, resource = prefix ++ rest /\ noLineTerminator rest).
  { intros prefix Hin. rewrite matchesPattern_spec.
    assert (Hstar : RegExp.star ∉ prefix).
    { unfold agentPrefixes in Hin.
      repeat (apply elem_of_cons in Hin as [-> | Hin]; [by_evaluation |]).
      by apply elem_of_nil in Hin. }
    rewrite (Glob_prefix _ _ _ Hstar). setoid_rewrite Glob_star_only.
    split; [| by right]. intros [Heq | H]; [| done].
    unfold agentPrefixes in Hin.
    repeat (apply elem_of_cons in Hin as [-> | Hin]; [discriminate |]).
    by apply elem_of_nil in Hin. }
  rewrite matchesResource_iff. split.
  - intros (pattern & Hin & Hmatch).
    change (Rule.resources agentAllowRule)
      with (map (fun prefix => prefix ++ [RegExp.star]) agentPrefixes) in Hin.
    apply list_elem_of_fmap in Hin as (prefix & -> & Hin).
    apply (Hone prefix Hin) in Hmatch as (rest & -> & Hrest). eauto.
  - intros (prefix & rest & Hin & -> & Hrest).
    exists (prefix ++ [RegExp.star]). split.
    + change (Rule.resources agentAllowRule)
        with ((fun prefix => prefix ++ [RegExp.star]) <$> agentPrefixes).
      by apply (list_elem_of_fmap_2 (fun prefix => prefix ++ [RegExp.star])).
    + apply (Hone prefix Hin). eauto.
Qed.

Lemma agentAllowRule_matches (options : Req.t) :
  matchesRule agentAllowRule options = true
  <-> Req.actorType options = ActorAgent
      /\ Req.action options ∈ agentActions
      /\ exists prefix rest,
           prefix ∈ agentPrefixes
           /\ Req.resource options = prefix ++ rest
           /\ noLineTerminator rest.
Proof.
  rewrite matchesRule_conditions, !andb_true_iff, agent_resources.
  change (Rule.actors agentAllowRule)
    with [ActorMatcher.mk ActorAgent (js "*")].
  rewrite matchesActor_any_id, orb_false_r, bool_decide_eq_true.
  rewrite matchesAction_iff.
  change (Rule.actions agentAllowRule) with agentActions.
  change (matchesConditions (default [] (Rule.conditions agentAllowRule))
            (default ∅ (Req.context options))) with true.
  split.
  - intros [[[<- Hres] [Hany | Hact]] _]; [| done].
    exfalso. revert Hany. by_evaluation.
  - intros (-> & Hact & Hres). auto.
Qed.

(** X18: in the default facade a user is allowed exactly when the context
    of the request gives the role "admin", and then whatever the resource
    and the action, by rule 1 of the admin policy; without the role the
    answer is the default deny. *)
Theorem default_user_access (config : option Config.t)
    (logger : AuditLogger.t) (nanoid1 : JSString) (now1 : Z)
    (nanoid2 : JSString) (now2 : Z) (tenantId : JSString) (options : Req.t) :
  nanoid1 ≠ nanoid2 ->
  Req.actorType options = ActorUser ->
  (hasRole options (js "admin") ->
   evaluate
     (policyEngine
        (defaultFacade config logger nanoid1 now1 nanoid2 now2 tenantId))
     tenantId options
   = matched (adminPolicy nanoid1 now1 tenantId) adminRule 0)
  /\ (~ hasRole options (js "admin") ->
      evaluate
        (policyEngine
           (defaultFacade config logger nanoid1 now1 nanoid2 now2 tenantId))
        tenantId options
      = defaultDenyResult)
  /\ (allows
        (policyEngine
           (defaultFacade config logger nanoid1 now1 nanoid2 now2 tenantId))
        tenantId options = true
      <-> hasRole options (js "admin")).
Proof.
  intros Hne Huser. unfold allows.
  rewrite defaultFacade_evaluate by done.
  assert (Hallow : matchesRule agentAllowRule options = false).
  { apply not_true_is_false. intros H%agentRule_actor; [congruence | done]. }
  assert (Hdeny : matchesRule agentDenyRule options = false).
  { apply not_true_is_false. intros H%agentRule_actor; [congruence | done]. }
  rewrite Hallow, Hdeny.
  pose proof (adminRule_matches options) as Hadmin.
  destruct (matchesRule adminRule options).
  - assert (Hrole : hasRole options (js "admin")) by by apply Hadmin.
    repeat split; try done.
  - assert (Hrole : ~ hasRole options (js "admin")).
    { intros Hrole. by destruct Hadmin as [_ Hadmin]; specialize (Hadmin (conj Huser Hrole)). }
    repeat split; try done.
Qed.

Lemma default_user_access_witness :
  js "p1" ≠ js "p2"
  /\ Req.actorType adminRequest = ActorUser
  /\ (allows (policyEngine exampleFacade) (js "acme") adminRequest = true
      <-> hasRole adminRequest (js "admin")).
Proof.
  assert (Hne : js "p1" ≠ js "p2") by discriminate.
  split; [exact Hne |]. split; [reflexivity |].
  exact (proj2 (proj2 (default_user_access None emptyLogger (js "p1") 1
                         (js "p2") 2 (js "acme") adminRequest Hne eq_refl))).
Defined.

(** X19: in the default facade an agent is allowed exactly the actions
    read, create, update and execute on the resources that begin with
    "task:", "memory:" or "vault:" and go on without a line terminator.
    Every other request of an agent is denied, whatever its context. *)
Theorem default_agent_access (config : option Config.t)
    (logger : AuditLogger.t) (nanoid1 : JSString) (now1 : Z)
    (nanoid2 : JSString) (now2 : Z) (tenantId : JSString) (options : Req.t) :
  nanoid1 ≠ nanoid2 ->
  Req.actorType options = ActorAgent ->
  allows
    (policyEngine
       (defaultFacade config logger nanoid1 now1 nanoid2 now2 tenantId))
    tenantId options = true
  <-> Req.action options ∈ agentActions
      /\ exists prefix rest,
           prefix ∈ agentPrefixes
           /\ Req.resource options = prefix ++ rest
           /\ noLineTerminator rest.
Proof.
  intros Hne Hagent. unfold allows.
  rewrite defaultFacade_evaluate by done.
  assert (Hadmin : matchesRule adminRule options = false).
  { apply not_true_is_false. intros [Huser _]%adminRule_matches. congruence. }
  rewrite Hadmin.
  pose proof (agentAllowRule_matches options) as Hallow.
  destruct (matchesRule agentAllowRule options).
  - split; [intros _ | done]. by apply Hallow.
  - split.
    + by destruct (matchesRule agentDenyRule options).
    + intros H. destruct Hallow as [_ Hallow].
      by specialize (Hallow (conj Hagent H)).
Qed.

Lemma default_agent_access_witness :
  js "p1" ≠ js "p2"
  /\ Req.actorType agentTaskRequest = ActorAgent
  /\ (allows (policyEngine exampleFacade) (js "acme") agentTaskRequest = true
      <-> Req.action agentTaskRequest ∈ agentActions
          /\ exists prefix rest,
               prefix ∈ agentPrefixes
               /\ Req.resource agentTaskRequest = prefix ++ rest
               /\ noLineTerminator rest).
Proof.
  assert (Hne : js "p1" ≠ js "p2") by discriminate.
  split; [exact Hne |]. split; [reflexivity |].
  exact (default_agent_access None emptyLogger (js "p1") 1 (js "p2") 2
           (js "acme") agentTaskRequest Hne eq_refl).
Defined.

(** X20: in the default facade a service, the system, or an actor of the
    wildcard type is denied everything, by the default deny. *)
Theorem default_other_actors (config : option Config.t)
    (logger : AuditLogger.t) (nanoid1 : JSString) (now1 : Z)
    (nanoid2 : JSString) (now2 : Z) (tenantId : JSString) (options : Req.t) :
  nanoid1 ≠ nanoid2 ->
  Req.actorType options ≠ ActorUser ->
  Req.actorType options ≠ ActorAgent ->
  evaluate
    (policyEngine
       (defaultFacade config logger nanoid1 now1 nanoid2 now2 tenantId))
    tenantId options
  = defaultDenyResult.
Proof.
  intros Hne Huser Hagent. rewrite defaultFacade_evaluate by done.
  assert (Hadmin : matchesRule adminRule options = false).
  { apply not_true_is_false. by intros [? _]%adminRule_matches. }
  assert (Hallow : matchesRule agentAllowRule options = false).
  { apply not_true_is_false. by intros H%agentRule_actor. }
  assert (Hdeny : matchesRule agentDenyRule options = false).
  { apply not_true_is_false. by intros H%agentRule_actor. }
  by rewrite Hadmin, Hallow, Hdeny.
Qed.

Lemma default_other_actors_witness :
  js "p1" ≠ js "p2"
  /\ evaluate (policyEngine exampleFacade) (js "acme")
       (Req.mk (js "cron") ActorService (js "task:1") ActRead None)
     = defaultDenyResult.
Proof.
  assert (Hne : js "p1" ≠ js "p2") by discriminate.
  split; [exact Hne |].
  refine (default_other_actors None emptyLogger (js "p1") 1 (js "p2") 2
            (js "acme") _ Hne _ _); discriminate.
Defined.

(** X21: [canAny] and [canAll] pass no context, so in the default facade
    they never find the role of a user: for a user [canAny] answers false
    whatever the actions, and [canAll] answers true only for no action. *)
Theorem default_canAny_user (config : option Config.t)
    (logger : AuditLogger.t) (nanoid1 : JSString) (now1 : Z)
    (nanoid2 : JSString) (now2 : Z) (tenantId actorId resource : JSString)
    (actions : list PermissionAction) :
  nanoid1 ≠ nanoid2 ->
  snd (canAny
         (defaultFacade config logger nanoid1 now1 nanoid2 now2 tenantId)
         tenantId actorId ActorUser resource actions) = false
  /\ snd (canAll
            (defaultFacade config logger nanoid1 now1 nanoid2 now2 tenantId)
            tenantId actorId ActorUser resource actions)
     = match actions with [] => true | _ :: _ => false end.
Proof.
  intros Hne.
  assert (Hdenied : forall action,
             allows
               (policyEngine
                  (defaultFacade config logger nanoid1 now1 nanoid2 now2 tenantId))
               tenantId (actionRequest actorId ActorUser resource action)
             = false).
  { intros action. unfold allows. rewrite defaultFacade_evaluate by done.
    assert (matchesRule adminRule
              (actionRequest actorId ActorUser resource action) = false) as ->.
    { apply not_true_is_false.
      intros [_ (context & Hctx & _)]%adminRule_matches. discriminate. }
    assert (matchesRule agentAllowRule
              (actionRequest actorId ActorUser resource action) = false) as ->.
    { apply not_true_is_false. intros H%agentRule_actor; [discriminate | done]. }
    assert (matchesRule agentDenyRule
              (actionRequest actorId ActorUser resource action) = false) as ->.
    { apply not_true_is_false. intros H%agentRule_actor; [discriminate | done]. }
    reflexivity. }
  rewrite canAny_result, canAll_result. cbn [snd]. split.
  - induction actions as [| action actions IH]; [reflexivity |].
    cbn [map existsb]. by rewrite Hdenied, IH.
  - destruct actions as [| action actions]; [reflexivity |].
    cbn [map forallb]. by rewrite Hdenied.
Qed.

Lemma default_canAny_user_witness :
  js "p1" ≠ js "p2"
  /\ snd (canAny exampleFacade (js "acme") (js "u1") ActorUser (js "doc:1")
            [ActRead; ActUpdate]) = false.
Proof.
  assert (Hne : js "p1" ≠ js "p2") by discriminate.
  split; [exact Hne |].
  exact (proj1 (default_canAny_user None emptyLogger (js "p1") 1 (js "p2") 2
                  (js "acme") (js "u1") (js "doc:1") [ActRead; ActUpdate] Hne)).
Defined.

(** X22: the default policies are those of one tenant: for any other
    tenant the default facade answers "No policies defined". *)
Theorem default_other_tenant (config : option Config.t)
    (logger : AuditLogger.t) (nanoid1 : JSString) (now1 : Z)
    (nanoid2 : JSString) (now2 : Z) (tenantId other : JSString)
    (options : Req.t) :
  other ≠ tenantId ->
  evaluate
    (policyEngine
       (defaultFacade config logger nanoid1 now1 nanoid2 now2 tenantId))
    other options
  = noPolicies.
Proof.
  intros Hne.
  assert (Hlist : PolicyEngine.listPolicies
            (policyEngine
               (defaultFacade config logger nanoid1 now1 nanoid2 now2 tenantId))
            other = []).
  { unfold PolicyEngine.listPolicies, defaultFacade, setupDefaultPolicies,
      createAdminPolicy, createAgentPolicy, PolicyEngine.createPolicy.
    cbn [fst snd policyEngine PermissionAPI.new PolicyEngine.new policies
      tenantPolicies Policy.id].
    by rewrite !lookup_insert_ne, lookup_empty by done. }
  unfold evaluate. by rewrite Hlist.
Qed.

Lemma default_other_tenant_witness :
  js "globex" ≠ js "acme"
  /\ evaluate (policyEngine exampleFacade) (js "globex") adminRequest
     = noPolicies.
Proof.
  assert (Hne : js "globex" ≠ js "acme") by discriminate.
  split; [exact Hne |].
  exact (default_other_tenant None emptyLogger (js "p1") 1 (js "p2") 2
           (js "acme") (js "globex") adminRequest Hne).
Defined.

(** The default facade on examples: the admin may delete a policy, an
    agent may run a task and may not read a user, not even with the role
    "admin" in its context. *)
Lemma defaultFacade_examples :
  snd (check exampleFacade (js "acme") adminRequest) = true
  /\ snd (check exampleFacade (js "acme") agentTaskRequest) = true
  /\ evaluate (policyEngine exampleFacade) (js "acme")
       (Req.mk (js "bot") ActorAgent (js "user:7") ActRead
          (Some {[ js "role" := VString (js "admin") ]}))
     = EvalResult.mk false
         (js "Matched policy " ++ [dquote] ++ js "Agent Default Access"
            ++ [dquote] ++ js " rule 2")
         (Some (js "p2")) (Some 1%nat).
Proof. vm_compute. repeat split. Qed.

End Defaults.

(** ** Stores with a single policy *)

Section SinglePolicy.

(** The evaluation in a new store after one call of [createPolicy]. *)
Lemma single_policy_evaluate (nanoid : JSString) (now : Z)
    (tenantId name : JSString) (rules : list Rule.t)
    (options : option CreateOptions.t) (request : Req.t) :
  default true (options ≫= CreateOptions.enabled) = true ->
  evaluate
    (fst (createPolicy PolicyEngine.new nanoid now tenantId name rules options))
    tenantId request
  = match evalRules
            (snd (createPolicy PolicyEngine.new nanoid now tenantId name rules
                    options))
            rules 0 request with
    | Some result => result
    | None => defaultDenyResult
    end.
Proof.
  intros Henabled. unfold evaluate, listPolicies, createPolicy.
  cbn [fst snd policies tenantPolicies PolicyEngine.new Policy.id].
  rewrite lookup_insert_eq, lookup_empty.
  cbn [default from_option id setAdd].
  unfold setAdd. rewrite bool_decide_eq_false_2 by apply not_elem_of_nil.
  cbn [app omap list_omap]. rewrite lookup_insert_eq.
  cbn [sort insertSorted List.filter Policy.enabled].
  rewrite Henabled. cbn [length Nat.eqb evalPolicies Policy.rules].
  by destruct (evalRules _ rules 0 request).
Qed.

Lemma readOnlyDenyRule_matches (options : Req.t) :
  matchesRule readOnlyDenyRule options = true
  -> Req.action options ≠ ActRead.
Proof.
  rewrite matchesRule_conditions, !andb_true_iff, matchesAction_iff.
  intros [[_ [Hany | Hact]] _] Hread.
  - revert Hany. by_evaluation.
  - rewrite Hread in Hact. revert Hact. by_evaluation.
Qed.

Lemma readOnlyAllowRule_matches (options : Req.t) :
  matchesRule readOnlyAllowRule options = true
  <-> Req.actorType options = ActorUser /\ Req.action options = ActRead.
Proof.
  rewrite matchesRule_conditions, !andb_true_iff, matchesAction_iff.
  change (Rule.actors readOnlyAllowRule)
    with [ActorMatcher.mk ActorUser (js "*")].
  rewrite matchesActor_any_id, orb_false_r, bool_decide_eq_true.
  change (matchesResource (Rule.resources readOnlyAllowRule)
            (Req.resource options)) with true.
  change (Rule.actions readOnlyAllowRule) with [ActRead].
  change (matchesConditions (default [] (Rule.conditions readOnlyAllowRule))
            (default ∅ (Req.context options))) with true.
  split.
  - intros [[[<- _] [Hany | Hact%list_elem_of_singleton]] _]; [| done].
    exfalso. revert Hany. by_evaluation.
  - intros [-> ->]. repeat split; try done. right. apply list_elem_of_here.
Qed.

(** X23: in a store that holds only a read-only policy, a request is
    allowed exactly when a user asks to read; this holds for every
    resource, and the wildcard action is not allowed. *)
Theorem readOnly_access (nanoid : JSString) (now : Z)
    (tenantId name : JSString) (options : Req.t) :
  allows (readOnlyEngine nanoid now tenantId name) tenantId options = true
  <-> Req.actorType options = ActorUser /\ Req.action options = ActRead.
Proof.
  unfold allows, readOnlyEngine, createReadOnlyPolicy.
  rewrite single_policy_evaluate by reflexivity.
  cbn [evalRules].
  pose proof (readOnlyAllowRule_matches options) as Hallow.
  pose proof (readOnlyDenyRule_matches options) as Hdeny.
  destruct (matchesRule readOnlyAllowRule options).
  - split; [intros _; by apply Hallow | done].
  - destruct (matchesRule readOnlyDenyRule options); cbn; split; try done.
    + intros H. by apply Hallow in H.
    + intros H. by apply Hallow in H.
Qed.

(** X24: [createResourcePolicy] uses the ids of the actors as patterns.
    In a new facade with such a policy, every listed actor is allowed every
    listed action on the resource itself, whatever the characters of the
    id and of the resource; and a listed id that is the single star lets
    in every actor of that type. *)
Theorem resourcePolicy_access (nanoid : JSString) (now : Z)
    (tenantId resource : JSString)
    (allowedActors : list (JSString * ActorType))
    (allowedActions : list PermissionAction)
    (actorId : JSString) (actorType : ActorType) (action : PermissionAction)
    (context : option Context) :
  action ∈ allowedActions ->
  ((actorId, actorType) ∈ allowedActors
   \/ (js "*", actorType) ∈ allowedActors) ->
  allows
    (resourceEngine nanoid now tenantId resource allowedActors allowedActions)
    tenantId (Req.mk actorId actorType resource action context)
  = true.
Proof.
  intros Haction Hactor.
  unfold allows, resourceEngine, PermissionAPI.createResourcePolicy,
    PermissionAPI.createPolicy.
  cbn [PermissionAPI.new PermissionAPI.policyEngine].
  destruct (createPolicy PolicyEngine.new nanoid now tenantId
              (js "Access to " ++ resource)
              [PermissionAPI.resourceRule resource allowedActors allowedActions]
              (Some (CreateOptions.mk (Some (js "Policy for " ++ resource))
                       (Some (Finite 10)) None))) as [engine policy] eqn:Hcreate.
  cbn [fst PermissionAPI.policyEngine].
  change engine with (fst (engine, policy)). rewrite <- Hcreate.
  rewrite single_policy_evaluate by reflexivity. cbn [evalRules].
  assert (Hmatch : matchesRule
                     (PermissionAPI.resourceRule resource allowedActors allowedActions)
                     (Req.mk actorId actorType resource action context) = true).
  { rewrite matchesRule_conditions, !andb_true_iff.
    cbn [PermissionAPI.resourceRule Rule.actors Rule.resources Rule.actions Rule.conditions
      Req.actorType Req.actorId Req.resource Req.action].
    repeat split.
    - apply matchesActor_iff. destruct Hactor as [Hin | Hin].
      + exists (ActorMatcher.mk actorType actorId). split; [| split].
        * apply (list_elem_of_fmap_2
                   (fun a => ActorMatcher.mk (snd a) (fst a)) _ _ Hin).
        * by left.
        * apply matchesPattern_spec. right. apply Glob_refl.
      + exists (ActorMatcher.mk actorType (js "*")). split; [| split].
        * apply (list_elem_of_fmap_2
                   (fun a => ActorMatcher.mk (snd a) (fst a)) _ _ Hin).
        * by left.
        * reflexivity.
    - apply matchesResource_iff. exists resource.
      split; [apply list_elem_of_here |].
      apply matchesPattern_spec. right. apply Glob_refl.
    - apply matchesAction_iff. by right. }
  rewrite Hmatch. reflexivity.
Qed.

Lemma resourcePolicy_access_witness :
  (ActRead ∈ [ActRead; ActUpdate])
  /\ ((js "u(1)", ActorUser) ∈ [(js "u(1)", ActorUser)]
      \/ (js "*", ActorUser) ∈ [(js "u(1)", ActorUser)])
  /\ allows
       (resourceEngine (js "p1") 0 (js "acme") (js "doc:[42]")
          [(js "u(1)", ActorUser)] [ActRead; ActUpdate])
       (js "acme")
       (Req.mk (js "u(1)") ActorUser (js "doc:[42]") ActRead None)
     = true.
Proof.
  assert (Haction : ActRead ∈ [ActRead; ActUpdate])
    by apply list_elem_of_here.
  assert (Hactor : (js "u(1)", ActorUser) ∈ [(js "u(1)", ActorUser)]
                   \/ (js "*", ActorUser) ∈ [(js "u(1)", ActorUser)])
    by (left; apply list_elem_of_here).
  split; [exact Haction |]. split; [exact Hactor |].
  exact (resourcePolicy_access (js "p1") 0 (js "acme") (js "doc:[42]")
           [(js "u(1)", ActorUser)] [ActRead; ActUpdate] (js "u(1)")
           ActorUser ActRead None Haction Hactor).
Defined.

(** X25: in a new facade with a role policy, a request is allowed exactly
    when it comes from a user whose context gives the role, one of the
    resource patterns matches the resource, and the actions of the policy
    hold the action or the wildcard. *)
Theorem rolePolicy_access (nanoid : JSString) (now : Z)
    (tenantId roleName : JSString) (resources : list JSString)
    (actions : list PermissionAction) (options : Req.t) :
  allows (roleEngine nanoid now tenantId roleName resources actions)
    tenantId options = true
  <-> Req.actorType options = ActorUser
      /\ hasRole options roleName
      /\ (exists pattern,
            pattern ∈ resources
            /\ matchesPattern pattern (Req.resource options) = true)
      /\ (ActAny ∈ actions \/ Req.action options ∈ actions).
Proof.
  unfold allows, roleEngine, PermissionAPI.createRolePolicy,
    PermissionAPI.createPolicy.
  cbn [PermissionAPI.new PermissionAPI.policyEngine].
  destruct (createPolicy PolicyEngine.new nanoid now tenantId
              (js "Role: " ++ roleName)
              [PermissionAPI.roleRule roleName resources actions]
              (Some (CreateOptions.mk
                       (Some (js "Policy for " ++ roleName ++ js " role"))
                       (Some (Finite 50)) None))) as [engine policy] eqn:Hcreate.
  cbn [fst PermissionAPI.policyEngine].
  change engine with (fst (engine, policy)). rewrite <- Hcreate.
  rewrite single_policy_evaluate by reflexivity. cbn [evalRules].
  assert (Hrule : matchesRule (PermissionAPI.roleRule roleName resources actions) options
                  = true
                  <-> Req.actorType options = ActorUser
                      /\ hasRole options roleName
                      /\ (exists pattern,
                            pattern ∈ resources
                            /\ matchesPattern pattern (Req.resource options)
                               = true)
                      /\ (ActAny ∈ actions \/ Req.action options ∈ actions)).
  { rewrite matchesRule_conditions, !andb_true_iff.
    cbn [PermissionAPI.roleRule Rule.actors Rule.resources Rule.actions Rule.conditions].
    rewrite matchesActor_any_id, orb_false_r, bool_decide_eq_true.
    rewrite matchesResource_iff, matchesAction_iff.
    change (default [] (Some [Cond.mk (js "role") (js "eq") (VString roleName)]))
      with [Cond.mk (js "role") (js "eq") (VString roleName)].
    rewrite role_condition. split.
    - by intros [[[<- ?] ?] ?].
    - by intros (-> & ? & ? & ?). }
  destruct (matchesRule (PermissionAPI.roleRule roleName resources actions) options).
  - cbn. split; [intros _; by apply Hrule | done].
  - cbn. split; [done |]. intros H. by apply Hrule in H.
Qed.

End SinglePolicy.

(** ** Conditions at the edges *)

Section ConditionEdges.

Lemma contextGet_missing (field : JSString) (context : Context) :
  context !! field = None ->
  field ∉ objectPrototypeKeys ->
  contextGet context field = VUndefined.
Proof.
  intros Hmissing Hfield. unfold contextGet.
  by rewrite Hmissing, bool_decide_eq_false_2.
Qed.

Lemma contextGet_inherited (field : JSString) (context : Context) :
  context !! field = None ->
  field ∈ objectPrototypeKeys ->
  contextGet context field = VBuiltin field.
Proof.
  intros Hmissing Hfield. unfold contextGet.
  by rewrite Hmissing, bool_decide_eq_true_2.
Qed.

(** X26: conditions on a field that the context lacks.  Where
    [Object.prototype] has no property of that name either, the field
    reads as undefined, so [gt], [lt] and [contains] fail; [eq] passes only
    against the value undefined and [neq] against any other value; [in]
    passes only for an array that holds undefined, and [nin] passes unless
    the value is such an array.  Where [Object.prototype] has the property,
    as for "toString", the field reads as the inherited object: [gt], [lt]
    and [contains] fail as well, but [eq] passes only against that object
    and [neq] against any other value, undefined included. *)
Theorem missing_field_conditions (field : JSString) (value : JSValue)
    (context : Context) :
  context !! field = None ->
  (field ∉ objectPrototypeKeys ->
   conditionPasses (Cond.mk field (js "gt") value) context = false
   /\ conditionPasses (Cond.mk field (js "lt") value) context = false
   /\ conditionPasses (Cond.mk field (js "contains") value) context = false
   /\ conditionPasses (Cond.mk field (js "eq") value) context
      = match value with VUndefined => true | _ => false end
   /\ conditionPasses (Cond.mk field (js "neq") value) context
      = match value with VUndefined => false | _ => true end
   /\ conditionPasses (Cond.mk field (js "in") value) context
      = match value with
        | VArray _ elems => arrayIncludes elems VUndefined
        | _ => false
        end
   /\ conditionPasses (Cond.mk field (js "nin") value) context
      = match value with
        | VArray _ elems => negb (arrayIncludes elems VUndefined)
        | _ => true
        end)
  /\ (field ∈ objectPrototypeKeys ->
      conditionPasses (Cond.mk field (js "gt") value) context = false
      /\ conditionPasses (Cond.mk field (js "lt") value) context = false
      /\ conditionPasses (Cond.mk field (js "contains") value) context = false
      /\ conditionPasses (Cond.mk field (js "eq") value) context
         = match value with VBuiltin name => strEq field name | _ => false end
      /\ conditionPasses (Cond.mk field (js "neq") value) context
         = match value with
           | VBuiltin name => negb (strEq field name)
           | _ => true
           end
      /\ conditionPasses (Cond.mk field (js "in") value) context
         = match value with
           | VArray _ elems => arrayIncludes elems (VBuiltin field)
           | _ => false
           end
      /\ conditionPasses (Cond.mk field (js "nin") value) context
         = match value with
           | VArray _ elems => negb (arrayIncludes elems (VBuiltin field))
           | _ => true
           end).
Proof.
  intros Hmissing. unfold conditionPasses.
  cbn [Cond.field Cond.operator Cond.value].
  split; intros Hfield.
  - rewrite (contextGet_missing field context Hmissing Hfield).
    repeat split; try (by destruct value).
  - rewrite (contextGet_inherited field context Hmissing Hfield).
    repeat split; try (by destruct value).
Qed.

Lemma missing_field_conditions_witness :
  conditionPasses (Cond.mk (js "score") (js "gt") (VNumber 10%float)) ∅ = false
  /\ conditionPasses (Cond.mk (js "toString") (js "neq") VUndefined) ∅ = true.
Proof.
  split.
  - refine (proj1 (proj1 (missing_field_conditions (js "score")
                            (VNumber 10%float) ∅ eq_refl) _)).
    by_evaluation.
  - refine (proj1 (proj2 (proj2 (proj2 (proj2
              (proj2 (missing_field_conditions (js "toString") VUndefined ∅
                        eq_refl) _)))))).
    by_evaluation.
Defined.

Lemma membership_conditions (field : JSString) (value : JSValue)
    (context : Context) :
  isArray value = false ->
  conditionPasses (Cond.mk field (js "in") value) context = false
  /\ conditionPasses (Cond.mk field (js "nin") value) context = true.
Proof.
  intros Harray. unfold conditionPasses.
  cbn [Cond.field Cond.operator Cond.value].
  by destruct value.
Qed.

(** X27: [in] and [nin] against a value that is not an array.  A rule with
    such an [in] condition matches no request; such a [nin] condition is
    satisfied by every context, so the rule matches exactly the requests
    that it matches without the condition. *)
Theorem membership_without_array (rule : Rule.t) (field : JSString)
    (value : JSValue) (before after : list Cond.t) (options : Req.t) :
  isArray value = false ->
  matchesRule
    (withConditions rule
       (Some (before ++ Cond.mk field (js "in") value :: after)))
    options = false
  /\ matchesRule
       (withConditions rule
          (Some (before ++ Cond.mk field (js "nin") value :: after)))
       options
     = matchesRule (withConditions rule (Some (before ++ after))) options.
Proof.
  intros Harray. rewrite !matchesRule_conditions.
  set (context := default ∅ (Req.context options)).
  cbn [withConditions Rule.actors Rule.resources Rule.actions Rule.conditions
    default from_option id].
  rewrite !matchesConditions_app. cbn [matchesConditions].
  destruct (membership_conditions field value context Harray) as [Hin Hnin].
  rewrite Hin, Hnin.
  split; [| reflexivity].
  by rewrite andb_false_r, andb_false_r.
Qed.

Lemma membership_without_array_witness :
  isArray (VString (js "admin,owner")) = false
  /\ matchesRule
       (withConditions docsRule
          (Some ([] ++ Cond.mk (js "role") (js "in")
                         (VString (js "admin,owner")) :: [])))
       someRequest = false.
Proof.
  split; [reflexivity |].
  exact (proj1 (membership_without_array docsRule (js "role")
                  (VString (js "admin,owner")) [] [] someRequest eq_refl)).
Defined.

End ConditionEdges.
